(** * Calendar event enhancer: a shallow embedding of
      [scripts/calendar_enhancer.py] and [scripts/calendar_lib.py],
      with the event copier of [scripts/calendar_copier.py]

    The development follows the Python source function by function and
    keeps its names.  Conventions of the embedding:

    - a Python [str] is a Rocq [string], one character for each code
      point: the embedding covers the texts whose code points lie below
      U+0100.  The character classes used by [str.lower], [str.strip],
      [str.split] and by the regular expressions ([\s], [\w], [\b]) are
      those of Python's Unicode database on that range, and so is
      [str.upper] but for the three letters whose upper-case form is not
      one character of the range (U+00B5, U+00DF, U+00FF): what is proved
      of an upper-cased text is proved of the texts without them;
    - [None]-or-string arguments are [option string]; Python truthiness of a
      string ([if not s]) is the test against the empty string;
    - a naive [datetime] is the number of microseconds since the epoch, so
      that [timedelta.days] is a floor division;
    - a [dict] that is only read by key is a [gmap]; the client roster, whose
      iteration order is observable, is an association list;
    - each regular expression is transcribed as the function computing the
      result of Python's backtracking matcher for that pattern; the pattern
      is quoted next to its transcription. *)

From Stdlib Require Import ZArith NArith Ascii Bool List Lia.
From Stdlib Require String.
From stdpp Require Import gmap strings.

Local Open Scope char_scope.
Local Open Scope stdpp_scope.

(** stdpp never unfolds string concatenation; the titles built here are
    concatenations of literals, and their proofs compute with them. *)
#[global] Arguments String.append !s1 s2 : simpl nomatch.

(** ** Characters *)

Module Char.

Definition code (c : ascii) : N := N_of_ascii c.

Definition between (lo hi : N) (c : ascii) : bool :=
  ((lo <=? code c) && (code c <=? hi))%N.

(** [str.isspace] on the code points below U+0100: TAB, LF, VT, FF, CR,
    FS, GS, RS, US, SPACE, NEXT LINE (U+0085) and NO-BREAK SPACE (U+00A0).
    The regular-expression class [\s] of a [str] pattern is the same set,
    and so is the set that [str.strip] and [str.split] remove. *)
Definition is_space (c : ascii) : bool :=
  between 9 13 c || between 28 32 c || between 133 133 c || between 160 160 c.

(** The ASCII letters and digits. *)
Definition is_upper (c : ascii) : bool := between 65 90 c.
Definition is_lower (c : ascii) : bool := between 97 122 c.
Definition is_digit (c : ascii) : bool := between 48 57 c.

(** The letters and numeric characters above U+007F: the ordinal
    indicators, the superscript digits, MICRO SIGN, the vulgar fractions,
    and the accented letters (all of U+00C0 to U+00FF but the
    multiplication and division signs). *)
Definition is_latin1_alnum (c : ascii) : bool :=
  between 170 170 c || between 178 179 c || between 181 181 c
  || between 185 186 c || between 188 190 c
  || between 192 214 c || between 216 246 c || between 248 255 c.

(** The class [\w] of a [str] pattern: the alphanumeric characters of
    the Unicode database and the underscore.  A word boundary [\b] lies
    between a character of this class and one outside it. *)
Definition is_word (c : ascii) : bool :=
  is_upper c || is_lower c || is_digit c || Ascii.eqb c "_" || is_latin1_alnum c.

(** [str.lower]: the upper-case letters, A to Z, U+00C0 to U+00D6 and
    U+00D8 to U+00DE, go to the letter 32 places further; every other
    character is kept. *)
Definition lower (c : ascii) : ascii :=
  if is_upper c || between 192 214 c || between 216 222 c
  then ascii_of_N (code c + 32)
  else c.

(** [str.upper]: the lower-case letters a to z, U+00E0 to U+00F6 and
    U+00F8 to U+00FE go to the letter 32 places before.  Three letters have
    an upper-case form that is not one character below U+0100: U+00DF gives
    "SS", U+00B5 and U+00FF leave the range.  [upper_stays] tells the others
    apart; [upper] is [str.upper] on them. *)
Definition upper (c : ascii) : ascii :=
  if is_lower c || between 224 246 c || between 248 254 c
  then ascii_of_N (code c - 32)
  else c.

Definition upper_stays (c : ascii) : bool :=
  negb (between 181 181 c || between 223 223 c || between 255 255 c).

Definition newline : ascii := ascii_of_N 10.

End Char.

(** ** Python's string methods *)

Module Str.

Definition is_empty (s : string) : bool :=
  match s with EmptyString => true | String _ _ => false end.

Fixpoint map (f : ascii -> ascii) (s : string) : string :=
  match s with
  | EmptyString => EmptyString
  | String c r => String (f c) (map f r)
  end.

Definition lower : string -> string := map Char.lower.
Definition upper : string -> string := map Char.upper.

(** [s.startswith(p)] *)
Fixpoint startswith (p s : string) : bool :=
  match p, s with
  | EmptyString, _ => true
  | String a p', String b s' => Ascii.eqb a b && startswith p' s'
  | String _ _, EmptyString => false
  end.

(** [kw in s] *)
Fixpoint contains (kw s : string) : bool :=
  startswith kw s ||
  match s with
  | EmptyString => false
  | String _ r => contains kw r
  end.

(** [c in s] for a one-character string [c]. *)
Fixpoint has_char (c : ascii) (s : string) : bool :=
  match s with
  | EmptyString => false
  | String a r => Ascii.eqb a c || has_char c r
  end.

Fixpoint take (n : nat) (s : string) : string :=
  match n, s with
  | S n', String c r => String c (take n' r)
  | _, _ => EmptyString
  end.

Fixpoint drop (n : nat) (s : string) : string :=
  match n, s with
  | O, _ => s
  | S n', String _ r => drop n' r
  | S _, EmptyString => EmptyString
  end.

Fixpoint lstrip (s : string) : string :=
  match s with
  | String c r => if Char.is_space c then lstrip r else s
  | EmptyString => EmptyString
  end.

Fixpoint rstrip (s : string) : string :=
  match s with
  | EmptyString => EmptyString
  | String c r =>
      match rstrip r with
      | EmptyString => if Char.is_space c then EmptyString else String c EmptyString
      | r' => String c r'
      end
  end.

(** [s.strip()] *)
Definition strip (s : string) : string := lstrip (rstrip s).

(** The longest prefix whose characters all satisfy [p], and the rest:
    what a greedy [[class]*] consumes and what it leaves. *)
Fixpoint span (p : ascii -> bool) (s : string) : string * string :=
  match s with
  | String c r =>
      if p c then let '(a, b) := span p r in (String c a, b)
      else (EmptyString, s)
  | EmptyString => (EmptyString, EmptyString)
  end.

(** [s.split()]: the maximal runs of non-whitespace characters.  [cur] is
    the word being read, if any. *)
Fixpoint split_go (cur : option string) (s : string) : list string :=
  match s with
  | EmptyString => match cur with Some w => [w] | None => [] end
  | String c r =>
      if Char.is_space c then
        match cur with
        | Some w => w :: split_go None r
        | None => split_go None r
        end
      else
        split_go (Some (match cur with
                        | Some w => w +:+ String c EmptyString
                        | None => String c EmptyString
                        end)) r
  end.

Definition split (s : string) : list string := split_go None s.

(** [sep.join(l)] *)
Fixpoint join (sep : string) (l : list string) : string :=
  match l with
  | [] => EmptyString
  | [x] => x
  | x :: rest => x +:+ sep +:+ join sep rest
  end.

(** [s.split(c)[0]] for a one-character separator. *)
Fixpoint before_char (c : ascii) (s : string) : string :=
  match s with
  | EmptyString => EmptyString
  | String a r => if Ascii.eqb a c then EmptyString else String a (before_char c r)
  end.

(** [s.split(kw, 1)[1]] when [kw] occurs in [s]: the text after the first
    occurrence of [kw]. *)
Fixpoint after (kw s : string) : option string :=
  if startswith kw s then Some (drop (String.length kw) s)
  else match s with
       | EmptyString => None
       | String _ r => after kw r
       end.

(** [any(kw in s for kw in kws)] *)
Definition contains_any (kws : list string) (s : string) : bool :=
  existsb (fun kw => contains kw s) kws.

End Str.

(** ** Dates

    A naive [datetime] is its number of microseconds since the epoch;
    [(a - b).days] is the floor of the difference in days. *)

Definition datetime := Z.

Definition microseconds_per_day : Z := 86400000000.

Definition timedelta_days (a b : datetime) : Z := ((a - b) / microseconds_per_day)%Z.

(** ** Leading markers *)

(** [re.match(r'^(\*+)', summary)]: the length of the leading run of
    asterisks, 0 when there is none (or the summary is empty). *)
Fixpoint count_stars_in_summary (summary : string) : nat :=
  match summary with
  | String "*" r => S (count_stars_in_summary r)
  | _ => 0
  end.

Fixpoint drop_stars (s : string) : string :=
  match s with
  | String "*" r => drop_stars r
  | _ => s
  end.

(** [re.sub(r'^\*+\s*', '', s)]: when [s] starts with an asterisk, the
    leading asterisks and the whitespace after them are removed; otherwise
    [s] is unchanged (leading whitespace included). *)
Definition strip_stars (s : string) : string :=
  match s with
  | String "*" _ => Str.lstrip (drop_stars s)
  | _ => s
  end.

(** ** StatusResolver *)

Definition determine_status (summary : string) (event_date reference_date : datetime)
  : string * string :=
  let star_count := count_stars_in_summary summary in
  if Nat.eqb star_count 0 then ("confirmed", "C")
  else if Nat.eqb star_count 1 then
    let days_diff := timedelta_days event_date reference_date in
    if (Z.abs days_diff <=? 14)%Z then ("confirmed", "C") else ("tentative", "T")
  else if Nat.leb 2 star_count then ("planning", "P")
  else ("tentative", "T").

(** ** Already-processed titles *)

(** The rest of [\[.*?\]] after the opening bracket: a closing bracket is
    reached before any newline ([.] does not match a newline). *)
Fixpoint bracket_closes (s : string) : bool :=
  match s with
  | EmptyString => false
  | String c r =>
      if Ascii.eqb c "]" then true
      else if Ascii.eqb c Char.newline then false
      else bracket_closes r
  end.

(** [re.match(r'^\[.*?\]', summary) is not None] *)
Definition is_already_processed (summary : string) : bool :=
  match summary with
  | String "[" r => bracket_closes r
  | _ => false
  end.

(** ** WorkTypeClassifier *)

Definition next_is_word (s : string) : bool :=
  match s with
  | EmptyString => false
  | String c _ => Char.is_word c
  end.

(** [re.search(r'\bkw\b', s)] for a keyword [kw] that begins and ends with a
    word character: some occurrence of [kw] in [s] has no word character
    immediately before it and none immediately after it.  [prev] tells
    whether the character before the current position is a word character. *)
Fixpoint word_search_go (prev : bool) (kw s : string) : bool :=
  (negb prev && Str.startswith kw s && negb (next_is_word (Str.drop (String.length kw) s)))
  || match s with
     | EmptyString => false
     | String c r => word_search_go (Char.is_word c) kw r
     end.

Definition word_search (kw s : string) : bool := word_search_go false kw s.

(** The keyword tables of [determine_work_type]. *)
Definition design_keywords_plain : list string := ["design"; "consultation"; "estimate"].
Definition office_keywords : list string :=
  ["office"; "invoice"; "quote"; "admin"; "paperwork"; "follow-up"].
Definition errands_keywords : list string :=
  ["errands"; "supply"; "pickup"; "equipment service"; "shop"; "truck service";
   "tool"; "equipment maintenance"; "repair"].
Definition adhoc_keywords : list string := ["storm"; "emergency"; "urgent"; "fix"].

(** [any(re.search(...) for keyword in design_keywords)] over
    ['design', 'consultation', r'\bplanning\b', r'\bplan\b', 'estimate']. *)
Definition design_match (clean_summary : string) : bool :=
  Str.contains "design" clean_summary
  || Str.contains "consultation" clean_summary
  || word_search "planning" clean_summary
  || word_search "plan" clean_summary
  || Str.contains "estimate" clean_summary.

(** The optional [client_data] argument of the source is never read. *)
Definition determine_work_type (summary : string) : string :=
  if Str.is_empty summary then "Maintenance"
  else
    let clean_summary := Str.lower (strip_stars summary) in
    if design_match clean_summary then "Design"
    else if Str.contains_any office_keywords clean_summary then "Office Work"
    else if Str.contains_any errands_keywords clean_summary then "Errands"
    else if Str.contains_any adhoc_keywords clean_summary then "Ad-hoc"
    else "Maintenance".

(** ** NameExtractor *)

(** What [extract_client_name] returns: the empty string for an empty
    summary, the pair [(None, None)] for a non-client event, or a pair of
    candidate names. *)
Inductive NameOptions : Type :=
| EmptyName
| NonClient
| Names (primary fallback : string).

Fixpoint last_char (s : string) : option ascii :=
  match s with
  | EmptyString => None
  | String c EmptyString => Some c
  | String _ r => last_char r
  end.

(** [\s*([^-]+)\s*-] matched right after a closing bracket; the result is
    group 1.  The greedy [\s*] takes the whole whitespace run and the greedy
    [[^-]+] everything up to the first hyphen.  When the hyphen follows the
    whitespace run directly, the matcher backtracks: [\s*] gives back its
    last character, which becomes the group.  With no hyphen at all there is
    no match. *)
Definition status_tail (s : string) : option string :=
  let body := Str.lstrip s in
  if Str.has_char "-" body then
    match Str.before_char "-" body with
    | EmptyString =>
        match last_char (fst (Str.span Char.is_space s)) with
        | Some c => Some (String c EmptyString)
        | None => None
        end
    | g => Some g
    end
  else None.

(** [.*?\]\s*([^-]+)\s*-\s*.*] matched right after the opening bracket: the
    lazy [.*?] tries the closing brackets from left to right, never crossing
    a newline, and stops at the first one after which the rest matches. *)
Fixpoint status_match (s : string) : option string :=
  match s with
  | EmptyString => None
  | String c r =>
      if Ascii.eqb c "]" then
        match status_tail r with
        | Some g => Some g
        | None => status_match r
        end
      else if Ascii.eqb c Char.newline then None
      else status_match r
  end.

(** [re.match(r'^\[.*?\]\s*([^-]+)\s*-\s*.*', summary)], group 1. *)
Definition status_pattern (summary : string) : option string :=
  match summary with
  | String "[" r => status_match r
  | _ => None
  end.

Definition non_client_keywords : list string :=
  ["office"; "errands"; "equipment maintenance"; "truck service"; "tool"].

Definition separators : list ascii :=
  ["+"%char; "("%char; ","%char; ":"%char; ";"%char; "-"%char].

(** The [for sep in separators] loop: the first separator of the list that
    occurs in the text cuts it, and the loop stops. *)
Fixpoint split_on_first_separator (seps : list ascii) (clean_summary : string) : string :=
  match seps with
  | [] => clean_summary
  | sep :: rest =>
      if Str.has_char sep clean_summary
      then Str.strip (Str.before_char sep clean_summary)
      else split_on_first_separator rest clean_summary
  end.

Definition extract_client_name (summary : string) : NameOptions :=
  if Str.is_empty summary then EmptyName
  else
    match status_pattern summary with
    | Some g => let client_name := Str.strip g in Names client_name client_name
    | None =>
        let clean_summary := strip_stars summary in
        if Str.contains_any non_client_keywords (Str.lower clean_summary) then NonClient
        else
          let clean_summary := split_on_first_separator separators clean_summary in
          match Str.split clean_summary with
          | first_word :: second_word :: _ =>
              Names (first_word +:+ " " +:+ second_word) first_word
          | [first_word] => Names first_word first_word
          | [] => Names (Str.strip clean_summary) (Str.strip clean_summary)
          end
    end.

(** ** ClientMatcher *)

Record ClientRecord : Type := {
  full_name : string;
  address : string;
  geo_zone : string;
  is_recurring : bool;
  maintenance_interval : string;
  maintenance_hours : string;
  maintenance_rate : string;
  last_maintenance : string;
  next_target : string;
  priority_level : string;
  schedule_flexibility : string;
  preferred_days : string;
  preferred_time : string;
  special_notes : string;
  active_status : string
}.

(** A Python dict whose iteration order is observable: the entries in
    insertion order. *)
Definition dict (V : Type) : Type := list (string * V).

(** [d.get(k)] / [d[k]] *)
Definition dict_get {V : Type} (d : dict V) (k : string) : option V :=
  match find (fun kv => String.eqb (fst kv) k) d with
  | Some kv => Some (snd kv)
  | None => None
  end.

(** [d[k] = v]: the value of an existing key is replaced in place, a new
    key goes to the end. *)
Fixpoint dict_set {V : Type} (d : dict V) (k : string) (v : V) : dict V :=
  match d with
  | [] => [(k, v)]
  | (k', v') :: rest =>
      if String.eqb k' k then (k, v) :: rest else (k', v') :: dict_set rest k v
  end.

(** [re.sub(r'\s*\([^)]*\)', '', name)]: from left to right, every
    parenthesised group is removed together with the whitespace before it.
    At a position, the greedy [\s*] must be followed by an opening
    parenthesis that is closed later; the match ends at the first closing
    parenthesis.  [fuel] bounds the number of positions visited. *)
Fixpoint remove_codes (fuel : nat) (s : string) : string :=
  match fuel with
  | O => s
  | S fuel' =>
      match s with
      | EmptyString => EmptyString
      | String c r =>
          match snd (Str.span Char.is_space s) with
          | String "(" inner =>
              match Str.after ")" inner with
              | Some rest => remove_codes fuel' rest
              | None => String c (remove_codes fuel' r)
              end
          | _ => String c (remove_codes fuel' r)
          end
      end
  end.

(** The roster key of a client, as [parse_sheets_clients] and
    [parse_csv_clients] compute it from the name column. *)
Definition base_name (name : string) : string :=
  Str.strip (remove_codes (String.length name) name).

(** [clients[base_name] = {'full_name': name, ...}] *)
Definition add_client (clients : dict ClientRecord) (client : ClientRecord)
  : dict ClientRecord :=
  dict_set clients (base_name (full_name client)) client.

(** First loop of [find_matching_client]: exact keys. *)
Fixpoint exact_match (names : list string) (clients : dict ClientRecord)
  : option ClientRecord :=
  match names with
  | [] => None
  | name_option :: rest =>
      match (if Str.is_empty name_option then None else dict_get clients name_option) with
      | Some c => Some c
      | None => exact_match rest clients
      end
  end.

(** Second loop: the first key, in insertion order, equal up to case. *)
Definition caseless_key (name_option : string) (clients : dict ClientRecord)
  : option string :=
  match find (fun kv => String.eqb (Str.lower name_option) (Str.lower (fst kv))) clients with
  | Some kv => Some (fst kv)
  | None => None
  end.

Fixpoint caseless_match (names : list string) (clients : dict ClientRecord)
  : option ClientRecord :=
  match names with
  | [] => None
  | name_option :: rest =>
      match (if Str.is_empty name_option then None else caseless_key name_option clients) with
      | Some client_key => dict_get clients client_key
      | None => caseless_match rest clients
      end
  end.

Definition find_matching_client (event_summary : string) (clients : dict ClientRecord)
  : option ClientRecord :=
  if Str.is_empty event_summary then None
  else
    match extract_client_name event_summary with
    | NonClient => None
    | EmptyName => None
    | Names primary_name fallback_name =>
        match exact_match [primary_name; fallback_name] clients with
        | Some c => Some c
        | None => caseless_match [primary_name; fallback_name] clients
        end
    end.

(** ** NotesExtractor *)

(** [re.sub(r'^[...]+', '', s)] for a character class: the leading run of
    characters of the class is removed. *)
Fixpoint drop_leading (in_class : ascii -> bool) (s : string) : string :=
  match s with
  | String c r => if in_class c then drop_leading in_class r else s
  | EmptyString => EmptyString
  end.

(** The class [[|\-:\s]]. *)
Definition keyword_separator (c : ascii) : bool :=
  Ascii.eqb c "|" || Ascii.eqb c "-" || Ascii.eqb c ":" || Char.is_space c.

(** The class [[\-\(\)\s]]. *)
Definition client_separator (c : ascii) : bool :=
  Ascii.eqb c "-" || Ascii.eqb c "(" || Ascii.eqb c ")" || Char.is_space c.

(** The [for keyword in non_client_keywords] loop of
    [extract_notes_from_summary]; [None] when no keyword occurs. *)
Fixpoint keyword_notes (keywords : list string) (clean_summary : string) : option string :=
  match keywords with
  | [] => None
  | keyword :: rest =>
      if Str.contains keyword (Str.lower clean_summary) then
        match Str.after keyword (Str.lower clean_summary) with
        | Some part =>
            let notes := Str.strip part in
            let notes := drop_leading keyword_separator notes in
            Some (Str.strip notes)
        | None => Some EmptyString
        end
      else keyword_notes rest clean_summary
  end.

Definition eq_nocase (a b : string) : bool := String.eqb (Str.lower a) (Str.lower b).

(** The computation of [start_index]. *)
Definition start_index (words client_words : list string) : nat :=
  match client_words with
  | [c0] =>
      match words with
      | w0 :: _ => if eq_nocase w0 c0 then 1 else 0
      | [] => 0
      end
  | [c0; c1] =>
      match words with
      | w0 :: w1 :: _ =>
          if eq_nocase w0 c0 && eq_nocase w1 c1 then 2
          else if eq_nocase w0 c0 then 1 else 0
      | [w0] => if eq_nocase w0 c0 then 1 else 0
      | [] => 0
      end
  | _ => 0
  end.

(** [re.sub(r'^(maintenance|maint)\s*', '', s, flags=re.IGNORECASE)] *)
Definition strip_maintenance (s : string) : string :=
  if Str.startswith "maintenance" (Str.lower s) then Str.lstrip (Str.drop 11 s)
  else if Str.startswith "maint" (Str.lower s) then Str.lstrip (Str.drop 5 s)
  else s.

Definition extract_notes_from_summary (summary : string) (client_name : option string)
  : string :=
  if Str.is_empty summary then EmptyString
  else
    let clean_summary := strip_stars summary in
    match keyword_notes ["office work"; "errands"] clean_summary with
    | Some notes => notes
    | None =>
        match client_name with
        | Some name =>
            if Str.is_empty name then EmptyString
            else
              let words := Str.split clean_summary in
              let client_words := Str.split name in
              let start := start_index words client_words in
              if Nat.ltb start (length words) then
                let remaining_text := Str.join " " (skipn start words) in
                let remaining_text := strip_maintenance remaining_text in
                let remaining_text := drop_leading client_separator remaining_text in
                let remaining_text := Str.rstrip remaining_text in
                Str.strip remaining_text
              else EmptyString
        | None => EmptyString
        end
    end.

(** ** TitleFormatter *)

Definition helper_part (helper_info : option string) : list string :=
  match helper_info with
  | Some h => if Str.is_empty h then [] else ["(" +:+ h +:+ ")"]
  | None => []
  end.

Definition notes_part (notes : string) : list string :=
  if Str.is_empty notes then [] else ["| " +:+ notes].

Definition create_standardized_title (status_label : string) (client_name : option string)
    (work_type : string) (helper_info : option string) (notes : string) : string :=
  match client_name with
  | Some name =>
      if Str.is_empty name then
        Str.join " " (["[" +:+ status_label +:+ "]"; work_type]
                        ++ helper_part helper_info ++ notes_part notes)
      else
        Str.join " " (["[" +:+ status_label +:+ "]"; name; "-"; work_type]
                        ++ helper_part helper_info ++ notes_part notes)
  | None =>
      Str.join " " (["[" +:+ status_label +:+ "]"; work_type]
                      ++ helper_part helper_info ++ notes_part notes)
  end.

Definition WORK_TYPE_COLORS : dict string :=
  [("Maintenance", "10"); ("Ad-hoc", "4"); ("Design", "3");
   ("Office Work", "8"); ("Errands", "6")].

Definition get_color_for_work_type (work_type : string) : string :=
  match dict_get WORK_TYPE_COLORS work_type with
  | Some color => color
  | None => "10"
  end.

(** ** NameMapper *)

Definition HELPER_NAME_MAPPING : dict string :=
  [("Rorick", "Rebecca"); ("rorick", "Rebecca"); ("RORICK", "Rebecca")].

(** Where [$] matches: at the end of the text, or before a final newline. *)
Definition at_end (s : string) : bool :=
  match s with
  | EmptyString => true
  | String c EmptyString => Ascii.eqb c Char.newline
  | _ => false
  end.

Definition is_star (c : ascii) : bool := Ascii.eqb c "*".

(** [(\s+(?:SOLO|solo)|\?|\*+)$] matched at the start of [s]; the result is
    group 1.  The three alternatives begin with different characters; in
    each, the greedy run must reach the place where [$] matches. *)
Definition modifier_at (s : string) : option string :=
  match s with
  | EmptyString => None
  | String c r =>
      if Char.is_space c then
        let '(spaces, body) := Str.span Char.is_space s in
        if (Str.startswith "SOLO" body || Str.startswith "solo" body)
           && at_end (Str.drop 4 body)
        then Some (spaces +:+ Str.take 4 body)
        else None
      else if Ascii.eqb c "?" then
        if at_end r then Some "?" else None
      else if is_star c then
        let '(stars, rest) := Str.span is_star s in
        if at_end rest then Some stars else None
      else None
  end.

(** [re.search(modifier_pattern, helper_name)]: the leftmost position with
    a match; the result is the text before the match and group 1. *)
Fixpoint modifier_search (s : string) : option (string * string) :=
  match modifier_at s with
  | Some g => Some (EmptyString, g)
  | None =>
      match s with
      | EmptyString => None
      | String c r =>
          match modifier_search r with
          | Some (before, g) => Some (String c before, g)
          | None => None
          end
      end
  end.

(** [re.match(prefix_pattern, helper_name)], where the pattern is one group
    anchored at the start, [\*+] followed by [\s*]: the result is the
    leading asterisks with the whitespace after them (group 1), and the
    rest of the text. *)
Definition prefix_match (s : string) : option (string * string) :=
  match s with
  | String "*" _ =>
      let '(stars, rest) := Str.span is_star s in
      let '(spaces, rest) := Str.span Char.is_space rest in
      Some (stars +:+ spaces, rest)
  | _ => None
  end.

Definition map_helper_name (helper_name : string) : string :=
  if Str.is_empty helper_name then helper_name
  else
    let '(helper_name, modifiers) :=
      match modifier_search helper_name with
      | Some (before, g) => (before, g)
      | None => (helper_name, EmptyString)
      end in
    let '(prefix, helper_name) :=
      match prefix_match helper_name with
      | Some (p, rest) => (p, rest)
      | None => (EmptyString, helper_name)
      end in
    let core_name := Str.strip helper_name in
    let mapped_name :=
      match dict_get HELPER_NAME_MAPPING core_name with
      | Some formal => formal
      | None => core_name
      end in
    prefix +:+ mapped_name +:+ modifiers.

(** ** Events *)

(** The [start] object of a calendar event: an all-day event carries
    [date] only, a timed event carries [dateTime]. *)
Record Start : Type := {
  st_date : option string;
  st_dateTime : option string
}.

Record Event : Type := {
  ev_id : string;
  ev_summary : option string;
  ev_start : option Start;
  ev_location : option string;
  ev_description : option string;
  ev_colorId : option string
}.

(** [event.get('summary', '')] *)
Definition get_summary (event : Event) : string :=
  match ev_summary event with
  | Some s => s
  | None => EmptyString
  end.

(** [start = event.get('start', {})] followed by
    ['date' in start and 'dateTime' not in start]; the date string is
    returned for an all-day event. *)
Definition all_day_date (event : Event) : option string :=
  match ev_start event with
  | Some start =>
      match st_date start, st_dateTime start with
      | Some d, None => Some d
      | _, _ => None
      end
  | None => None
  end.

Definition is_all_day (event : Event) : bool :=
  match all_day_date event with
  | Some _ => true
  | None => false
  end.

(** ** HelperScheduleIndex *)

Definition skip_keywords : list string :=
  ["office"; "design"; "invoices"; "sched"; "comms"; "pdxn"; "shop"].

(** The body of the loop of [extract_helper_info_from_events]. *)
Definition record_helper (helper_schedule : gmap string string) (event : Event)
  : gmap string string :=
  match all_day_date event with
  | Some event_date_str =>
      let summary := Str.strip (get_summary event) in
      if Str.is_empty summary then helper_schedule
      else if Str.contains_any skip_keywords (Str.lower summary) then helper_schedule
      else if Nat.leb (length (Str.split summary)) 3
           then <[event_date_str := summary]> helper_schedule
           else helper_schedule
  | None => helper_schedule
  end.

Definition extract_helper_info_from_events (events : list Event) : gmap string string :=
  fold_left record_helper events ∅.

(** ** DescriptionBuilder *)

Definition line_if (value : string) (label : string) : list string :=
  if Str.is_empty value then [] else [label +:+ value].

(** [' '.join(additional_details)] where [additional_details] is a string:
    its characters separated by spaces. *)
Fixpoint characters (s : string) : list string :=
  match s with
  | EmptyString => []
  | String c r => String c EmptyString :: characters r
  end.

Definition create_enhanced_description (client_data : ClientRecord) (service_type : string)
    (additional_details : string) (helper_info : option string) : string :=
  Str.join (String Char.newline EmptyString)
    (["CLIENT: " +:+ full_name client_data; "SERVICE: " +:+ service_type; EmptyString]
     ++ (match helper_info with
         | Some h => if Str.is_empty h then [] else ["HELPER: " +:+ h; EmptyString]
         | None => []
         end)
     ++ (if Str.is_empty additional_details then []
         else ["DETAILS: " +:+ Str.upper (Str.join " " (characters additional_details));
               EmptyString])
     ++ line_if (maintenance_hours client_data) "ESTIMATED HOURS: "
     ++ line_if (priority_level client_data) "PRIORITY: "
     ++ line_if (schedule_flexibility client_data) "FLEXIBILITY: "
     ++ [EmptyString]
     ++ (if Str.is_empty (geo_zone client_data) then []
         else ["ZONE: " +:+ geo_zone client_data; EmptyString])
     ++ (if negb (Str.is_empty (special_notes client_data))
            && negb (Str.is_empty (Str.strip (special_notes client_data)))
         then ["NOTES: " +:+ special_notes client_data; EmptyString]
         else [])
     ++ line_if (preferred_days client_data) "PREFERRED DAYS: "
     ++ line_if (preferred_time client_data) "PREFERRED TIME: ").

Definition create_non_client_description (work_type notes : string)
    (helper_info : option string) : string :=
  Str.join (String Char.newline EmptyString)
    (["WORK TYPE: " +:+ work_type]
     ++ (match helper_info with
         | Some h => if Str.is_empty h then [] else ["HELPER: " +:+ h]
         | None => []
         end)
     ++ line_if notes "DETAILS: ").

(** ** EnhancementEngine *)

(** The [updates] dictionary built for an event. *)
Record Updates : Type := {
  upd_summary : string;
  upd_colorId : string;
  upd_location : option string;
  upd_description : string
}.

(** The counters of the run, with two traces kept for the proofs: [emitted]
    lists the events that reached the [Updating:] report together with
    their [updates], and [calls] lists the invocations of [update_event]. *)
Record RunState : Type := {
  events_to_update : nat;
  events_updated : nat;
  events_skipped_no_match : nat;
  events_skipped_filtered : nat;
  events_already_processed : nat;
  emitted : list (Event * Updates);
  calls : list (string * Updates)
}.

Definition initial_state : RunState :=
  {| events_to_update := 0; events_updated := 0; events_skipped_no_match := 0;
     events_skipped_filtered := 0; events_already_processed := 0;
     emitted := []; calls := [] |}.

Definition count_already_processed (st : RunState) : RunState :=
  {| events_to_update := events_to_update st;
     events_updated := events_updated st;
     events_skipped_no_match := events_skipped_no_match st;
     events_skipped_filtered := events_skipped_filtered st;
     events_already_processed := S (events_already_processed st);
     emitted := emitted st; calls := calls st |}.

Definition count_skipped_filtered (st : RunState) : RunState :=
  {| events_to_update := events_to_update st;
     events_updated := events_updated st;
     events_skipped_no_match := events_skipped_no_match st;
     events_skipped_filtered := S (events_skipped_filtered st);
     events_already_processed := events_already_processed st;
     emitted := emitted st; calls := calls st |}.

Definition count_skipped_no_match (st : RunState) : RunState :=
  {| events_to_update := events_to_update st;
     events_updated := events_updated st;
     events_skipped_no_match := S (events_skipped_no_match st);
     events_skipped_filtered := events_skipped_filtered st;
     events_already_processed := events_already_processed st;
     emitted := emitted st; calls := calls st |}.

(** [events_to_update += 1] and the report of the update. *)
Definition report_update (event : Event) (updates : Updates) (st : RunState) : RunState :=
  {| events_to_update := S (events_to_update st);
     events_updated := events_updated st;
     events_skipped_no_match := events_skipped_no_match st;
     events_skipped_filtered := events_skipped_filtered st;
     events_already_processed := events_already_processed st;
     emitted := emitted st ++ [(event, updates)]; calls := calls st |}.

(** The call [update_event(service, calendar_id, event_id, updates)] and
    [events_updated += 1] when it succeeds. *)
Definition record_call (event_id : string) (updates : Updates) (ok : bool) (st : RunState)
  : RunState :=
  {| events_to_update := events_to_update st;
     events_updated := if ok then S (events_updated st) else events_updated st;
     events_skipped_no_match := events_skipped_no_match st;
     events_skipped_filtered := events_skipped_filtered st;
     events_already_processed := events_already_processed st;
     emitted := emitted st; calls := calls st ++ [(event_id, updates)] |}.

Definition should_skip_event (summary : string) : bool := Str.is_empty summary.

Definition is_Some_bool {A : Type} (o : option A) : bool :=
  match o with
  | Some _ => true
  | None => false
  end.

(** [s.replace('Z', '+00:00')] *)
Fixpoint replace_Z (s : string) : string :=
  match s with
  | EmptyString => EmptyString
  | String c r => if Ascii.eqb c "Z" then "+00:00" +:+ replace_Z r else String c (replace_Z r)
  end.

(** What [update_event] does to the stored event: every key of [updates]
    is written into it. *)
Definition apply_updates (event : Event) (updates : Updates) : Event :=
  {| ev_id := ev_id event;
     ev_summary := Some (upd_summary updates);
     ev_start := ev_start event;
     ev_location := match upd_location updates with
                    | Some l => Some l
                    | None => ev_location event
                    end;
     ev_description := Some (upd_description updates);
     ev_colorId := Some (upd_colorId updates) |}.

Section Engine.

(** The date functions of Python's standard library, and the clock.
    [fromisoformat s] is [datetime.fromisoformat(s).replace(tzinfo=None)],
    [strptime_date s] is [datetime.strptime(s, '%Y-%m-%d')], both [None]
    when Python raises; [strftime_date d] is [d.strftime('%Y-%m-%d')];
    [now] is the value of [datetime.now()] read by [parse_event_date]. *)
Variable fromisoformat : string -> option datetime.
Variable strptime_date : string -> option datetime.
Variable strftime_date : datetime -> string.
Variable now : datetime.

(** The calendar transport: whether [update_event] succeeds, given the
    calls made before it, the event id and the updates. *)
Variable update_event : list (string * Updates) -> string -> Updates -> bool.

Definition parse_event_date (event : Event) : datetime :=
  match ev_start event with
  | Some start =>
      match st_dateTime start with
      | Some date_str =>
          match fromisoformat (replace_Z date_str) with
          | Some dt => dt
          | None => now
          end
      | None =>
          match st_date start with
          | Some date_str =>
              match strptime_date date_str with
              | Some dt => dt
              | None => now
              end
          | None => now
          end
      end
  | None => now
  end.

Definition get_helper_for_date (event_date : datetime)
    (helper_schedule : gmap string string) : option string :=
  helper_schedule !! strftime_date event_date.

Variable dry_run : bool.
Variable force_reprocess : bool.
Variable clients : dict ClientRecord.
Variable helper_schedule : gmap string string.
Variable reference_date : datetime.

(** The part of the loop body between the client check and the report:
    the [updates] of an event that is going to be rewritten. *)
Definition build_updates (event : Event) (summary work_type : string)
    (client_data : option ClientRecord) : Updates :=
  let event_date := parse_event_date event in
  let helper_info := get_helper_for_date event_date helper_schedule in
  let helper_info :=
    match helper_info with
    | Some h => if Str.is_empty h then Some h else Some (map_helper_name h)
    | None => None
    end in
  let client_name :=
    match client_data with
    | Some c => Some (full_name c)
    | None => None
    end in
  let notes := extract_notes_from_summary summary client_name in
  let '(new_status, status_label) := determine_status summary event_date reference_date in
  let new_title :=
    create_standardized_title status_label client_name work_type helper_info notes in
  let color_id := get_color_for_work_type work_type in
  match client_data with
  | Some c =>
      {| upd_summary := new_title; upd_colorId := color_id;
         upd_location := Some (address c);
         upd_description := create_enhanced_description c work_type notes helper_info |}
  | None =>
      {| upd_summary := new_title; upd_colorId := color_id;
         upd_location := None;
         upd_description := create_non_client_description work_type notes helper_info |}
  end.

(** One iteration of the [for event in events] loop. *)
Definition process_event (st : RunState) (event : Event) : RunState :=
  let event_id := ev_id event in
  let summary := get_summary event in
  if is_all_day event then st
  else if Str.is_empty summary then st
  else
    let processed := is_already_processed summary in
    let st := if processed then count_already_processed st else st in
    if processed && negb force_reprocess then st
    else if should_skip_event summary then count_skipped_filtered st
    else
      let work_type := determine_work_type summary in
      let client_data := find_matching_client summary clients in
      let is_client_event :=
        existsb (String.eqb work_type) ["Maintenance"; "Ad-hoc"; "Design"] in
      if is_client_event && negb (is_Some_bool client_data) then count_skipped_no_match st
      else
        let updates := build_updates event summary work_type client_data in
        let st := report_update event updates st in
        if dry_run then st
        else record_call event_id updates (update_event (calls st) event_id updates) st.

Definition process_events (st : RunState) (events : list Event) : RunState :=
  fold_left process_event events st.

End Engine.

(** The part of [enhance_calendar_events] after the service, the roster
    and the events have been obtained.  [None] stands for the early
    [return False] on an empty event list. *)
Definition enhance_calendar_events
    (fromisoformat strptime_date : string -> option datetime)
    (strftime_date : datetime -> string) (now : datetime)
    (update_event : list (string * Updates) -> string -> Updates -> bool)
    (dry_run force_reprocess : bool) (clients : dict ClientRecord)
    (events : list Event) (reference_date : datetime) : option RunState :=
  match events with
  | [] => None
  | _ =>
      let helper_schedule := extract_helper_info_from_events events in
      Some (process_events fromisoformat strptime_date strftime_date now update_event
              dry_run force_reprocess clients helper_schedule reference_date
              initial_state events)
  end.

(** ** A concrete date library

    The theorems below hold for arbitrary date functions.  The worked
    examples need concrete ones: this module implements them on the proleptic
    Gregorian calendar for the shapes the calendar service emits,
    [YYYY-MM-DD] and [YYYY-MM-DDTHH:MM:SS] with an optional UTC offset
    (which [replace(tzinfo=None)] discards). *)

Module IsoDate.

Local Open Scope Z_scope.

Definition days_from_civil (y m d : Z) : Z :=
  let y' := if m <=? 2 then y - 1 else y in
  let era := y' / 400 in
  let yoe := y' - era * 400 in
  let mp := (m + 9) mod 12 in
  let doy := (153 * mp + 2) / 5 + d - 1 in
  let doe := yoe * 365 + yoe / 4 - yoe / 100 + doy in
  era * 146097 + doe - 719468.

Definition civil_from_days (z : Z) : Z * Z * Z :=
  let z' := z + 719468 in
  let era := z' / 146097 in
  let doe := z' - era * 146097 in
  let yoe := (doe - doe / 1460 + doe / 36524 - doe / 146096) / 365 in
  let doy := doe - (365 * yoe + yoe / 4 - yoe / 100) in
  let mp := (5 * doy + 2) / 153 in
  let d := doy - (153 * mp + 2) / 5 + 1 in
  let m := if mp <? 10 then mp + 3 else mp - 9 in
  let y := yoe + era * 400 in
  (if m <=? 2 then y + 1 else y, m, d).

Definition digit (n : Z) : ascii := ascii_of_N (Z.to_N (48 + n mod 10)).

Definition two_digits (n : Z) : string :=
  String (digit (n / 10)) (String (digit n) EmptyString).

Definition four_digits (n : Z) : string :=
  String (digit (n / 1000)) (String (digit (n / 100)) (two_digits n)).

Definition strftime_date (d : datetime) : string :=
  let '(y, m, dd) := civil_from_days (d / microseconds_per_day) in
  four_digits y +:+ "-" +:+ two_digits m +:+ "-" +:+ two_digits dd.

Definition digit_value (c : ascii) : option Z :=
  if Char.is_digit c then Some (Z.of_N (Char.code c) - 48) else None.

(** The value of a string of decimal digits. *)
Fixpoint number_go (acc : Z) (s : string) : option Z :=
  match s with
  | EmptyString => Some acc
  | String c r =>
      match digit_value c with
      | Some v => number_go (10 * acc + v) r
      | None => None
      end
  end.

Definition number (s : string) : option Z :=
  if Str.is_empty s then None else number_go 0 s.

Definition date_of (y m d : Z) : option Z :=
  if (1 <=? m) && (m <=? 12) && (1 <=? d)
     && (let '(y', m', d') := civil_from_days (days_from_civil y m d) in
         (y' =? y) && (m' =? m) && (d' =? d))
  then Some (days_from_civil y m d * microseconds_per_day)
  else None.

(** [YYYY-MM-DD] *)
Definition strptime_date (s : string) : option datetime :=
  if (String.length s =? 10)%nat
     && Str.startswith "-" (Str.drop 4 s) && Str.startswith "-" (Str.drop 7 s)
  then
    match number (Str.take 4 s), number (Str.take 2 (Str.drop 5 s)),
          number (Str.take 2 (Str.drop 8 s)) with
    | Some y, Some m, Some d => date_of y m d
    | _, _, _ => None
    end
  else None.

Definition time_of (h mi sec : Z) : option Z :=
  if (h <? 24) && (mi <? 60) && (sec <? 60)
  then Some (((h * 60 + mi) * 60 + sec) * 1000000)
  else None.

(** [HH:MM:SS] *)
Definition clock_time (s : string) : option Z :=
  if (String.length s =? 8)%nat
     && Str.startswith ":" (Str.drop 2 s) && Str.startswith ":" (Str.drop 5 s)
  then
    match number (Str.take 2 s), number (Str.take 2 (Str.drop 3 s)),
          number (Str.take 2 (Str.drop 6 s)) with
    | Some h, Some mi, Some sec => time_of h mi sec
    | _, _, _ => None
    end
  else None.

(** An absent offset, or [+HH:MM] / [-HH:MM]. *)
Definition offset_ok (s : string) : bool :=
  match s with
  | EmptyString => true
  | String c r =>
      (Ascii.eqb c "+" || Ascii.eqb c "-")
      && (String.length r =? 5)%nat && Str.startswith ":" (Str.drop 2 r)
      && match number (Str.take 2 r), number (Str.take 2 (Str.drop 3 r)) with
         | Some h, Some mi => (h <? 24) && (mi <? 60)
         | _, _ => false
         end
  end.

(** [YYYY-MM-DDTHH:MM:SS] with an optional offset; the wall-clock time is
    kept and the offset dropped. *)
Definition fromisoformat (s : string) : option datetime :=
  if Str.startswith "T" (Str.drop 10 s) && offset_ok (Str.drop 19 s) then
    match strptime_date (Str.take 10 s), clock_time (Str.take 8 (Str.drop 11 s)) with
    | Some d, Some t => Some (d + t)
    | _, _ => None
    end
  else None.

End IsoDate.

(** * Specification-side definitions *)

(** Whether the loop body reaches the report for this event: the event is
    not all-day, has a title, is not stopped by the already-processed check,
    and is not a client event without a roster match. *)
Definition reaches_update (force_reprocess : bool) (clients : dict ClientRecord)
    (event : Event) : bool :=
  let summary := get_summary event in
  negb (is_all_day event)
  && negb (Str.is_empty summary)
  && negb (is_already_processed summary && negb force_reprocess)
  && negb (existsb (String.eqb (determine_work_type summary))
             ["Maintenance"; "Ad-hoc"; "Design"]
           && negb (is_Some_bool (find_matching_client summary clients))).

(** Two runs took the same decisions: same reported updates, same tally
    apart from the count of successful calls. *)
Definition same_decisions (a b : RunState) : Prop :=
  emitted a = emitted b
  /\ events_to_update a = events_to_update b
  /\ events_skipped_no_match a = events_skipped_no_match b
  /\ events_skipped_filtered a = events_skipped_filtered b
  /\ events_already_processed a = events_already_processed b.

(** A reported update rewrites a timed event and gives it a bracketed
    title. *)
Definition rewritable (eu : Event * Updates) : Prop :=
  is_all_day (fst eu) = false /\ is_already_processed (upd_summary (snd eu)) = true.

(** A timed event whose title is already bracketed. *)
Definition already_done (event : Event) : Prop :=
  is_all_day event = false /\ is_already_processed (get_summary event) = true.

(** The calendar entries rewritten by a run: each reported event with its
    updates applied. *)
Definition rewritten_events (st : RunState) : list Event :=
  map (fun eu => apply_updates (fst eu) (snd eu)) (emitted st).

(** The calendar after a live run all of whose updates succeeded: every
    event that reached the report carries its updates, the others are as
    they were. *)
Definition calendar_after
    (fromisoformat strptime_date : string -> option datetime)
    (strftime_date : datetime -> string) (now : datetime)
    (force_reprocess : bool) (clients : dict ClientRecord)
    (helper_schedule : gmap string string) (reference_date : datetime)
    (events : list Event) : list Event :=
  map (fun event =>
         if reaches_update force_reprocess clients event then
           apply_updates event
             (build_updates fromisoformat strptime_date strftime_date now
                helper_schedule reference_date event (get_summary event)
                (determine_work_type (get_summary event))
                (find_matching_client (get_summary event) clients))
         else event)
      events.

(** ** The classifier, as the specification words it *)

(** [kw] occurs in [s]. *)
Definition occurs (kw s : string) : Prop :=
  exists pre post, s = pre +:+ kw +:+ post.

(** [kw] occurs in [s] at word boundaries: no word character stands
    immediately before or after the occurrence. *)
Definition occurs_as_word (kw s : string) : Prop :=
  exists pre post,
    s = pre +:+ kw +:+ post
    /\ (forall c, last_char pre = Some c -> Char.is_word c = false)
    /\ (forall c r, post = String c r -> Char.is_word c = false).

Definition occurs_any (kws : list string) (s : string) : Prop :=
  exists kw, In kw kws /\ occurs kw s.

Definition is_design (clean : string) : Prop :=
  occurs "design" clean \/ occurs "consultation" clean
  \/ occurs_as_word "planning" clean \/ occurs_as_word "plan" clean
  \/ occurs "estimate" clean.

(** The category of a cleaned (asterisks stripped, lower-cased) title:
    the first category, in the fixed order, one of whose keywords matches. *)
Inductive classified (clean : string) : string -> Prop :=
| classified_design :
    is_design clean -> classified clean "Design"
| classified_office :
    ~ is_design clean -> occurs_any office_keywords clean ->
    classified clean "Office Work"
| classified_errands :
    ~ is_design clean -> ~ occurs_any office_keywords clean ->
    occurs_any errands_keywords clean -> classified clean "Errands"
| classified_adhoc :
    ~ is_design clean -> ~ occurs_any office_keywords clean ->
    ~ occurs_any errands_keywords clean -> occurs_any adhoc_keywords clean ->
    classified clean "Ad-hoc"
| classified_maintenance :
    ~ is_design clean -> ~ occurs_any office_keywords clean ->
    ~ occurs_any errands_keywords clean -> ~ occurs_any adhoc_keywords clean ->
    classified clean "Maintenance".

(** ** The helper schedule, entry by entry *)

(** The entry that an event contributes to the helper schedule: an
    all-day event whose title, stripped of surrounding whitespace, is not
    empty, holds no skip keyword and has at most three words, contributes
    its date and its stripped title. *)
Definition helper_entry (event : Event) : option (string * string) :=
  match all_day_date event with
  | Some date =>
      let title := Str.strip (get_summary event) in
      if negb (Str.is_empty title)
         && negb (Str.contains_any skip_keywords (Str.lower title))
         && Nat.leb (length (Str.split title)) 3
      then Some (date, title)
      else None
  | None => None
  end.

(** ** Helper descriptors, as the specification words them *)

Fixpoint all_chars (p : ascii -> bool) (s : string) : bool :=
  match s with
  | EmptyString => true
  | String c r => p c && all_chars p r
  end.

(** A trailing modifier: whitespace followed by SOLO or solo, a question
    mark, or a run of asterisks. *)
Definition trailing_modifier (m : string) : Prop :=
  (exists spaces word,
      m = spaces +:+ word /\ spaces <> EmptyString
      /\ all_chars Char.is_space spaces = true
      /\ (word = "SOLO" \/ word = "solo"))
  \/ m = "?"
  \/ (m <> EmptyString /\ all_chars is_star m = true).

(** A leading modifier: a run of asterisks and the whitespace after it. *)
Definition leading_modifier (m : string) : Prop :=
  exists stars spaces,
    m = stars +:+ spaces /\ stars <> EmptyString
    /\ all_chars is_star stars = true /\ all_chars Char.is_space spaces = true.

(** The canonical name of a core name: an exact match against the three
    spellings listed in the table. *)
Definition formal_name (core_name : string) : string :=
  if String.eqb "Rorick" core_name || String.eqb "rorick" core_name
     || String.eqb "RORICK" core_name
  then "Rebecca"
  else core_name.

(** The split that the two patterns of [map_helper_name] compute.  The
    search for the modifier pattern returns its leftmost match: with a run
    of asterisks as suffix the text before it does not end with an
    asterisk, with whitespace and SOLO or solo it does not end with
    whitespace, so the suffix is the whole modifier.  Without match the
    suffix is empty. *)
Definition ends_in (p : ascii -> bool) (s : string) : bool :=
  match last_char s with
  | Some c => p c
  | None => false
  end.

Definition begins_with (p : ascii -> bool) (s : string) : bool :=
  match s with
  | String c _ => p c
  | EmptyString => false
  end.

Definition whole_modifier (before suffix : string) : Prop :=
  (exists spaces word,
      suffix = spaces +:+ word /\ spaces <> EmptyString
      /\ all_chars Char.is_space spaces = true
      /\ (word = "SOLO" \/ word = "solo")
      /\ ends_in Char.is_space before = false)
  \/ suffix = "?"
  \/ (suffix <> EmptyString /\ all_chars is_star suffix = true
      /\ ends_in is_star before = false).

Definition trailing_split (helper_name before suffix : string) : Prop :=
  (suffix = EmptyString /\ before = helper_name
   /\ forall a m t, trailing_modifier m -> at_end t = true ->
                    helper_name <> a +:+ m +:+ t)
  \/ (exists tail,
        helper_name = before +:+ suffix +:+ tail /\ at_end tail = true
        /\ whole_modifier before suffix).

(** The leading modifier is the whole run of asterisks at the start with
    the whole run of whitespace after it; without asterisk at the start the
    prefix is empty. *)
Definition leading_split (before prefix rest : string) : Prop :=
  (prefix = EmptyString /\ rest = before /\ begins_with is_star before = false)
  \/ (exists stars spaces,
        prefix = stars +:+ spaces /\ before = prefix +:+ rest
        /\ stars <> EmptyString /\ all_chars is_star stars = true
        /\ all_chars Char.is_space spaces = true
        /\ begins_with Char.is_space rest = false
        /\ (spaces = EmptyString -> begins_with is_star rest = false)).

(** The last character of a trailing modifier tells its kind. *)
Inductive modifier_kind := kind_solo | kind_question | kind_stars.

Definition kind_of_last (c : ascii) : option modifier_kind :=
  if Ascii.eqb c "O" || Ascii.eqb c "o" then Some kind_solo
  else if Ascii.eqb c "?" then Some kind_question
  else if is_star c then Some kind_stars
  else None.

Definition kind_of (m : string) : option modifier_kind :=
  match last_char m with
  | Some c => kind_of_last c
  | None => None
  end.

(** ** Lower-casing, as the specification words it *)

(** The upper-case letters below U+0100, by their code points: A to Z,
    U+00C0 to U+00D6 and U+00D8 to U+00DE. *)
Definition capital (c : ascii) : Prop :=
  (65 <= Char.code c <= 90 \/ 192 <= Char.code c <= 214
   \/ 216 <= Char.code c <= 222)%N.

(** [lower_cased s t]: the text [t] is [s] with every upper-case letter
    replaced by the letter 32 code points further, and nothing else
    changed. *)
Inductive lower_cased : string -> string -> Prop :=
| lower_cased_empty : lower_cased EmptyString EmptyString
| lower_cased_capital (c : ascii) (s t : string) :
    capital c -> lower_cased s t ->
    lower_cased (String c s) (String (ascii_of_N (Char.code c + 32)) t)
| lower_cased_other (c : ascii) (s t : string) :
    ~ capital c -> lower_cased s t -> lower_cased (String c s) (String c t).

(** Two texts that differ in the case of their letters only. *)
Definition same_up_to_case (a b : string) : Prop :=
  exists t, lower_cased a t /\ lower_cased b t.

(** ** Characters above U+007F *)

Module Latin1.

Definition next_line : ascii := ascii_of_N 133.
Definition no_break_space : ascii := ascii_of_N 160.
Definition E_acute : ascii := ascii_of_N 201.
Definition e_acute : ascii := ascii_of_N 233.

(** A one-character text. *)
Definition text (c : ascii) : string := String c EmptyString.

End Latin1.

(** ** Sample data *)

Module Sample.

Definition client (name addr : string) : ClientRecord :=
  {| full_name := name; address := addr; geo_zone := "NE"; is_recurring := true;
     maintenance_interval := "4"; maintenance_hours := "3"; maintenance_rate := "75";
     last_maintenance := "2025-05-01"; next_target := "2025-06-01";
     priority_level := "High"; schedule_flexibility := "Flexible";
     preferred_days := "Tue"; preferred_time := "AM"; special_notes := EmptyString;
     active_status := "Active" |}.

Definition thomas : ClientRecord := client "Thomas" "12 Elm St".
Definition silver : ClientRecord := client "Silver (C013)" "4 Oak Ave".

(** The roster as [parse_sheets_clients] keys it: Thomas under "Thomas",
    Silver (C013) under "Silver". *)
Definition roster : dict ClientRecord := fold_left add_client [thomas; silver] [].

Definition timed_event (id title date_time : string) : Event :=
  {| ev_id := id; ev_summary := Some title;
     ev_start := Some {| st_date := None; st_dateTime := Some date_time |};
     ev_location := None; ev_description := None; ev_colorId := None |}.

Definition all_day_event (id title date : string) : Event :=
  {| ev_id := id; ev_summary := Some title;
     ev_start := Some {| st_date := Some date; st_dateTime := None |};
     ev_location := None; ev_description := None; ev_colorId := None |}.

(** An event without a start marker. *)
Definition unstarted_event (id title : string) : Event :=
  {| ev_id := id; ev_summary := Some title; ev_start := None;
     ev_location := None; ev_description := None; ev_colorId := None |}.

(** An event without a title. *)
Definition untitled_event (id date_time : string) : Event :=
  {| ev_id := id; ev_summary := None;
     ev_start := Some {| st_date := None; st_dateTime := Some date_time |};
     ev_location := None; ev_description := None; ev_colorId := None |}.

(** A transport on which every update succeeds. *)
Definition always_ok (_ : list (string * Updates)) (_ : string) (_ : Updates) : bool := true.

(** The naive datetime written [date_time]. *)
Definition at_time (date_time : string) : datetime :=
  match IsoDate.fromisoformat date_time with
  | Some d => d
  | None => 0%Z
  end.

Definition clock : datetime := at_time "2025-06-01T08:00:00".

Definition calendar : list Event :=
  [ all_day_event "h1" "Rorick SOLO" "2025-06-10";
    timed_event "e1" "**Thomas BOXWOODS + prune" "2025-06-10T09:00:00-07:00";
    timed_event "e2" "*Silver debris" "2025-07-20T09:00:00-07:00";
    timed_event "e3" "Office work invoices" "2025-06-11T13:00:00Z";
    timed_event "e4" "[T] Thomas - Maintenance" "2025-06-12T09:00:00Z" ].

(** The engine on the concrete date library, with the sample clock. *)
Definition enhance (dry_run force_reprocess : bool) (events : list Event) : option RunState :=
  enhance_calendar_events IsoDate.fromisoformat IsoDate.strptime_date
    IsoDate.strftime_date clock always_ok dry_run force_reprocess roster events clock.

End Sample.

(** * Further code of the scripts *)

(** ** The roster rows of [parse_sheets_clients] *)

(** [row[i] if len(row) > i else ''] *)
Definition cell (row : list string) (i : nat) : string := List.nth i row EmptyString.

(** The record built from a row of the Clients sheet. *)
Definition client_of_row (row : list string) : ClientRecord :=
  {| full_name := cell row 1;
     address := cell row 2;
     geo_zone := cell row 3;
     is_recurring := String.eqb (Str.upper (cell row 4)) "TRUE";
     maintenance_interval := cell row 5;
     maintenance_hours := cell row 6;
     maintenance_rate := cell row 7;
     last_maintenance := cell row 8;
     next_target := cell row 9;
     priority_level := cell row 10;
     schedule_flexibility := cell row 11;
     preferred_days := cell row 12;
     preferred_time := cell row 13;
     special_notes := cell row 14;
     active_status := cell row 15 |}.

(** The body of the [for row in rows] loop: a row that is empty, or whose
    first cell or name cell is empty, is skipped; otherwise the record is
    stored under the base name. *)
Definition add_row (clients : dict ClientRecord) (row : list string)
  : dict ClientRecord :=
  match row with
  | [] => clients
  | id_cell :: _ =>
      if Str.is_empty id_cell then clients
      else
        let name := cell row 1 in
        if Str.is_empty name then clients
        else dict_set clients (base_name name) (client_of_row row)
  end.

(** The roster that [parse_sheets_clients] builds from the rows read. *)
Definition parse_sheets_rows (rows : list (list string)) : dict ClientRecord :=
  fold_left add_row rows [].

(** Whether a row contributes a roster entry. *)
Definition row_is_client (row : list string) : bool :=
  negb (Str.is_empty (cell row 0)) && negb (Str.is_empty (cell row 1)).

(** ** The event copier of calendar_copier.py *)

(** The values of an event resource as the API client hands them over:
    JSON decoded into Python objects.  Numbers are integers, as they are in
    the fields of a calendar event; an object keeps its members in order. *)
#[warnings="-register-all"] Inductive Value : Type :=
| VNull
| VBool (b : bool)
| VNum (n : Z)
| VStr (s : string)
| VList (items : list Value)
| VObj (members : list (string * Value)).

(** Python's truth value of an object. *)
Definition truthy (v : Value) : bool :=
  match v with
  | VNull => false
  | VBool b => b
  | VNum n => negb (n =? 0)%Z
  | VStr s => negb (Str.is_empty s)
  | VList items => match items with [] => false | _ => true end
  | VObj members => match members with [] => false | _ => true end
  end.

(** [d.get(key)] when the test [if d.get(key):] passes. *)
Definition get_truthy (d : dict Value) (key : string) : option Value :=
  match dict_get d key with
  | Some v => if truthy v then Some v else None
  | None => None
  end.

(** The exceptions that the copier can let escape: [source_event['end']]
    on an event without end, [start.get] on a start that is no object, and
    [start['dateTime'][:10]] on a value that cannot be sliced. *)
Inductive Error : Type :=
| KeyError (key : string)
| AttributeError
| SubscriptError.

Inductive Outcome (A : Type) : Type :=
| Returned (a : A)
| Raised (error : Error).

Arguments Returned {A} a.
Arguments Raised {A} error.

(** [if source_event.get(key): event_copy[key] = source_event[key]] *)
Definition copy_optional (source_event : dict Value) (key : string)
    (event_copy : dict Value) : dict Value :=
  match get_truthy source_event key with
  | Some v => dict_set event_copy key v
  | None => event_copy
  end.

Definition prepare_event_for_copy (source_event : dict Value)
  : Outcome (option (dict Value)) :=
  match get_truthy source_event "summary", get_truthy source_event "start" with
  | Some summary, Some start =>
      match dict_get source_event "end" with
      | Some end_ =>
          let event_copy := [("summary", summary); ("start", start); ("end", end_)] in
          let event_copy := copy_optional source_event "description" event_copy in
          let event_copy := copy_optional source_event "location" event_copy in
          let event_copy := copy_optional source_event "colorId" event_copy in
          let event_copy := copy_optional source_event "recurrence" event_copy in
          let event_copy := copy_optional source_event "attendees" event_copy in
          let event_copy := copy_optional source_event "reminders" event_copy in
          Returned (Some event_copy)
      | None => Raised (KeyError "end")
      end
  | _, _ => Returned None
  end.

(** The date printed for a copied event: [start.get('dateTime')],
    [start['dateTime'][:10]], [start.get('date')]. *)
Definition printed_date (start : Value) : Outcome Value :=
  match start with
  | VObj members =>
      match get_truthy members "dateTime" with
      | Some (VStr s) => Returned (VStr (Str.take 10 s))
      | Some (VList items) => Returned (VList (firstn 10 items))
      | Some _ => Raised SubscriptError
      | None =>
          match get_truthy members "date" with
          | Some d => Returned d
          | None => Returned (VStr "Unknown date")
          end
      end
  | _ => Raised AttributeError
  end.

(** The counters of the copy loop, and the bodies passed to
    [create_event], in order. *)
Record CopyState : Type := {
  copied_count : nat;
  failed_count : nat;
  skipped_count : nat;
  created : list (dict Value)
}.

Definition copy_start : CopyState :=
  {| copied_count := 0; failed_count := 0; skipped_count := 0; created := [] |}.

Section Copy.

(** The calendar transport: whether [create_event] returns an event,
    given the bodies sent before and the body to send. *)
Variable create_event : list (dict Value) -> dict Value -> bool.
Variable dry_run : bool.

(** One iteration of the [for i, event in enumerate(source_events)] loop. *)
Definition copy_event (st : CopyState) (event : dict Value) : Outcome CopyState :=
  let start :=
    match dict_get event "start" with
    | Some v => v
    | None => VObj []
    end in
  match prepare_event_for_copy event with
  | Raised error => Raised error
  | Returned None =>
      Returned {| copied_count := copied_count st; failed_count := failed_count st;
                  skipped_count := S (skipped_count st); created := created st |}
  | Returned (Some event_copy) =>
      match printed_date start with
      | Raised error => Raised error
      | Returned _ =>
          if dry_run then
            Returned {| copied_count := S (copied_count st);
                        failed_count := failed_count st;
                        skipped_count := skipped_count st; created := created st |}
          else if create_event (created st) event_copy then
            Returned {| copied_count := S (copied_count st);
                        failed_count := failed_count st;
                        skipped_count := skipped_count st;
                        created := created st ++ [event_copy] |}
          else
            Returned {| copied_count := copied_count st;
                        failed_count := S (failed_count st);
                        skipped_count := skipped_count st;
                        created := created st ++ [event_copy] |}
      end
  end.

(** The loop: the state reached, and the exception that stopped it, if
    any.  What was created before an exception stays created. *)
Fixpoint copy_events (st : CopyState) (source_events : list (dict Value))
  : CopyState * option Error :=
  match source_events with
  | [] => (st, None)
  | event :: rest =>
      match copy_event st event with
      | Returned st' => copy_events st' rest
      | Raised error => (st, Some error)
      end
  end.

End Copy.

(** What a call of [copy_calendar_events] did: whether it called
    [delete_all_events], the loop state, and the value returned, [None]
    when an exception escaped. *)
Record CopyRun : Type := {
  delete_called : bool;
  copy_state : CopyState;
  returned : option bool;
  escaped : option Error
}.

(** [copy_calendar_events] after the service has been obtained.
    [delete_all_events] is the answer of the call that clears the
    destination, [source_events] the events fetched from the source;
    [reset_mode] only selects the messages printed. *)
Definition copy_calendar_events (delete_all_events : bool)
    (create_event : list (dict Value) -> dict Value -> bool)
    (source_events : list (dict Value))
    (dry_run clear_destination reset_mode : bool) : CopyRun :=
  if clear_destination && negb dry_run && negb delete_all_events then
    {| delete_called := true; copy_state := copy_start;
       returned := Some false; escaped := None |}
  else
    let delete_called := clear_destination && negb dry_run in
    match source_events with
    | [] =>
        {| delete_called := delete_called; copy_state := copy_start;
           returned := Some true; escaped := None |}
    | _ =>
        match copy_events create_event dry_run copy_start source_events with
        | (st, None) =>
            {| delete_called := delete_called; copy_state := st;
               returned := Some (Nat.eqb (failed_count st) 0); escaped := None |}
        | (st, Some error) =>
            {| delete_called := delete_called; copy_state := st;
               returned := None; escaped := Some error |}
        end
    end.

(** A well-formed event, for which the copier raises no exception: when
    it has a title and a start, it has an end, its start is an object, and
    the [dateTime] of the start, if any, is a string (or a list). *)
Definition well_formed (event : dict Value) : bool :=
  match get_truthy event "summary", get_truthy event "start" with
  | Some _, Some start =>
      is_Some_bool (dict_get event "end")
      && match start with
         | VObj members =>
             match get_truthy members "dateTime" with
             | Some (VStr _) => true
             | Some (VList _) => true
             | Some _ => false
             | None => true
             end
         | _ => false
         end
  | _, _ => true
  end.

(** The keys that [prepare_event_for_copy] always copies, and those it
    copies when their value is true. *)
Definition required_keys : list string := ["summary"; "start"; "end"].
Definition optional_keys : list string :=
  ["description"; "location"; "colorId"; "recurrence"; "attendees"; "reminders"].

(** What the copy holds under a key: the source's value for a required
    key, the source's value when it is true for an optional key, nothing
    for any other key. *)
Definition copied_value (source_event : dict Value) (k : string) : option Value :=
  if existsb (fun key => String.eqb key k) required_keys then dict_get source_event k
  else if existsb (fun key => String.eqb key k) optional_keys
       then get_truthy source_event k
       else None.

(** Whether an event is copied rather than skipped. *)
Definition copyable (event : dict Value) : bool :=
  is_Some_bool (get_truthy event "summary") && is_Some_bool (get_truthy event "start").

(** The copies of the events that are copied, in order. *)
Definition copies (source_events : list (dict Value)) : list (dict Value) :=
  flat_map (fun event =>
              match prepare_event_for_copy event with
              | Returned (Some event_copy) => [event_copy]
              | _ => []
              end)
    source_events.

(** Sample events of a source calendar. *)
Module CopySample.

Definition at_ (date_time : string) : Value := VObj [("dateTime", VStr date_time)].

Definition visit : dict Value :=
  [("id", VStr "ev1"); ("summary", VStr "Thomas");
   ("start", at_ "2025-06-10T09:00:00-07:00"); ("end", at_ "2025-06-10T11:00:00-07:00");
   ("location", VStr ""); ("colorId", VStr "10"); ("htmlLink", VStr "https://example")].

Definition visit_copy : dict Value :=
  [("summary", VStr "Thomas");
   ("start", at_ "2025-06-10T09:00:00-07:00"); ("end", at_ "2025-06-10T11:00:00-07:00");
   ("colorId", VStr "10")].

Definition untitled : dict Value :=
  [("id", VStr "ev2"); ("start", at_ "2025-06-11T09:00:00-07:00");
   ("end", at_ "2025-06-11T10:00:00-07:00")].

Definition endless : dict Value :=
  [("id", VStr "ev3"); ("summary", VStr "Silver");
   ("start", at_ "2025-06-12T09:00:00-07:00")].

Definition always_created (_ : list (dict Value)) (_ : dict Value) : bool := true.

End CopySample.

(** ** Clearing a calendar: [delete_all_events]

    The function is defined twice, in calendar_lib.py and in
    calendar_enhancer.py, with the same body.  The events are those of the
    enhancer: resources with an id and a well-typed start. *)

Module Deletion.

(** The counters of the deletion loop and the ids passed to the
    [delete] call of the API, in order. *)
Record DeleteState : Type := {
  deleted_count : nat;
  failed_count : nat;
  deletes : list string
}.

Definition delete_start : DeleteState :=
  {| deleted_count := 0; failed_count := 0; deletes := [] |}.

(** One iteration of [for i, event in enumerate(events)].  [delete_call]
    tells whether the API call succeeds ([false]: it raises [HttpError]),
    given the ids sent before and the id to delete. *)
Definition delete_step (delete_call : list string -> string -> bool) (dry_run : bool)
    (st : DeleteState) (event : Event) : DeleteState :=
  let event_id := ev_id event in
  if dry_run then
    {| deleted_count := S (deleted_count st); failed_count := failed_count st;
       deletes := deletes st |}
  else if delete_call (deletes st) event_id then
    {| deleted_count := S (deleted_count st); failed_count := failed_count st;
       deletes := deletes st ++ [event_id] |}
  else
    {| deleted_count := deleted_count st; failed_count := S (failed_count st);
       deletes := deletes st ++ [event_id] |}.

(** What a call did: the number of prompts answered, the loop state and
    the value returned. *)
Record DeleteRun : Type := {
  prompts : nat;
  state : DeleteState;
  result : bool
}.

(** [delete_all_events(service, calendar_id, dry_run)].  [listing] is
    the answer of the [list] call, [None] when it raises [HttpError];
    [first_response] and [second_response] are what the user types at the
    two prompts. *)
Definition delete_all_events (listing : option (list Event))
    (first_response second_response : string)
    (delete_call : list string -> string -> bool) (dry_run : bool) : DeleteRun :=
  match listing with
  | None => {| prompts := 0; state := delete_start; result := false |}
  | Some [] => {| prompts := 0; state := delete_start; result := true |}
  | Some events =>
      if negb (String.eqb (Str.lower first_response) "yes") then
        {| prompts := 1; state := delete_start; result := false |}
      else if negb (String.eqb second_response "DELETE ALL EVENTS") then
        {| prompts := 2; state := delete_start; result := false |}
      else
        {| prompts := 2;
           state := fold_left (delete_step delete_call dry_run) events delete_start;
           result := true |}
  end.

(** Both confirmations were given. *)
Definition confirmed (first_response second_response : string) : bool :=
  String.eqb (Str.lower first_response) "yes"
  && String.eqb second_response "DELETE ALL EVENTS".

End Deletion.

(** ** Texts *)

(** A word: not empty, no whitespace. *)
Definition word (w : string) : Prop :=
  w <> EmptyString /\ all_chars (fun c => negb (Char.is_space c)) w = true.

(** No upper-case ASCII letter in the text. *)
Definition no_upper (s : string) : bool :=
  all_chars (fun c => negb (Char.is_upper c)) s.

(** ** Counting *)

(** A timed event that has a title: what the loop of the engine looks at. *)
Definition titled_timed (event : Event) : bool :=
  negb (is_all_day event) && negb (Str.is_empty (get_summary event)).

(** The number of elements that satisfy a test. *)
Definition count_if {A : Type} (test : A -> bool) (l : list A) : nat :=
  length (List.filter test l).

(** * Properties *)

(** ** Strings *)

Section StringFacts.

Lemma append_assoc (a b c : string) : (a +:+ b) +:+ c = a +:+ (b +:+ c).
Proof. induction a as [|x a IH]; simpl; [reflexivity | now rewrite IH]. Qed.

Lemma append_empty_r (a : string) : a +:+ EmptyString = a.
Proof. induction a as [|x a IH]; simpl; [reflexivity | now rewrite IH]. Qed.

Lemma map_append (f : ascii -> ascii) (a b : string) :
  Str.map f (a +:+ b) = Str.map f a +:+ Str.map f b.
Proof. induction a as [|x a IH]; simpl; [reflexivity | now rewrite IH]. Qed.

Lemma lower_append (a b : string) : Str.lower (a +:+ b) = Str.lower a +:+ Str.lower b.
Proof. apply map_append. Qed.

Lemma startswith_append (p s : string) : Str.startswith p (p +:+ s) = true.
Proof.
  induction p as [|x p IH]; simpl; [reflexivity |].
  now rewrite Ascii.eqb_refl, IH.
Qed.

Lemma startswith_spec (p s : string) :
  Str.startswith p s = true <-> exists t, s = p +:+ t.
Proof.
  revert s; induction p as [|x p IH]; intros s; simpl.
  - split; [intros _; now exists s | reflexivity].
  - destruct s as [|y s].
    + split; [discriminate | intros [t Ht]; discriminate].
    + rewrite andb_true_iff, Ascii.eqb_eq, IH. split.
      * intros [-> [t ->]]. now exists t.
      * intros [t Ht]. injection Ht as -> ->. split; [reflexivity | now exists t].
Qed.

Lemma contains_here (kw s : string) :
  Str.startswith kw s = true -> Str.contains kw s = true.
Proof. intros H. destruct s; simpl in *; rewrite H; reflexivity. Qed.

Lemma contains_append_l (kw a s : string) :
  Str.contains kw s = true -> Str.contains kw (a +:+ s) = true.
Proof.
  intros H. induction a as [|x a IH]; simpl; [exact H |].
  rewrite IH. apply orb_true_r.
Qed.

(** The boolean search agrees with the existence of an occurrence. *)
Lemma contains_spec (kw s : string) :
  Str.contains kw s = true <-> exists pre post, s = pre +:+ kw +:+ post.
Proof.
  split.
  - induction s as [|c s IH]; simpl.
    + rewrite orb_false_r. intros H. apply startswith_spec in H as [t Ht].
      now exists EmptyString, t.
    + rewrite orb_true_iff. intros [H | H].
      * apply startswith_spec in H as [t Ht]. now exists EmptyString, t.
      * destruct (IH H) as (pre & post & ->). now exists (String c pre), post.
  - intros (pre & post & ->). apply contains_append_l, contains_here, startswith_append.
Qed.

Lemma is_empty_spec (s : string) : Str.is_empty s = true <-> s = EmptyString.
Proof. destruct s; simpl; split; congruence. Qed.

End StringFacts.

(** ** StatusResolver *)

Lemma count_stars_bracket (summary : string) :
  Str.startswith "[" summary = true -> count_stars_in_summary summary = 0.
Proof.
  destruct summary as [|c r]; [reflexivity |].
  destruct c as [[] [] [] [] [] [] [] []]; try discriminate; reflexivity.
Qed.

Lemma is_already_processed_bracket (summary : string) :
  is_already_processed summary = true -> Str.startswith "[" summary = true.
Proof.
  destruct summary as [|c r]; [discriminate |].
  destruct c as [[] [] [] [] [] [] [] []]; try discriminate; reflexivity.
Qed.

Lemma determine_status_label (summary : string) (event_date reference_date : datetime) :
  In (snd (determine_status summary event_date reference_date)) ["C"; "T"; "P"].
Proof.
  unfold determine_status.
  destruct (Nat.eqb _ 0); [simpl; auto |].
  destruct (Nat.eqb _ 1).
  - destruct (Z.leb _ _); simpl; auto.
  - destruct (Nat.leb 2 _); simpl; auto.
Qed.

(** What [determine_status] computes, by number of leading asterisks.  With
    one asterisk the test is on [timedelta.days], the difference rounded
    down to whole days: the window is [-14 days <= event - reference < 15
    days]. *)
Lemma determine_status_cases (summary : string) (event_date reference_date : datetime) :
  (count_stars_in_summary summary = 0 ->
   determine_status summary event_date reference_date = ("confirmed", "C"))
  /\ (count_stars_in_summary summary = 1 ->
      (-14 * microseconds_per_day <= event_date - reference_date
         < 15 * microseconds_per_day)%Z ->
      determine_status summary event_date reference_date = ("confirmed", "C"))
  /\ (count_stars_in_summary summary = 1 ->
      ~ (-14 * microseconds_per_day <= event_date - reference_date
           < 15 * microseconds_per_day)%Z ->
      determine_status summary event_date reference_date = ("tentative", "T"))
  /\ (2 <= count_stars_in_summary summary ->
      determine_status summary event_date reference_date = ("planning", "P")).
Proof.
  unfold determine_status, timedelta_days, microseconds_per_day.
  set (n := count_stars_in_summary summary).
  set (d := (event_date - reference_date)%Z).
  assert (Hdiv : (-14 <= d / 86400000000 <= 14 <->
                  -14 * 86400000000 <= d < 15 * 86400000000)%Z).
  { split; intros H.
    - pose proof (Z.mul_div_le d 86400000000 ltac:(lia)).
      pose proof (Z.mul_succ_div_gt d 86400000000 ltac:(lia)). lia.
    - split.
      + apply Z.div_le_lower_bound; lia.
      + apply Z.lt_succ_r, Z.div_lt_upper_bound; lia. }
  repeat split.
  - intros ->. reflexivity.
  - intros -> H. simpl. apply Hdiv in H.
    destruct (Z.leb_spec (Z.abs (d / 86400000000)) 14); [reflexivity | lia].
  - intros -> H. simpl.
    destruct (Z.leb_spec (Z.abs (d / 86400000000)) 14); [| reflexivity].
    exfalso. apply H, Hdiv. lia.
  - intros H. destruct n as [|[|n]]; [lia | lia | reflexivity].
Qed.

(** C3.  With one leading asterisk the window of [determine_status] is not
    the fourteen days on either side of the reference date: an event
    fourteen and a half days after the reference date is still labelled C,
    because [timedelta.days] rounds the difference down to 14, while an event
    fourteen and a half days before it is labelled T. *)
Theorem determine_status_rounds_days_down :
  determine_status "*Thomas"
    (Sample.at_time "2025-06-15T12:00:00") (Sample.at_time "2025-06-01T00:00:00")
  = ("confirmed", "C")
  /\ (Sample.at_time "2025-06-15T12:00:00" - Sample.at_time "2025-06-01T00:00:00"
      = 14 * microseconds_per_day + microseconds_per_day / 2)%Z
  /\ timedelta_days
       (Sample.at_time "2025-06-15T12:00:00") (Sample.at_time "2025-06-01T00:00:00")
     = 14%Z
  /\ determine_status "*Thomas"
       (Sample.at_time "2025-05-17T12:00:00") (Sample.at_time "2025-06-01T00:00:00")
     = ("tentative", "T")
  /\ timedelta_days
       (Sample.at_time "2025-05-17T12:00:00") (Sample.at_time "2025-06-01T00:00:00")
     = (-15)%Z.
Proof. repeat split. Qed.

(** ** TitleFormatter *)

Lemma title_is_processed (status_label : string) (client_name : option string)
    (work_type : string) (helper_info : option string) (notes : string) :
  In status_label ["C"; "T"; "P"] ->
  is_already_processed
    (create_standardized_title status_label client_name work_type helper_info notes) = true.
Proof.
  intros Hl. unfold create_standardized_title.
  assert (Hj : forall parts,
             is_already_processed
               (Str.join " " (("[" +:+ status_label +:+ "]") :: work_type :: parts)) = true
             /\ forall name,
                 is_already_processed
                   (Str.join " " (("[" +:+ status_label +:+ "]") :: name :: "-"
                                    :: work_type :: parts)) = true).
  { intros parts. simpl in Hl.
    destruct Hl as [<- | [<- | [<- | []]]]; split; intros; reflexivity. }
  destruct client_name as [name|]; [destruct (Str.is_empty name) |]; simpl; apply Hj.
Qed.

Lemma title_starts_with_C (client_name : option string) (work_type : string)
    (helper_info : option string) (notes : string) :
  Str.startswith "[C] "
    (create_standardized_title "C" client_name work_type helper_info notes) = true.
Proof.
  unfold create_standardized_title.
  destruct client_name as [name|]; [destruct (Str.is_empty name) |]; reflexivity.
Qed.

(** ** EnhancementEngine *)

Section EngineFacts.

Variable fromisoformat : string -> option datetime.
Variable strptime_date : string -> option datetime.
Variable strftime_date : datetime -> string.
Variable now : datetime.
Variable update_event : list (string * Updates) -> string -> Updates -> bool.

Abbreviation build := (build_updates fromisoformat strptime_date strftime_date now).
Abbreviation process :=
  (process_event fromisoformat strptime_date strftime_date now update_event).
Abbreviation run :=
  (process_events fromisoformat strptime_date strftime_date now update_event).

Lemma upd_summary_build helper_schedule reference_date event summary work_type client_data :
  exists client_name helper_info notes,
    upd_summary (build helper_schedule reference_date event summary work_type client_data)
    = create_standardized_title
        (snd (determine_status summary
                (parse_event_date fromisoformat strptime_date now event) reference_date))
        client_name work_type helper_info notes.
Proof.
  unfold build_updates.
  destruct (determine_status _ _ _) as [new_status status_label].
  destruct client_data; cbn [upd_summary snd]; do 3 eexists; reflexivity.
Qed.

(** The two outcomes of one iteration: either nothing is reported and no
    call is made, or the event's updates are reported and, in a live run,
    sent. *)
Lemma process_event_emitted dry_run force_reprocess clients helper_schedule
    reference_date st event :
  let st' := process dry_run force_reprocess clients helper_schedule reference_date
               st event in
  let updates := build helper_schedule reference_date event (get_summary event)
                   (determine_work_type (get_summary event))
                   (find_matching_client (get_summary event) clients) in
  if reaches_update force_reprocess clients event then
    emitted st' = emitted st ++ [(event, updates)]
    /\ events_to_update st' = S (events_to_update st)
    /\ calls st' = (if dry_run then calls st
                    else calls st ++ [(ev_id event, updates)])
  else
    emitted st' = emitted st
    /\ events_to_update st' = events_to_update st
    /\ events_updated st' = events_updated st
    /\ calls st' = calls st.
Proof.
  unfold process_event, reaches_update, should_skip_event.
  set (summary := get_summary event).
  set (no_match := existsb _ _ && negb _).
  destruct (is_all_day event); [cbn; auto |].
  destruct (Str.is_empty summary); [cbn; auto |].
  destruct (is_already_processed summary), force_reprocess, no_match, dry_run;
    cbn; auto.
Qed.

Lemma process_events_cons dry_run force_reprocess clients helper_schedule
    reference_date st event events :
  run dry_run force_reprocess clients helper_schedule reference_date st (event :: events)
  = run dry_run force_reprocess clients helper_schedule reference_date
      (process dry_run force_reprocess clients helper_schedule reference_date st event)
      events.
Proof. reflexivity. Qed.

(** Every update reported by the engine carries a bracketed title, and
    belongs to a timed event. *)
Lemma process_event_rewritable dry_run force_reprocess clients helper_schedule
    reference_date st event :
  Forall rewritable (emitted st) ->
  Forall rewritable
    (emitted (process dry_run force_reprocess clients helper_schedule reference_date
                st event)).
Proof.
  intros Hst.
  pose proof (process_event_emitted dry_run force_reprocess clients helper_schedule
                reference_date st event) as H.
  cbv zeta in H.
  destruct (reaches_update force_reprocess clients event) eqn:Hr.
  - destruct H as (-> & _). apply Forall_app; split; [exact Hst |].
    constructor; [| constructor]. split; cbn [fst snd].
    + unfold reaches_update in Hr. destruct (is_all_day event); [discriminate | reflexivity].
    + destruct (upd_summary_build helper_schedule reference_date event (get_summary event)
                  (determine_work_type (get_summary event))
                  (find_matching_client (get_summary event) clients))
        as (cn & hi & notes & ->).
      apply title_is_processed, determine_status_label.
  - destruct H as (-> & _). exact Hst.
Qed.

Lemma run_rewritable dry_run force_reprocess clients helper_schedule reference_date
    events st :
  Forall rewritable (emitted st) ->
  Forall rewritable
    (emitted (run dry_run force_reprocess clients helper_schedule reference_date
                st events)).
Proof.
  revert st. induction events as [|event events IH]; intros st Hst; [exact Hst |].
  rewrite process_events_cons. apply IH, process_event_rewritable, Hst.
Qed.

Lemma apply_updates_already_done (eu : Event * Updates) :
  rewritable eu -> already_done (apply_updates (fst eu) (snd eu)).
Proof.
  destruct eu as [event updates]. intros [Hday Hproc]. cbn [fst snd] in *.
  split; [| exact Hproc].
  unfold is_all_day, all_day_date, apply_updates in *. exact Hday.
Qed.

(** An already-processed event, without [force_reprocess], only increments
    the already-processed counter. *)
Lemma process_event_already_done dry_run clients helper_schedule reference_date st event :
  already_done event ->
  process dry_run false clients helper_schedule reference_date st event
  = count_already_processed st.
Proof.
  intros [Hday Hproc]. unfold process_event. rewrite Hday, Hproc.
  destruct (get_summary event); [discriminate Hproc | reflexivity].
Qed.

Lemma run_already_done dry_run clients helper_schedule reference_date events st :
  Forall already_done events ->
  let st' := run dry_run false clients helper_schedule reference_date st events in
  emitted st' = emitted st /\ calls st' = calls st
  /\ events_to_update st' = events_to_update st
  /\ events_updated st' = events_updated st
  /\ events_already_processed st' = length events + events_already_processed st.
Proof.
  revert st. induction events as [|event events IH]; intros st Hall; cbv zeta.
  - cbn. auto.
  - inversion Hall as [|? ? Hev Hrest]; subst.
    rewrite process_events_cons, process_event_already_done by exact Hev.
    destruct (IH (count_already_processed st) Hrest) as (-> & -> & -> & -> & ->).
    cbn. repeat split; lia.
Qed.

(** A dry run and a live run take the same decisions, step by step. *)
Lemma process_event_same_decisions force_reprocess clients helper_schedule
    reference_date dry live event :
  same_decisions dry live ->
  calls live = map (fun eu => (ev_id (fst eu), snd eu)) (emitted live) ->
  let dry' := process true force_reprocess clients helper_schedule reference_date
                dry event in
  let live' := process false force_reprocess clients helper_schedule reference_date
                 live event in
  same_decisions dry' live'
  /\ calls dry' = calls dry /\ events_updated dry' = events_updated dry
  /\ calls live' = map (fun eu => (ev_id (fst eu), snd eu)) (emitted live').
Proof.
  intros (He & Hu & Hn & Hf & Hp) Hcalls.
  unfold same_decisions, process_event, should_skip_event.
  set (summary := get_summary event).
  set (no_match := existsb _ _ && negb _).
  destruct (is_all_day event); [cbn; auto 10 |].
  destruct (Str.is_empty summary); [cbn; auto 10 |].
  destruct (is_already_processed summary), force_reprocess, no_match;
    cbn; rewrite ?map_app, ?He, ?Hu, ?Hn, ?Hf, ?Hp, ?Hcalls; cbn; auto 10.
Qed.

Lemma run_same_decisions force_reprocess clients helper_schedule reference_date
    events dry live :
  same_decisions dry live ->
  calls live = map (fun eu => (ev_id (fst eu), snd eu)) (emitted live) ->
  let dry' := run true force_reprocess clients helper_schedule reference_date
                dry events in
  let live' := run false force_reprocess clients helper_schedule reference_date
                 live events in
  same_decisions dry' live'
  /\ calls dry' = calls dry /\ events_updated dry' = events_updated dry
  /\ calls live' = map (fun eu => (ev_id (fst eu), snd eu)) (emitted live').
Proof.
  revert dry live. induction events as [|event events IH]; intros dry live Hs Hc; cbv zeta.
  - cbn. auto.
  - rewrite !process_events_cons.
    destruct (process_event_same_decisions force_reprocess clients helper_schedule
                reference_date dry live event Hs Hc) as (Hs' & Hc1 & Hu1 & Hc').
    destruct (IH _ _ Hs' Hc') as (Hs'' & Hc2 & Hu2 & Hc'').
    repeat split; try apply Hs''; try exact Hc''; congruence.
Qed.

(** The reported updates of a run are those of the events that reach the
    report, in order. *)
Lemma run_emitted dry_run force_reprocess clients helper_schedule reference_date
    events st :
  emitted (run dry_run force_reprocess clients helper_schedule reference_date st events)
  = emitted st
    ++ flat_map
         (fun event =>
            if reaches_update force_reprocess clients event then
              [(event,
                build helper_schedule reference_date event (get_summary event)
                  (determine_work_type (get_summary event))
                  (find_matching_client (get_summary event) clients))]
            else [])
         events.
Proof.
  revert st. induction events as [|event events IH]; intros st.
  - cbn. now rewrite app_nil_r.
  - rewrite process_events_cons, IH. cbn [flat_map].
    pose proof (process_event_emitted dry_run force_reprocess clients helper_schedule
                  reference_date st event) as H.
    cbv zeta in H.
    destruct (reaches_update force_reprocess clients event).
    + destruct H as (-> & _). now rewrite <- app_assoc.
    + destruct H as (-> & _). reflexivity.
Qed.

(** Events that do not reach the report leave the reports, the calls and
    the update counters as they were. *)
Lemma run_nothing_to_do dry_run force_reprocess clients helper_schedule reference_date
    events st :
  Forall (fun event => reaches_update force_reprocess clients event = false) events ->
  let st' := run dry_run force_reprocess clients helper_schedule reference_date
               st events in
  emitted st' = emitted st /\ calls st' = calls st
  /\ events_to_update st' = events_to_update st
  /\ events_updated st' = events_updated st.
Proof.
  revert st. induction events as [|event events IH]; intros st Hall; cbv zeta.
  - cbn. auto.
  - inversion Hall as [|? ? Hev Hrest]; subst.
    rewrite process_events_cons.
    destruct (IH (process dry_run force_reprocess clients helper_schedule
                    reference_date st event) Hrest) as (-> & -> & -> & ->).
    pose proof (process_event_emitted dry_run force_reprocess clients helper_schedule
                  reference_date st event) as H.
    cbv zeta in H. rewrite Hev in H. tauto.
Qed.

(** After a live run whose updates succeeded, no event of the calendar
    reaches the report of a run without [force_reprocess] on the same
    roster. *)
Lemma calendar_after_settled force_reprocess clients helper_schedule reference_date
    events :
  Forall (fun event => reaches_update false clients event = false)
    (calendar_after fromisoformat strptime_date strftime_date now force_reprocess
       clients helper_schedule reference_date events).
Proof.
  unfold calendar_after. induction events as [|event events IH]; cbn [map];
    constructor; [| exact IH].
  destruct (reaches_update force_reprocess clients event) eqn:Hr.
  - destruct (upd_summary_build helper_schedule reference_date event (get_summary event)
                (determine_work_type (get_summary event))
                (find_matching_client (get_summary event) clients))
      as (cn & hi & notes & Htitle).
    set (updates := build _ _ _ _ _ _) in *.
    unfold reaches_update.
    change (get_summary (apply_updates event updates)) with (upd_summary updates).
    rewrite Htitle, title_is_processed by apply determine_status_label.
    cbn [negb andb]. now rewrite andb_false_r.
  - revert Hr. unfold reaches_update.
    destruct (negb (is_all_day event)); [| reflexivity].
    destruct (negb (Str.is_empty (get_summary event))); [| reflexivity].
    destruct (is_already_processed (get_summary event)), force_reprocess;
      cbn [negb andb]; auto.
Qed.

End EngineFacts.

(** C1.  Idempotence of the rewrite.  Every title built by
    [create_standardized_title] with a status label among C, T and P is
    recognised by [is_already_processed]; and when the events rewritten by
    any run of the engine are fed to a second run without
    [force_reprocess] (with any roster, helper schedule, dates and
    transport), that run reports no update and makes no call: each of these
    events is counted as already processed and skipped.  The same holds for
    the whole calendar as a live run leaves it when its updates succeed: a
    second run on the same roster reports no update. *)
Theorem rewrite_is_idempotent :
  (forall status_label client_name work_type helper_info notes,
      In status_label ["C"; "T"; "P"] ->
      is_already_processed
        (create_standardized_title status_label client_name work_type helper_info notes)
      = true)
  /\ (forall fromisoformat strptime_date strftime_date now update_event
             dry_run force_reprocess clients events reference_date first,
         enhance_calendar_events fromisoformat strptime_date strftime_date now
           update_event dry_run force_reprocess clients events reference_date
         = Some first ->
         forall fromisoformat' strptime_date' strftime_date' now' update_event'
                dry_run' clients' helper_schedule' reference_date',
           let second :=
             process_events fromisoformat' strptime_date' strftime_date' now'
               update_event' dry_run' false clients' helper_schedule' reference_date'
               initial_state (rewritten_events first) in
           emitted second = [] /\ calls second = []
           /\ events_to_update second = 0
           /\ events_already_processed second = length (rewritten_events first))
  /\ (forall fromisoformat strptime_date strftime_date now
             force_reprocess clients helper_schedule reference_date events
             fromisoformat' strptime_date' strftime_date' now' update_event'
             dry_run' helper_schedule' reference_date',
         let second :=
           process_events fromisoformat' strptime_date' strftime_date' now'
             update_event' dry_run' false clients helper_schedule' reference_date'
             initial_state
             (calendar_after fromisoformat strptime_date strftime_date now
                force_reprocess clients helper_schedule reference_date events) in
         emitted second = [] /\ calls second = [] /\ events_to_update second = 0).
Proof.
  split; [exact title_is_processed |]. split.
  - intros fi sp sf now ue dry force clients events ref first Hfirst
           fi' sp' sf' now' ue' dry' clients' hs' ref'.
    unfold enhance_calendar_events in Hfirst.
    assert (Hrw : Forall rewritable (emitted first)).
    { destruct events as [|event events]; [discriminate |].
      injection Hfirst as <-.
      apply (run_rewritable fi sp sf now ue dry force clients
               (extract_helper_info_from_events (event :: events)) ref
               (event :: events) initial_state).
      constructor. }
    assert (Hdone : Forall already_done (rewritten_events first)).
    { unfold rewritten_events.
      induction Hrw as [|eu l Heu _ IH]; cbn [map]; constructor;
        auto using apply_updates_already_done. }
    destruct (run_already_done fi' sp' sf' now' ue' dry' clients' hs' ref'
                (rewritten_events first) initial_state Hdone) as (He & Hc & Hu & _ & Hp).
    cbv zeta. rewrite He, Hc, Hu, Hp. cbn. repeat split; lia.
  - intros fi sp sf now force clients hs ref events fi' sp' sf' now' ue' dry' hs' ref'.
    destruct (run_nothing_to_do fi' sp' sf' now' ue' dry' false clients hs' ref'
                (calendar_after fi sp sf now force clients hs ref events) initial_state
                (calendar_after_settled fi sp sf now force clients hs ref events))
      as (He & Hc & Hu & _).
    cbv zeta. rewrite He, Hc, Hu. cbn. auto.
Qed.

(** The first run over the sample calendar, and a second run over what it
    rewrote. *)
Lemma rewrite_is_idempotent_witness :
  is_already_processed
    (create_standardized_title "P" (Some "Thomas") "Maintenance" (Some "Anne")
       "BOXWOODS prune") = true
  /\ exists first,
      Sample.enhance false false Sample.calendar = Some first
      /\ emitted
           (process_events IsoDate.fromisoformat IsoDate.strptime_date
              IsoDate.strftime_date Sample.clock Sample.always_ok false false
              Sample.roster ∅ Sample.clock initial_state (rewritten_events first))
         = [].
Proof.
  split.
  - apply (proj1 rewrite_is_idempotent). simpl. auto.
  - eexists. split; [reflexivity |].
    eapply (proj1 (proj2 rewrite_is_idempotent) IsoDate.fromisoformat
              IsoDate.strptime_date
              IsoDate.strftime_date Sample.clock Sample.always_ok false false
              Sample.roster Sample.calendar Sample.clock).
    reflexivity.
Defined.

(** C5.  Dry-run equivalence.  On the same events, roster, dates and
    clock, the dry run and the live run report the same events with the same
    updates (title, colour, location, description) and reach the same tally,
    apart from the count of successful calls; the dry run never calls
    [update_event], and the live run calls it once for each reported update,
    in order. *)
Theorem dry_run_equivalence :
  forall fromisoformat strptime_date strftime_date now update_event
         force_reprocess clients events reference_date,
    match
      enhance_calendar_events fromisoformat strptime_date strftime_date now
        update_event true force_reprocess clients events reference_date,
      enhance_calendar_events fromisoformat strptime_date strftime_date now
        update_event false force_reprocess clients events reference_date
    with
    | Some dry, Some live =>
        same_decisions dry live
        /\ calls dry = [] /\ events_updated dry = 0
        /\ calls live = map (fun eu => (ev_id (fst eu), snd eu)) (emitted live)
    | None, None => events = []
    | _, _ => False
    end.
Proof.
  intros fi sp sf now ue force clients events ref.
  unfold enhance_calendar_events.
  destruct events as [|event events]; [reflexivity |].
  apply (run_same_decisions fi sp sf now ue force clients
           (extract_helper_info_from_events (event :: events)) ref
           (event :: events) initial_state initial_state).
  - repeat split.
  - reflexivity.
Qed.

(** C9, amended.  An event whose title is missing or empty is skipped: the
    state of the run is left as it was, so no update is reported and no
    counter of the tally records it.  An event whose start marker is missing
    is not skipped for that reason: it is not an all-day event, its date is
    the current time, and it reaches the report exactly when it has a
    title, passes the already-processed check and, for client work, has a
    roster match; its update is then reported and counted. *)
Theorem malformed_events :
  forall fromisoformat strptime_date strftime_date now update_event
         dry_run force_reprocess clients helper_schedule reference_date st event,
    (get_summary event = EmptyString ->
     process_event fromisoformat strptime_date strftime_date now update_event
       dry_run force_reprocess clients helper_schedule reference_date st event = st)
    /\ (ev_start event = None ->
        is_all_day event = false
        /\ parse_event_date fromisoformat strptime_date now event = now
        /\ reaches_update force_reprocess clients event
           = negb (Str.is_empty (get_summary event))
             && negb (is_already_processed (get_summary event) && negb force_reprocess)
             && negb (existsb (String.eqb (determine_work_type (get_summary event)))
                        ["Maintenance"; "Ad-hoc"; "Design"]
                      && negb (is_Some_bool
                                 (find_matching_client (get_summary event) clients)))
        /\ (reaches_update force_reprocess clients event = true ->
            let st' :=
              process_event fromisoformat strptime_date strftime_date now update_event
                dry_run force_reprocess clients helper_schedule reference_date st event in
            events_to_update st' = S (events_to_update st)
            /\ emitted st'
               = emitted st
                 ++ [(event,
                      build_updates fromisoformat strptime_date strftime_date now
                        helper_schedule reference_date event (get_summary event)
                        (determine_work_type (get_summary event))
                        (find_matching_client (get_summary event) clients))])).
Proof.
  intros fi sp sf now ue dry force clients hs ref st event. split.
  - intros He. unfold process_event. rewrite He.
    destruct (is_all_day event); reflexivity.
  - intros Hs.
    assert (Hday : is_all_day event = false).
    { unfold is_all_day, all_day_date. now rewrite Hs. }
    split; [exact Hday |]. split; [| split].
    + unfold parse_event_date. now rewrite Hs.
    + unfold reaches_update. now rewrite Hday.
    + intros Hr.
      pose proof (process_event_emitted fi sp sf now ue dry force clients hs ref st event)
        as H.
      cbv zeta in H. rewrite Hr in H. cbv zeta. destruct H as (-> & -> & _). auto.
Qed.

(** A sample event without a title, and one without a start marker. *)
Lemma malformed_events_witness :
  process_event IsoDate.fromisoformat IsoDate.strptime_date IsoDate.strftime_date
    Sample.clock Sample.always_ok false false Sample.roster ∅ Sample.clock
    initial_state (Sample.untitled_event "e9" "2025-06-10T09:00:00Z")
  = initial_state
  /\ parse_event_date IsoDate.fromisoformat IsoDate.strptime_date Sample.clock
       (Sample.unstarted_event "e8" "*Thomas prune") = Sample.clock
  /\ events_to_update
       (process_event IsoDate.fromisoformat IsoDate.strptime_date IsoDate.strftime_date
          Sample.clock Sample.always_ok false false Sample.roster ∅ Sample.clock
          initial_state (Sample.unstarted_event "e8" "*Thomas prune"))
     = 1.
Proof.
  split; [| split].
  - apply (proj1 (malformed_events IsoDate.fromisoformat IsoDate.strptime_date
                    IsoDate.strftime_date Sample.clock Sample.always_ok false false
                    Sample.roster ∅ Sample.clock initial_state
                    (Sample.untitled_event "e9" "2025-06-10T09:00:00Z"))).
    reflexivity.
  - apply (proj2 (malformed_events IsoDate.fromisoformat IsoDate.strptime_date
                    IsoDate.strftime_date Sample.clock Sample.always_ok false false
                    Sample.roster ∅ Sample.clock initial_state
                    (Sample.unstarted_event "e8" "*Thomas prune"))).
    reflexivity.
  - apply (proj2 (malformed_events IsoDate.fromisoformat IsoDate.strptime_date
                    IsoDate.strftime_date Sample.clock Sample.always_ok false false
                    Sample.roster ∅ Sample.clock initial_state
                    (Sample.unstarted_event "e8" "*Thomas prune"))).
    + reflexivity.
    + vm_compute. reflexivity.
Defined.

(** C9 as stated fails twice.  An event without a start marker is not
    skipped: with the title ["*Thomas prune"] and Thomas in the roster, the
    live run reports an update and calls [update_event].  An event without a
    title is skipped, but no counter records it: the state of the run is
    unchanged. *)
Lemma malformed_events_counterexample :
  ev_start (Sample.unstarted_event "e8" "*Thomas prune") = None
  /\ (exists updates,
        upd_summary updates = "[C] Thomas - Maintenance | prune"
        /\ calls
             (process_event IsoDate.fromisoformat IsoDate.strptime_date
                IsoDate.strftime_date Sample.clock Sample.always_ok false false
                Sample.roster ∅ Sample.clock initial_state
                (Sample.unstarted_event "e8" "*Thomas prune"))
           = [("e8", updates)])
  /\ ev_summary (Sample.untitled_event "e9" "2025-06-10T09:00:00Z") = None
  /\ process_event IsoDate.fromisoformat IsoDate.strptime_date IsoDate.strftime_date
       Sample.clock Sample.always_ok false false Sample.roster ∅ Sample.clock
       initial_state (Sample.untitled_event "e9" "2025-06-10T09:00:00Z")
     = initial_state.
Proof.
  split; [reflexivity |]. split.
  - eexists. split; [| vm_compute; reflexivity]. reflexivity.
  - split; reflexivity.
Qed.

(** C10.  A title recognised by [is_already_processed] begins with an
    opening bracket; for every title that begins with one,
    [count_stars_in_summary] is 0 and [determine_status] answers
    (confirmed, C) for all dates; and when the engine re-processes such an
    event under [force_reprocess], the title of any update it reports begins
    with the label C, whatever letter the old bracket held. *)
Theorem bracketed_title_is_relabelled_C :
  (forall summary,
      is_already_processed summary = true -> Str.startswith "[" summary = true)
  /\ (forall summary,
         Str.startswith "[" summary = true ->
         count_stars_in_summary summary = 0
         /\ (forall event_date reference_date,
                determine_status summary event_date reference_date = ("confirmed", "C"))
         /\ (forall fromisoformat strptime_date strftime_date now update_event
                    dry_run clients helper_schedule reference_date st event,
                get_summary event = summary ->
                let st' :=
                  process_event fromisoformat strptime_date strftime_date now
                    update_event dry_run true clients helper_schedule reference_date
                    st event in
                emitted st' = emitted st
                \/ exists updates,
                    emitted st' = emitted st ++ [(event, updates)]
                    /\ Str.startswith "[C] " (upd_summary updates) = true)).
Proof.
  split; [exact is_already_processed_bracket |].
  intros summary Hb.
  pose proof (count_stars_bracket summary Hb) as Hstars.
  assert (Hstatus : forall e r, determine_status summary e r = ("confirmed", "C")).
  { intros e r. destruct (determine_status_cases summary e r) as (H0 & _). auto. }
  split; [exact Hstars |]. split; [exact Hstatus |].
  intros fi sp sf now ue dry clients hs ref st event Hsum.
  pose proof (process_event_emitted fi sp sf now ue dry true clients hs ref st event) as H.
  cbv zeta in H. cbv zeta.
  destruct (reaches_update true clients event).
  - right. destruct H as (-> & _). eexists. split; [reflexivity |].
    destruct (upd_summary_build fi sp sf now hs ref event (get_summary event)
                (determine_work_type (get_summary event))
                (find_matching_client (get_summary event) clients))
      as (cn & hi & notes & ->).
    rewrite Hsum, Hstatus. apply title_starts_with_C.
  - left. apply H.
Qed.

(** The sample event already labelled T, re-processed under
    [force_reprocess]. *)
Lemma bracketed_title_is_relabelled_C_witness :
  determine_status "[T] Thomas - Maintenance" 1749718800000000%Z Sample.clock
  = ("confirmed", "C")
  /\ exists first,
      Sample.enhance false true Sample.calendar = Some first
      /\ (upd_summary ∘ snd) <$> last (emitted first)
         = Some "[C] Thomas - Maintenance | [T] Thomas - Maintenance".
Proof.
  split.
  - apply (proj2 bracketed_title_is_relabelled_C "[T] Thomas - Maintenance").
    apply (proj1 bracketed_title_is_relabelled_C). reflexivity.
  - eexists. split; [reflexivity |]. vm_compute. reflexivity.
Defined.

(** ** WorkTypeClassifier *)

Lemma contains_occurs (kw s : string) : Str.contains kw s = true <-> occurs kw s.
Proof. apply contains_spec. Qed.

Lemma contains_any_occurs (kws : list string) (s : string) :
  Str.contains_any kws s = true <-> occurs_any kws s.
Proof.
  unfold Str.contains_any, occurs_any. rewrite existsb_exists.
  split; intros (kw & Hin & H); exists kw; split; auto; now apply contains_occurs.
Qed.

Lemma drop_length_append (a b : string) : Str.drop (String.length a) (a +:+ b) = b.
Proof. induction a as [|x a IH]; simpl; auto. Qed.

Lemma last_char_cons (c : ascii) (s : string) :
  last_char (String c s) = match last_char s with Some d => Some d | None => Some c end.
Proof.
  destruct s as [|d s]; [reflexivity |].
  change (last_char (String c (String d s))) with (last_char (String d s)).
  assert (H : exists e, last_char (String d s) = Some e).
  { revert d. induction s as [|x s IH]; intros d; [now exists d |]. apply (IH x). }
  destruct H as [e ->]. reflexivity.
Qed.

(** The boundary-aware search agrees with the existence of an occurrence
    between non-word characters. *)
Lemma word_search_go_spec (kw s : string) (prev : bool) :
  word_search_go prev kw s = true <->
  exists pre post,
    s = pre +:+ kw +:+ post
    /\ match last_char pre with
       | Some c => Char.is_word c = false
       | None => prev = false
       end
    /\ next_is_word post = false.
Proof.
  split.
  - revert prev. induction s as [|c s IH]; intros prev; cbn [word_search_go];
      rewrite orb_true_iff, !andb_true_iff, !negb_true_iff.
    + intros [[[Hp Hs] Hn] | H]; [| discriminate].
      apply startswith_spec in Hs as [t Ht]. rewrite Ht, drop_length_append in Hn.
      exists EmptyString, t. auto.
    + intros [[[Hp Hs] Hn] | H].
      * apply startswith_spec in Hs as [t Ht]. rewrite Ht, drop_length_append in Hn.
        exists EmptyString, t. auto.
      * destruct (IH _ H) as (pre & post & -> & Hb & Hn).
        exists (String c pre), post. split; [reflexivity |]. split; [| exact Hn].
        rewrite last_char_cons. destruct (last_char pre); assumption.
  - intros (pre & post & -> & Hb & Hn). revert prev Hb.
    induction pre as [|c pre IH]; intros prev Hb.
    + cbn [last_char] in Hb. subst prev. cbn [String.append].
      destruct (kw +:+ post) eqn:E; cbn [word_search_go];
        rewrite <- E, startswith_append, drop_length_append, Hn; reflexivity.
    + cbn [String.append word_search_go]. rewrite (IH (Char.is_word c)).
      * apply orb_true_r.
      * rewrite last_char_cons in Hb. destruct (last_char pre); assumption.
Qed.

Lemma word_search_spec (kw s : string) :
  word_search kw s = true <-> occurs_as_word kw s.
Proof.
  unfold word_search, occurs_as_word. rewrite word_search_go_spec.
  split; intros (pre & post & -> & Hb & Hn); exists pre, post; (split; [reflexivity |]).
  - split.
    + intros c Hc. now rewrite Hc in Hb.
    + intros c r ->. exact Hn.
  - split.
    + destruct (last_char pre); auto.
    + destruct post as [|c r]; [reflexivity |]. cbn. eauto.
Qed.

Lemma design_match_spec (clean : string) : design_match clean = true <-> is_design clean.
Proof.
  unfold design_match, is_design.
  rewrite !orb_true_iff, !contains_occurs, !word_search_spec. tauto.
Qed.

Lemma not_true_iff (b : bool) (P : Prop) : (b = true <-> P) -> b = false -> ~ P.
Proof. intros H Hb HP. apply H in HP. congruence. Qed.

(** [determine_work_type] returns the category that the ordered rules
    assign to the cleaned title. *)
Lemma determine_work_type_classified (summary : string) :
  classified (Str.lower (strip_stars summary)) (determine_work_type summary).
Proof.
  unfold determine_work_type.
  set (clean := Str.lower (strip_stars summary)).
  pose proof (design_match_spec clean) as Hd.
  pose proof (contains_any_occurs office_keywords clean) as Ho.
  pose proof (contains_any_occurs errands_keywords clean) as He.
  pose proof (contains_any_occurs adhoc_keywords clean) as Ha.
  destruct (Str.is_empty summary) eqn:Hempty.
  - apply is_empty_spec in Hempty. subst summary. subst clean. cbn in *.
    apply classified_maintenance.
    + apply (not_true_iff _ _ Hd). reflexivity.
    + apply (not_true_iff _ _ Ho). reflexivity.
    + apply (not_true_iff _ _ He). reflexivity.
    + apply (not_true_iff _ _ Ha). reflexivity.
  - destruct (design_match clean) eqn:E1; [apply classified_design, Hd; reflexivity |].
    pose proof (not_true_iff _ _ Hd eq_refl) as N1.
    destruct (Str.contains_any office_keywords clean) eqn:E2;
      [apply classified_office; [exact N1 | now apply Ho] |].
    pose proof (not_true_iff _ _ Ho eq_refl) as N2.
    destruct (Str.contains_any errands_keywords clean) eqn:E3;
      [apply classified_errands; [exact N1 | exact N2 | now apply He] |].
    pose proof (not_true_iff _ _ He eq_refl) as N3.
    destruct (Str.contains_any adhoc_keywords clean) eqn:E4;
      [apply classified_adhoc; [exact N1 | exact N2 | exact N3 | now apply Ha] |].
    pose proof (not_true_iff _ _ Ha eq_refl) as N4.
    now apply classified_maintenance.
Qed.

Lemma occurs_lower (kw s : string) :
  Str.lower kw = kw -> occurs kw s -> occurs kw (Str.lower s).
Proof.
  intros Hkw (pre & post & ->). exists (Str.lower pre), (Str.lower post).
  now rewrite !lower_append, Hkw.
Qed.

Lemma contains_skip (kw : string) (c : ascii) (r : string) :
  Str.startswith kw (String c r) = false ->
  Str.contains kw (String c r) = Str.contains kw r.
Proof. intros H. cbn [Str.contains]. now rewrite H. Qed.

(** Stripping the leading asterisks and whitespace does not lose an
    occurrence of a keyword that begins with another character. *)
Lemma contains_strip_stars (k : ascii) (kw s : string) :
  Ascii.eqb k "*" = false -> Char.is_space k = false ->
  Str.contains (String k kw) (strip_stars s) = Str.contains (String k kw) s.
Proof.
  intros Hstar Hspace.
  assert (Hneq : forall c r, Ascii.eqb k c = false ->
                   Str.contains (String k kw) (String c r) = Str.contains (String k kw) r).
  { intros c r Hc. apply contains_skip. cbn [Str.startswith]. now rewrite Hc. }
  assert (Hl : forall t, Str.contains (String k kw) (Str.lstrip t)
                         = Str.contains (String k kw) t).
  { induction t as [|c t IH]; [reflexivity |]. cbn [Str.lstrip].
    destruct (Char.is_space c) eqn:Hc; [| reflexivity].
    rewrite IH. symmetry. apply Hneq.
    destruct (Ascii.eqb_spec k c) as [-> |]; [congruence | reflexivity]. }
  assert (Hd : forall t, Str.contains (String k kw) (drop_stars t)
                         = Str.contains (String k kw) t).
  { induction t as [|c t IH]; [reflexivity |].
    destruct (Ascii.eqb_spec c "*") as [-> | Hc].
    - change (drop_stars (String "*" t)) with (drop_stars t).
      rewrite IH. symmetry. now apply Hneq.
    - destruct c as [[] [] [] [] [] [] [] []]; try reflexivity. now contradiction Hc. }
  unfold strip_stars. destruct s as [|c r]; [reflexivity |].
  destruct (Ascii.eqb_spec c "*") as [-> | Hc].
  - change (Str.contains (String k kw) (Str.lstrip (drop_stars (String "*" r)))
            = Str.contains (String k kw) (String "*" r)).
    now rewrite Hl, Hd.
  - destruct c as [[] [] [] [] [] [] [] []]; try reflexivity. now contradiction Hc.
Qed.

Lemma design_in_title (summary : string) :
  occurs "design" summary -> determine_work_type summary = "Design".
Proof.
  intros Hocc. unfold determine_work_type.
  destruct (Str.is_empty summary) eqn:Hempty.
  - apply is_empty_spec in Hempty. subst summary.
    destruct Hocc as (pre & post & H). destruct pre; discriminate H.
  - assert (H : design_match (Str.lower (strip_stars summary)) = true).
    { apply design_match_spec. left. apply occurs_lower; [reflexivity |].
      apply contains_occurs. rewrite contains_strip_stars by reflexivity.
      now apply contains_occurs. }
    now rewrite H.
Qed.

(** ** HelperScheduleIndex *)

Lemma record_helper_entry (helper_schedule : gmap string string) (event : Event) :
  record_helper helper_schedule event
  = match helper_entry event with
    | Some (date, title) => <[date := title]> helper_schedule
    | None => helper_schedule
    end.
Proof.
  unfold record_helper, helper_entry.
  destruct (all_day_date event) as [date|]; [| reflexivity].
  destruct (Str.is_empty _); [reflexivity |].
  destruct (Str.contains_any _ _); [reflexivity |].
  destruct (Nat.leb _ 3); reflexivity.
Qed.

Lemma helper_entry_date (event : Event) (date title : string) :
  helper_entry event = Some (date, title) -> all_day_date event = Some date.
Proof.
  unfold helper_entry. destruct (all_day_date event) as [d|]; [| discriminate].
  destruct (_ && _); [| discriminate]. congruence.
Qed.

(** Later events leave an entry alone unless they contribute one for the
    same date. *)
Lemma later_events_keep (events : list Event) (helper_schedule : gmap string string)
    (date title : string) :
  helper_schedule !! date = Some title ->
  (forall later, In later events -> all_day_date later = Some date ->
                 helper_entry later = None) ->
  fold_left record_helper events helper_schedule !! date = Some title.
Proof.
  revert helper_schedule.
  induction events as [|later events IH]; intros m Hm Hnone; [exact Hm |].
  cbn [fold_left]. apply IH.
  - rewrite record_helper_entry.
    destruct (helper_entry later) as [[d t]|] eqn:He; [| exact Hm].
    rewrite lookup_insert_ne; [exact Hm |].
    intros ->. apply helper_entry_date in He as Hd.
    rewrite (Hnone later (or_introl eq_refl) Hd) in He. discriminate.
  - intros e Hin. apply Hnone. now right.
Qed.

Lemma last_entry_recorded (earlier later : list Event) (event : Event) (date : string) :
  all_day_date event = Some date ->
  Str.strip (get_summary event) <> EmptyString ->
  Str.contains_any skip_keywords (Str.lower (Str.strip (get_summary event))) = false ->
  length (Str.split (Str.strip (get_summary event))) <= 3 ->
  (forall e, In e later -> all_day_date e = Some date -> helper_entry e = None) ->
  extract_helper_info_from_events (earlier ++ event :: later) !! date
  = Some (Str.strip (get_summary event)).
Proof.
  intros Hdate Hne Hskip Hwords Hlater.
  unfold extract_helper_info_from_events.
  rewrite fold_left_app. cbn [fold_left].
  apply later_events_keep; [| exact Hlater].
  rewrite record_helper_entry. unfold helper_entry. rewrite Hdate.
  destruct (Str.is_empty (Str.strip (get_summary event))) eqn:He.
  - apply is_empty_spec in He. contradiction.
  - rewrite Hskip. apply Nat.leb_le in Hwords. rewrite Hwords. cbn.
    apply lookup_insert_eq.
Qed.

Lemma single_event_no_entry (event : Event) (date : string) :
  helper_entry event = None -> extract_helper_info_from_events [event] !! date = None.
Proof.
  intros H. unfold extract_helper_info_from_events. cbn [fold_left].
  rewrite record_helper_entry, H. apply lookup_empty.
Qed.

(** C8, amended.  An all-day event whose title, stripped of surrounding
    whitespace, is not empty, holds none of the skip keywords whatever the
    case, and splits into at most three words, is recorded under its date
    with the stripped title, unless a later event contributes an entry for
    the same date: the last contribution wins.  The recorded title is the
    event's title verbatim when that title has no surrounding whitespace.
    Whitespace is what [str.strip] and [str.split] take for it: a no-break
    space separates words as a blank does, so that a title of two blanks and
    two no-break spaces has four words and is not recorded, and no-break
    spaces around a title are stripped. *)
Theorem helper_schedule_last_wins :
  (forall (earlier later : list Event) (event : Event) (date : string),
      all_day_date event = Some date ->
      Str.strip (get_summary event) <> EmptyString ->
      Str.contains_any skip_keywords (Str.lower (Str.strip (get_summary event))) = false ->
      length (Str.split (Str.strip (get_summary event))) <= 3 ->
      (forall e, In e later -> all_day_date e = Some date -> helper_entry e = None) ->
      extract_helper_info_from_events (earlier ++ event :: later) !! date
      = Some (Str.strip (get_summary event))
      /\ (Str.strip (get_summary event) = get_summary event ->
          extract_helper_info_from_events (earlier ++ event :: later) !! date
          = Some (get_summary event)))
  /\ Str.split ("Anne" +:+ Latin1.text Latin1.no_break_space +:+ "and"
                +:+ Latin1.text Latin1.no_break_space +:+ "Megan too")
     = ["Anne"; "and"; "Megan"; "too"]
  /\ extract_helper_info_from_events
       [Sample.all_day_event "h4"
          ("Anne" +:+ Latin1.text Latin1.no_break_space +:+ "and"
           +:+ Latin1.text Latin1.no_break_space +:+ "Megan too") "2025-06-10"]
       !! "2025-06-10" = None
  /\ extract_helper_info_from_events
       [Sample.all_day_event "h5"
          (Latin1.text Latin1.no_break_space +:+ "Anne and Megan"
           +:+ Latin1.text Latin1.no_break_space) "2025-06-10"]
       !! "2025-06-10" = Some "Anne and Megan".
Proof.
  split; [| split; [reflexivity | split]].
  - intros earlier later event date Hdate Hne Hskip Hwords Hlater.
    pose proof (last_entry_recorded earlier later event date Hdate Hne Hskip Hwords Hlater)
      as H.
    split; [exact H |]. intros Heq. now rewrite Heq in H.
  - apply single_event_no_entry. reflexivity.
  - apply (last_entry_recorded [] []
             (Sample.all_day_event "h5"
                (Latin1.text Latin1.no_break_space +:+ "Anne and Megan"
                 +:+ Latin1.text Latin1.no_break_space) "2025-06-10") "2025-06-10").
    + reflexivity.
    + vm_compute. discriminate.
    + reflexivity.
    + vm_compute. lia.
    + intros e [].
Qed.

(** Three all-day events on one date: the second is the last that
    contributes an entry. *)
Lemma helper_schedule_last_wins_witness :
  extract_helper_info_from_events
    [Sample.all_day_event "h0" "Anne" "2025-06-10";
     Sample.all_day_event "h1" "Rorick SOLO" "2025-06-10";
     Sample.all_day_event "h2" "Office admin" "2025-06-10";
     Sample.timed_event "e1" "Thomas" "2025-06-10T09:00:00Z"] !! "2025-06-10"
  = Some "Rorick SOLO".
Proof.
  apply (proj1 helper_schedule_last_wins
           [Sample.all_day_event "h0" "Anne" "2025-06-10"]
           [Sample.all_day_event "h2" "Office admin" "2025-06-10";
            Sample.timed_event "e1" "Thomas" "2025-06-10T09:00:00Z"]
           (Sample.all_day_event "h1" "Rorick SOLO" "2025-06-10") "2025-06-10").
  - reflexivity.
  - discriminate.
  - reflexivity.
  - vm_compute. lia.
  - intros e [<- | [<- | []]] _; reflexivity.
  - reflexivity.
Defined.

(** C8 as stated fails on a title with surrounding whitespace: the all-day
    event titled [" Anne"] meets the three conditions of the claim, and its
    date is mapped to ["Anne"], not to the title verbatim. *)
Lemma helper_schedule_counterexample :
  all_day_date (Sample.all_day_event "h3" " Anne" "2025-06-10") = Some "2025-06-10"
  /\ get_summary (Sample.all_day_event "h3" " Anne" "2025-06-10") = " Anne"
  /\ Str.contains_any skip_keywords (Str.lower " Anne") = false
  /\ length (Str.split " Anne") = 1
  /\ extract_helper_info_from_events [Sample.all_day_event "h3" " Anne" "2025-06-10"]
       !! "2025-06-10" = Some "Anne"
  /\ extract_helper_info_from_events [Sample.all_day_event "h3" " Anne" "2025-06-10"]
       !! "2025-06-10"
     <> Some (get_summary (Sample.all_day_event "h3" " Anne" "2025-06-10")).
Proof.
  assert (H : extract_helper_info_from_events
                [Sample.all_day_event "h3" " Anne" "2025-06-10"] !! "2025-06-10"
              = Some "Anne").
  { apply (last_entry_recorded [] []
             (Sample.all_day_event "h3" " Anne" "2025-06-10") "2025-06-10");
      try reflexivity; try discriminate.
    - vm_compute. lia.
    - intros e []. }
  repeat split; try reflexivity; try exact H.
  rewrite H. discriminate.
Qed.

(** ** NameMapper *)

Lemma span_spec (p : ascii -> bool) (s a b : string) :
  Str.span p s = (a, b) ->
  s = a +:+ b /\ all_chars p a = true
  /\ match b with String c _ => p c = false | EmptyString => True end.
Proof.
  revert a b. induction s as [|c s IH]; intros a b; cbn [Str.span].
  - intros [= <- <-]. auto.
  - destruct (p c) eqn:Hc.
    + destruct (Str.span p s) as [a' b'] eqn:E. intros [= <- <-].
      destruct (IH a' b' eq_refl) as (-> & Ha & Hb).
      cbn [all_chars String.append]. rewrite Hc, Ha. auto.
    + intros [= <- <-]. cbn [all_chars]. rewrite Hc. auto.
Qed.

Lemma span_append (p : ascii -> bool) (a b : string) :
  all_chars p a = true ->
  match b with String c _ => p c = false | EmptyString => True end ->
  Str.span p (a +:+ b) = (a, b).
Proof.
  intros Ha Hb. induction a as [|c a IH]; cbn [String.append].
  - destruct b as [|c b]; [reflexivity |]. cbn [Str.span]. now rewrite Hb.
  - cbn [all_chars] in Ha. apply andb_true_iff in Ha as [Hc Ha].
    cbn [Str.span]. now rewrite Hc, (IH Ha).
Qed.

Lemma at_end_cases (t : string) :
  at_end t = true -> t = EmptyString \/ t = String Char.newline EmptyString.
Proof.
  destruct t as [|c [|d t]]; cbn; auto; [| discriminate].
  intros H. apply Ascii.eqb_eq in H. subst. auto.
Qed.

Lemma take_startswith (p s : string) :
  Str.startswith p s = true -> Str.take (String.length p) s = p.
Proof.
  intros H. apply startswith_spec in H as [t ->].
  induction p as [|c p IH]; cbn; [now destruct t | now rewrite IH].
Qed.

(** A match of the modifier pattern at a position is a trailing modifier
    followed by the end of the text or by a final newline. *)
Lemma modifier_at_sound (s g : string) :
  modifier_at s = Some g ->
  exists t, s = g +:+ t /\ at_end t = true /\ trailing_modifier g.
Proof.
  unfold modifier_at. destruct s as [|c r]; [discriminate |].
  destruct (Char.is_space c) eqn:Hsp.
  - destruct (Str.span Char.is_space (String c r)) as [spaces body] eqn:E.
    destruct (span_spec _ _ _ _ E) as (Hs & Hall & _).
    destruct (_ && _) eqn:Hc; [| discriminate]. intros Hg.
    apply andb_true_iff in Hc as [Hw Hend]. apply orb_true_iff in Hw.
    assert (Hspaces : spaces <> EmptyString).
    { intros ->. cbn [String.append] in Hs. subst body.
      cbn [Str.span] in E. rewrite Hsp in E.
      destruct (Str.span Char.is_space r). discriminate. }
    assert (Hbody : exists word, (word = "SOLO" \/ word = "solo")
                                 /\ Str.startswith word body = true).
    { destruct Hw as [Hw | Hw]; eauto. }
    destruct Hbody as (word & Hword & Hstart).
    assert (Htake : Str.take 4 body = word).
    { destruct Hword as [-> | ->];
        [exact (take_startswith "SOLO" body Hstart)
        | exact (take_startswith "solo" body Hstart)]. }
    assert (Hdrop : body = word +:+ Str.drop 4 body).
    { apply startswith_spec in Hstart as [t Ht]. rewrite Ht.
      destruct Hword as [-> | ->]; reflexivity. }
    assert (g = spaces +:+ word) as -> by (rewrite <- Htake; congruence).
    exists (Str.drop 4 body). split; [| split; [exact Hend |]].
    + rewrite Hs, append_assoc. now rewrite <- Hdrop.
    + left. exists spaces, word. auto.
  - destruct (Ascii.eqb_spec c "?") as [-> | Hq].
    + destruct (at_end r) eqn:Hend; [| discriminate]. intros [= <-].
      exists r. split; [reflexivity |]. split; [exact Hend |]. right. now left.
    + destruct (is_star c) eqn:Hstar; [| discriminate].
      destruct (Str.span is_star (String c r)) as [stars rest] eqn:E.
      destruct (span_spec _ _ _ _ E) as (Hs & Hall & _).
      destruct (at_end rest) eqn:Hend; [| discriminate]. intros [= <-].
      exists rest. split; [exact Hs |]. split; [exact Hend |].
      right. right. split; [| exact Hall].
      intros ->. cbn [Str.span] in E. rewrite Hstar in E.
      destruct (Str.span is_star r). discriminate.
Qed.

Lemma modifier_search_sound (s before g : string) :
  modifier_search s = Some (before, g) ->
  exists t, s = before +:+ g +:+ t /\ at_end t = true /\ trailing_modifier g.
Proof.
  revert before. induction s as [|c s IH]; intros before; cbn [modifier_search].
  - destruct (modifier_at EmptyString) eqn:E; [| discriminate].
    intros [= <- <-]. now apply modifier_at_sound.
  - destruct (modifier_at (String c s)) eqn:E.
    + intros [= <- <-]. now apply modifier_at_sound.
    + destruct (modifier_search s) as [[b g']|]; [| discriminate].
      intros [= <- <-]. destruct (IH b eq_refl) as (t & -> & Ht & Hm).
      exists t. auto.
Qed.

Lemma modifier_search_eq (s : string) :
  modifier_search s
  = match modifier_at s with
    | Some g => Some (EmptyString, g)
    | None =>
        match s with
        | EmptyString => None
        | String c r =>
            match modifier_search r with
            | Some (before, g) => Some (String c before, g)
            | None => None
            end
        end
    end.
Proof. destruct s; reflexivity. Qed.

Lemma all_space_first (c : ascii) (s : string) :
  all_chars Char.is_space (String c s) = true -> Char.is_space c = true.
Proof. cbn. intros H. now apply andb_true_iff in H. Qed.

(** Every trailing modifier standing at the end of the text (or before a
    final newline) is matched by the modifier pattern at its position. *)
Lemma modifier_at_complete (m t : string) :
  trailing_modifier m -> at_end t = true -> exists g, modifier_at (m +:+ t) = Some g.
Proof.
  intros [(spaces & word & -> & Hne & Hall & Hword) | [-> | [Hne Hall]]] Hend.
  - destruct spaces as [|c spaces]; [contradiction |].
    pose proof (all_space_first _ _ Hall) as Hc.
    rewrite append_assoc.
    assert (Hspan : Str.span Char.is_space (String c spaces +:+ word +:+ t)
                    = (String c spaces, word +:+ t)).
    { apply span_append; [exact Hall |]. destruct Hword as [-> | ->]; reflexivity. }
    unfold modifier_at. cbn [String.append]. rewrite Hc.
    cbn [String.append] in Hspan. rewrite Hspan.
    destruct Hword as [-> | ->]; cbn; rewrite Hend; eauto.
  - cbn. rewrite Hend. eauto.
  - destruct m as [|c m]; [contradiction |].
    assert (Hc : c = "*"%char).
    { cbn in Hall. apply andb_true_iff in Hall as [Hc _]. now apply Ascii.eqb_eq in Hc. }
    subst c.
    assert (Hspan : Str.span is_star (String "*" m +:+ t) = (String "*" m, t)).
    { apply span_append; [exact Hall |].
      destruct (at_end_cases t Hend) as [-> | ->]; [exact I | reflexivity]. }
    unfold modifier_at. cbn [String.append] in *.
    change (Char.is_space "*") with false. change (Ascii.eqb "*" "?") with false.
    change (is_star "*") with true. cbv iota. rewrite Hspan, Hend. eauto.
Qed.

Lemma modifier_search_complete (a m t : string) :
  trailing_modifier m -> at_end t = true ->
  modifier_search (a +:+ m +:+ t) <> None.
Proof.
  intros Hm Ht. induction a as [|c a IH]; rewrite modifier_search_eq.
  - destruct (modifier_at_complete m t Hm Ht) as [g Hg].
    cbn [String.append]. now rewrite Hg.
  - destruct (modifier_at _); [discriminate |].
    cbn [String.append]. destruct (modifier_search (a +:+ m +:+ t)) as [[b g]|];
      [discriminate | contradiction].
Qed.

Lemma prefix_match_sound (s prefix rest : string) :
  prefix_match s = Some (prefix, rest) ->
  s = prefix +:+ rest /\ leading_modifier prefix.
Proof.
  unfold prefix_match. destruct s as [|c s]; [discriminate |].
  destruct (Ascii.eqb_spec c "*") as [-> | Hc].
  - change (match Str.span is_star (String "*" s) with
            | (stars, rest0) =>
                let '(spaces, rest1) := Str.span Char.is_space rest0 in
                Some (stars +:+ spaces, rest1)
            end = Some (prefix, rest) ->
            String "*" s = prefix +:+ rest /\ leading_modifier prefix).
    destruct (Str.span is_star (String "*" s)) as [stars r0] eqn:E1.
    destruct (Str.span Char.is_space r0) as [spaces r1] eqn:E2.
    intros [= <- <-].
    destruct (span_spec _ _ _ _ E1) as (Hs & Hstars & _).
    destruct (span_spec _ _ _ _ E2) as (-> & Hspaces & _).
    split; [now rewrite append_assoc |].
    exists stars, spaces. repeat split; auto.
    intros ->. cbn [Str.span] in E1. change (is_star "*") with true in E1.
    destruct (Str.span is_star s). discriminate.
  - destruct c as [[] [] [] [] [] [] [] []]; try discriminate. now contradiction Hc.
Qed.

Lemma prefix_match_none (s : string) :
  prefix_match s = None -> Str.startswith "*" s = false.
Proof.
  destruct s as [|c s]; [reflexivity |].
  destruct (Ascii.eqb_spec c "*") as [-> | Hc].
  - unfold prefix_match.
    destruct (Str.span is_star (String "*" s)) as [stars r0].
    destruct (Str.span Char.is_space r0). discriminate.
  - intros _. cbn [Str.startswith].
    destruct (Ascii.eqb_spec "*" c); [congruence | reflexivity].
Qed.

Lemma mapping_lookup (core_name : string) :
  match dict_get HELPER_NAME_MAPPING core_name with
  | Some formal => formal
  | None => core_name
  end = formal_name core_name.
Proof.
  unfold dict_get, HELPER_NAME_MAPPING, formal_name. cbn [find fst snd].
  destruct (String.eqb "Rorick" core_name); [reflexivity |].
  destruct (String.eqb "rorick" core_name); [reflexivity |].
  destruct (String.eqb "RORICK" core_name); reflexivity.
Qed.

Lemma trailing_modifier_nonempty (m : string) : trailing_modifier m -> m <> EmptyString.
Proof.
  intros [(spaces & word & -> & Hne & _ & _) | [-> | [Hne _]]]; try easy.
  destruct spaces; [contradiction | discriminate].
Qed.

(** The decomposition computed by [map_helper_name]. *)
Lemma map_helper_name_decomposition (helper_name : string) :
  exists prefix middle suffix tail,
    helper_name = prefix +:+ middle +:+ suffix +:+ tail
    /\ (prefix = EmptyString \/ leading_modifier prefix)
    /\ (suffix = EmptyString /\ tail = EmptyString
        \/ trailing_modifier suffix /\ at_end tail = true)
    /\ (suffix = EmptyString ->
        forall a m t, trailing_modifier m -> at_end t = true ->
                      helper_name <> a +:+ m +:+ t)
    /\ (prefix = EmptyString -> Str.startswith "*" middle = false)
    /\ map_helper_name helper_name
       = prefix +:+ formal_name (Str.strip middle) +:+ suffix.
Proof.
  assert (Hgen :
    exists prefix middle suffix tail,
      helper_name = prefix +:+ middle +:+ suffix +:+ tail
      /\ (prefix = EmptyString \/ leading_modifier prefix)
      /\ (suffix = EmptyString /\ tail = EmptyString
          \/ trailing_modifier suffix /\ at_end tail = true)
      /\ (suffix = EmptyString ->
          forall a m t, trailing_modifier m -> at_end t = true ->
                        helper_name <> a +:+ m +:+ t)
      /\ (prefix = EmptyString -> Str.startswith "*" middle = false)
      /\ (let '(name, modifiers) :=
            match modifier_search helper_name with
            | Some (before, g) => (before, g)
            | None => (helper_name, EmptyString)
            end in
          let '(p, name) :=
            match prefix_match name with
            | Some (p, rest) => (p, rest)
            | None => (EmptyString, name)
            end in
          p +:+ match dict_get HELPER_NAME_MAPPING (Str.strip name) with
                | Some formal => formal
                | None => Str.strip name
                end +:+ modifiers)
         = prefix +:+ formal_name (Str.strip middle) +:+ suffix).
  { destruct (modifier_search helper_name) as [[before g]|] eqn:Hsearch.
    - destruct (modifier_search_sound _ _ _ Hsearch) as (tail & Hs & Hend & Hmod).
      pose proof (trailing_modifier_nonempty g Hmod) as Hg.
      destruct (prefix_match before) as [[p rest]|] eqn:Hprefix.
      + destruct (prefix_match_sound _ _ _ Hprefix) as (-> & Hlead).
        exists p, rest, g, tail. rewrite mapping_lookup.
        split; [now rewrite Hs, append_assoc |].
        split; [now right |]. split; [now right |].
        split; [intros ->; congruence |]. split; [| reflexivity].
        intros ->. destruct Hlead as (stars & spaces & Hp & Hne & _).
        destruct stars; [congruence | discriminate].
      + exists EmptyString, before, g, tail. rewrite mapping_lookup.
        split; [exact Hs |]. split; [now left |]. split; [now right |].
        split; [intros ->; congruence |]. split; [| reflexivity].
        intros _. now apply prefix_match_none.
    - assert (Hnone : forall a m t, trailing_modifier m -> at_end t = true ->
                                    helper_name <> a +:+ m +:+ t).
      { intros a m t Hm Ht ->. now apply (modifier_search_complete a m t Hm Ht). }
      destruct (prefix_match helper_name) as [[p rest]|] eqn:Hprefix.
      + destruct (prefix_match_sound _ _ _ Hprefix) as (Hs & Hlead).
        exists p, rest, EmptyString, EmptyString. rewrite mapping_lookup.
        split; [now rewrite Hs, !append_empty_r |].
        split; [now right |]. split; [now left |].
        split; [intros _; exact Hnone |]. split; [| reflexivity].
        intros ->. destruct Hlead as (stars & spaces & Hp & Hne & _).
        destruct stars; [congruence | discriminate].
      + exists EmptyString, helper_name, EmptyString, EmptyString.
        rewrite mapping_lookup.
        split; [cbn [String.append]; now rewrite !append_empty_r |].
        split; [now left |]. split; [now left |].
        split; [intros _; exact Hnone |]. split; [| reflexivity].
        intros _. now apply prefix_match_none. }
  unfold map_helper_name.
  destruct (Str.is_empty helper_name) eqn:Hempty; [| exact Hgen].
  apply is_empty_spec in Hempty. subst helper_name. exact Hgen.
Qed.

(** ** NotesExtractor *)

(** C7.  On the client path the word after the client's name loses a
    leading "maint" even when it is a longer word: the notes of
    "Thomas maintain hedges" for the client Thomas are "ain hedges".  A
    title whose second word is the token "Maint" has that token removed, and
    the embedded and trailing parentheses of its notes are kept.  A client
    name of three words is not consumed at all. *)
Theorem notes_lose_the_prefix_of_a_longer_word :
  extract_notes_from_summary "Thomas maintain hedges" (Some "Thomas") = "ain hedges"
  /\ extract_notes_from_summary "**Thomas Maint - prune (2 hrs) (back)  "
       (Some "Thomas") = "prune (2 hrs) (back)"
  /\ extract_notes_from_summary "Van Der Berg prune" (Some "Van Der Berg")
     = "Van Der Berg prune".
Proof. repeat split. Qed.

(** ** Round trip through the title *)

(** Concatenations of literals and variables are brought to one
    right-nested form. *)
Ltac string_normalize :=
  repeat first [rewrite !append_assoc | progress cbn [String.append]].

Lemma join_cons_cons (sep x y : string) (l : list string) :
  Str.join sep (x :: y :: l) = x +:+ sep +:+ Str.join sep (y :: l).
Proof. reflexivity. Qed.

Lemma join_cons_tail (sep x : string) (l : list string) :
  exists tail, Str.join sep (x :: l) = x +:+ tail.
Proof.
  destruct l as [|y l].
  - exists EmptyString. cbn. now rewrite append_empty_r.
  - eexists. apply join_cons_cons.
Qed.

(** The title of a client event: bracketed label, name, hyphen, work type,
    and whatever follows. *)
Lemma client_title_shape (status_label name work_type : string)
    (helper_info : option string) (notes : string) :
  name <> EmptyString ->
  exists tail,
    create_standardized_title status_label (Some name) work_type helper_info notes
    = ("[" +:+ status_label +:+ "] ") +:+ name +:+ " - " +:+ work_type +:+ tail.
Proof.
  intros Hne. unfold create_standardized_title.
  destruct name as [|c name]; [contradiction |]. cbn [Str.is_empty].
  destruct (join_cons_tail " " work_type (helper_part helper_info ++ notes_part notes))
    as [tail Htail].
  exists tail. cbn [app]. rewrite !join_cons_cons, Htail.
  rewrite !append_assoc. reflexivity.
Qed.

(** Every title contains its work type. *)
Lemma title_contains_work_type (status_label : string) (client_name : option string)
    (work_type : string) (helper_info : option string) (notes : string) :
  exists pre post,
    create_standardized_title status_label client_name work_type helper_info notes
    = String "[" pre +:+ work_type +:+ post.
Proof.
  assert (Hplain : exists pre post,
             Str.join " " (["[" +:+ status_label +:+ "]"; work_type]
                             ++ helper_part helper_info ++ notes_part notes)
             = String "[" pre +:+ work_type +:+ post).
  { destruct (join_cons_tail " " work_type (helper_part helper_info ++ notes_part notes))
      as [tail Htail].
    exists (status_label +:+ "] "), tail. cbn [app]. rewrite join_cons_cons, Htail.
    cbn [String.append]. now rewrite !append_assoc. }
  unfold create_standardized_title.
  destruct client_name as [name|]; [| exact Hplain].
  destruct (Str.is_empty name) eqn:He; [exact Hplain |].
  assert (Hne : name <> EmptyString) by (intros ->; discriminate).
  destruct (client_title_shape status_label name work_type helper_info notes Hne)
    as [tail Htail].
  unfold create_standardized_title in Htail. rewrite He in Htail.
  exists (status_label +:+ "] " +:+ name +:+ " - "), tail.
  rewrite Htail. string_normalize. reflexivity.
Qed.

Lemma has_char_append (c : ascii) (a b : string) :
  Str.has_char c (a +:+ b) = Str.has_char c a || Str.has_char c b.
Proof.
  induction a as [|x a IH]; cbn [String.append Str.has_char]; [reflexivity |].
  now rewrite IH, orb_assoc.
Qed.

Lemma before_char_append (c : ascii) (a r : string) :
  Str.has_char c a = false -> Str.before_char c (a +:+ String c r) = a.
Proof.
  induction a as [|x a IH]; cbn [String.append Str.has_char Str.before_char].
  - now rewrite Ascii.eqb_refl.
  - intros H. apply orb_false_iff in H as [Hx Ha]. now rewrite Hx, IH.
Qed.

Lemma lstrip_head (s : string) (c : ascii) (r : string) :
  Str.lstrip s = String c r -> Char.is_space c = false.
Proof.
  induction s as [|x s IH]; cbn [Str.lstrip]; [discriminate |].
  destruct (Char.is_space x) eqn:Hx; [exact IH |]. now intros [= <- <-].
Qed.

Lemma rstrip_append_space (s : string) : Str.rstrip (s +:+ " ") = Str.rstrip s.
Proof.
  induction s as [|c s IH]; [reflexivity |].
  cbn [String.append Str.rstrip]. now rewrite IH.
Qed.

Lemma strip_append_space (s : string) : Str.strip (s +:+ " ") = Str.strip s.
Proof. unfold Str.strip. now rewrite rstrip_append_space. Qed.

(** The already-processed branch of [extract_client_name] gives back the
    name that [create_standardized_title] wrote, when that name has no
    hyphen and no surrounding whitespace. *)
Lemma status_pattern_client_title (status_label name rest : string) :
  In status_label ["C"; "T"; "P"] ->
  name <> EmptyString -> Str.strip name = name -> Str.has_char "-" name = false ->
  status_pattern (("[" +:+ status_label +:+ "] ") +:+ name +:+ " - " +:+ rest)
  = Some (name +:+ " ").
Proof.
  intros Hl Hne Hstrip Hhyphen.
  assert (Htail : status_tail (" " +:+ name +:+ " - " +:+ rest) = Some (name +:+ " ")).
  { unfold status_tail.
    destruct name as [|c name'] eqn:En; [contradiction |]. rewrite <- En in *.
    assert (Hc : Char.is_space c = false).
    { apply (lstrip_head (Str.rstrip name) c name'). fold (Str.strip name). congruence. }
    assert (Hbody : Str.lstrip (" " +:+ name +:+ " - " +:+ rest)
                    = name +:+ " - " +:+ rest).
    { rewrite En. cbn [String.append Str.lstrip].
      change (Char.is_space " ") with true. cbv iota. now rewrite Hc. }
    rewrite Hbody.
    replace (name +:+ " - " +:+ rest) with ((name +:+ " ") +:+ String "-" (" " +:+ rest))
      by (now rewrite append_assoc).
    rewrite has_char_append. cbn [Str.has_char]. rewrite Ascii.eqb_refl.
    rewrite orb_true_l, orb_true_r.
    rewrite before_char_append.
    - rewrite En. reflexivity.
    - rewrite has_char_append, Hhyphen. reflexivity. }
  simpl in Hl. destruct Hl as [<- | [<- | [<- | []]]];
    cbn [String.append status_pattern status_match];
    cbn [String.append] in Htail; rewrite Htail; reflexivity.
Qed.

Lemma exact_match_first (name : string) (names : list string)
    (clients : dict ClientRecord) (c : ClientRecord) :
  name <> EmptyString -> dict_get clients name = Some c ->
  exact_match (name :: names) clients = Some c.
Proof.
  intros Hne Hget. cbn [exact_match].
  destruct name; [contradiction |]. cbn [Str.is_empty]. now rewrite Hget.
Qed.

Lemma title_not_empty (status_label : string) (client_name : option string)
    (work_type : string) (helper_info : option string) (notes : string) :
  Str.is_empty
    (create_standardized_title status_label client_name work_type helper_info notes)
  = false.
Proof.
  destruct (title_contains_work_type status_label client_name work_type helper_info notes)
    as (pre & post & ->).
  reflexivity.
Qed.

(** The classifier on a bracketed title: nothing is stripped. *)
Lemma determine_work_type_bracket (r : string) :
  determine_work_type (String "[" r)
  = let clean_summary := Str.lower (String "[" r) in
    if design_match clean_summary then "Design"
    else if Str.contains_any office_keywords clean_summary then "Office Work"
    else if Str.contains_any errands_keywords clean_summary then "Errands"
    else if Str.contains_any adhoc_keywords clean_summary then "Ad-hoc"
    else "Maintenance".
Proof. reflexivity. Qed.

Lemma occurs_lower_label (pre work_type post keyword rest : string) :
  Str.lower work_type = keyword +:+ rest ->
  occurs keyword (Str.lower (String "[" (pre +:+ work_type +:+ post))).
Proof.
  intros H. exists (Str.lower (String "[" pre)), (rest +:+ Str.lower post).
  change (String "[" (pre +:+ work_type +:+ post))
    with (String "[" pre +:+ work_type +:+ post).
  rewrite !lower_append, H, !append_assoc. reflexivity.
Qed.

(** C2, amended.  Take a client whose full name is itself its roster key (no
    parenthesised code was stripped from it), is not empty, has no
    surrounding whitespace and contains no hyphen, and a status label among C,
    T and P.  For every work type, helper and notes, [extract_client_name]
    reads that name back from the title written by
    [create_standardized_title] and [find_matching_client] returns the same
    client record.  [determine_work_type] on that title returns the same
    work type when the work type is Design; when it is Office Work or
    Errands and no keyword of a category of higher precedence occurs in the
    title; and when it is Maintenance and no keyword at all occurs in the
    title. *)
Theorem round_trip_through_title :
  forall (clients : dict ClientRecord) (c : ClientRecord)
         (status_label work_type : string) (helper_info : option string)
         (notes : string),
    In status_label ["C"; "T"; "P"] ->
    dict_get clients (full_name c) = Some c ->
    full_name c <> EmptyString ->
    Str.strip (full_name c) = full_name c ->
    Str.has_char "-" (full_name c) = false ->
    let title :=
      create_standardized_title status_label (Some (full_name c)) work_type
        helper_info notes in
    extract_client_name title = Names (full_name c) (full_name c)
    /\ find_matching_client title clients = Some c
    /\ (work_type = "Design" -> determine_work_type title = "Design")
    /\ (work_type = "Office Work" ->
        design_match (Str.lower title) = false ->
        determine_work_type title = "Office Work")
    /\ (work_type = "Errands" ->
        design_match (Str.lower title) = false ->
        Str.contains_any office_keywords (Str.lower title) = false ->
        determine_work_type title = "Errands")
    /\ (work_type = "Maintenance" ->
        design_match (Str.lower title) = false ->
        Str.contains_any office_keywords (Str.lower title) = false ->
        Str.contains_any errands_keywords (Str.lower title) = false ->
        Str.contains_any adhoc_keywords (Str.lower title) = false ->
        determine_work_type title = "Maintenance").
Proof.
  intros clients c status_label work_type helper_info notes Hl Hget Hne Hstrip Hhyphen title.
  assert (Hextract : extract_client_name title = Names (full_name c) (full_name c)).
  { unfold extract_client_name. subst title. rewrite title_not_empty.
    destruct (client_title_shape status_label (full_name c) work_type helper_info notes Hne)
      as [tail ->].
    rewrite status_pattern_client_title by assumption.
    now rewrite strip_append_space, Hstrip. }
  split; [exact Hextract |]. split.
  { unfold find_matching_client. rewrite Hextract. subst title. rewrite title_not_empty.
    now rewrite (exact_match_first _ _ _ _ Hne Hget). }
  destruct (title_contains_work_type status_label (Some (full_name c)) work_type
              helper_info notes) as (pre & post & Htitle).
  fold title in Htitle. cbn [String.append] in Htitle.
  rewrite Htitle, determine_work_type_bracket. cbv zeta.
  split; [| split; [| split]].
  - intros ->.
    assert (H : design_match (Str.lower (String "[" (pre +:+ "Design" +:+ post))) = true).
    { apply design_match_spec. left. now apply (occurs_lower_label _ _ _ _ EmptyString). }
    now rewrite H.
  - intros -> Hd. rewrite Hd.
    assert (H : Str.contains_any office_keywords
                  (Str.lower (String "[" (pre +:+ "Office Work" +:+ post))) = true).
    { apply contains_any_occurs. exists "office". split; [simpl; auto |].
      now apply (occurs_lower_label _ _ _ _ " work"). }
    now rewrite H.
  - intros -> Hd Ho. rewrite Hd, Ho.
    assert (H : Str.contains_any errands_keywords
                  (Str.lower (String "[" (pre +:+ "Errands" +:+ post))) = true).
    { apply contains_any_occurs. exists "errands". split; [simpl; auto |].
      now apply (occurs_lower_label _ _ _ _ EmptyString). }
    now rewrite H.
  - intros -> Hd Ho He Ha. now rewrite Hd, Ho, He, Ha.
Qed.

(** Thomas, whose full name is his roster key, with a Design title. *)
Lemma round_trip_through_title_witness :
  find_matching_client
    (create_standardized_title "P" (Some "Thomas") "Design" (Some "Anne") "front bed")
    Sample.roster = Some Sample.thomas
  /\ determine_work_type
       (create_standardized_title "P" (Some "Thomas") "Design" (Some "Anne") "front bed")
     = "Design".
Proof.
  assert (H := round_trip_through_title Sample.roster Sample.thomas "P" "Design"
                 (Some "Anne") "front bed").
  cbv zeta in H. split.
  - apply H; try reflexivity; [simpl; auto | discriminate].
  - apply H; try reflexivity; [simpl; auto | discriminate].
Defined.

(** C2 as stated fails.  The title written for the work type Ad-hoc holds
    no Ad-hoc keyword: read back, it is classified Maintenance.  And a
    client whose full name carries a parenthesised code, which the roster key
    does not, is not found again from its title. *)
Lemma round_trip_counterexample :
  dict_get Sample.roster "Thomas" = Some Sample.thomas
  /\ create_standardized_title "C" (Some (full_name Sample.thomas)) "Ad-hoc" None EmptyString
     = "[C] Thomas - Ad-hoc"
  /\ find_matching_client "[C] Thomas - Ad-hoc" Sample.roster = Some Sample.thomas
  /\ determine_work_type "[C] Thomas - Ad-hoc" = "Maintenance"
  /\ determine_work_type "[C] Thomas - Ad-hoc" <> "Ad-hoc"
  /\ dict_get Sample.roster "Silver" = Some Sample.silver
  /\ create_standardized_title "C" (Some (full_name Sample.silver)) "Maintenance" None
       EmptyString
     = "[C] Silver (C013) - Maintenance"
  /\ find_matching_client "[C] Silver (C013) - Maintenance" Sample.roster = None.
Proof. repeat split; try reflexivity. discriminate. Qed.

(** * Further properties *)

(** ** The tally of a run *)

Section TallyFacts.

Variable fromisoformat : string -> option datetime.
Variable strptime_date : string -> option datetime.
Variable strftime_date : datetime -> string.
Variable now : datetime.
Variable update_event : list (string * Updates) -> string -> Updates -> bool.
Variable dry_run : bool.
Variable clients : dict ClientRecord.
Variable helper_schedule : gmap string string.
Variable reference_date : datetime.

Abbreviation step force :=
  (process_event fromisoformat strptime_date strftime_date now update_event
     dry_run force clients helper_schedule reference_date).
Abbreviation steps force :=
  (process_events fromisoformat strptime_date strftime_date now update_event
     dry_run force clients helper_schedule reference_date).

(** The counters after one iteration, by the kind of event. *)
Lemma step_counters (force : bool) (st : RunState) (event : Event) :
  let st' := step force st event in
  events_skipped_filtered st' = events_skipped_filtered st
  /\ events_already_processed st'
     = (if titled_timed event && is_already_processed (get_summary event)
        then 1 else 0) + events_already_processed st
  /\ events_to_update st' + events_skipped_no_match st'
     = (if titled_timed event
           && negb (is_already_processed (get_summary event) && negb force)
        then 1 else 0)
       + (events_to_update st + events_skipped_no_match st)
  /\ events_to_update st'
     = (if reaches_update force clients event then 1 else 0) + events_to_update st
  /\ events_updated st' <= (events_updated st) + (events_to_update st' - events_to_update st)
  /\ events_updated st <= events_updated st'
  /\ length (calls st')
     = (if reaches_update force clients event && negb dry_run then 1 else 0)
       + length (calls st).
Proof.
  unfold process_event, reaches_update, titled_timed, should_skip_event.
  set (summary := get_summary event).
  set (no_match := existsb _ _ && negb _).
  destruct (is_all_day event); [cbn; repeat split; lia |].
  destruct (Str.is_empty summary); [cbn; repeat split; lia |].
  destruct (is_already_processed summary), force, no_match, dry_run;
    cbn; rewrite ?length_app; cbn;
    try destruct (update_event _ _ _); cbn; repeat split; lia.
Qed.

Lemma steps_cons (force : bool) (st : RunState) (event : Event) (events : list Event) :
  steps force st (event :: events) = steps force (step force st event) events.
Proof. reflexivity. Qed.

Lemma steps_counters (force : bool) (events : list Event) (st : RunState) :
  let st' := steps force st events in
  events_skipped_filtered st' = events_skipped_filtered st
  /\ events_already_processed st'
     = count_if (fun e => titled_timed e && is_already_processed (get_summary e)) events
       + events_already_processed st
  /\ events_to_update st' + events_skipped_no_match st'
     = count_if (fun e => titled_timed e
                          && negb (is_already_processed (get_summary e) && negb force))
         events
       + (events_to_update st + events_skipped_no_match st)
  /\ events_to_update st'
     = count_if (reaches_update force clients) events + events_to_update st
  /\ events_updated st' <= events_updated st + (events_to_update st' - events_to_update st)
  /\ length (calls st')
     = (if dry_run then 0 else count_if (reaches_update force clients) events)
       + length (calls st).
Proof.
  revert st. induction events as [|event events IH]; intros st; cbv zeta.
  - cbn. destruct dry_run; repeat split; lia.
  - rewrite steps_cons.
    destruct (IH (step force st event)) as (Hf & Hp & Hu & Ht & Hb & Hc).
    destruct (step_counters force st event) as (Hf1 & Hp1 & Hu1 & Ht1 & Hb1 & Hm1 & Hc1).
    unfold count_if in *. cbn [List.filter].
    destruct (titled_timed event && is_already_processed (get_summary event));
      destruct (titled_timed event
                && negb (is_already_processed (get_summary event) && negb force));
      destruct (reaches_update force clients event); destruct dry_run;
      cbn [length negb andb] in *; repeat split; lia.
Qed.

End TallyFacts.

Lemma count_if_split {A : Type} (test part : A -> bool) (l : list A) :
  count_if test l
  = count_if (fun x => test x && part x) l + count_if (fun x => test x && negb (part x)) l.
Proof.
  unfold count_if. induction l as [|x l IH]; [reflexivity |].
  cbn [List.filter]. destruct (test x), (part x); cbn [andb negb length]; lia.
Qed.

Lemma count_if_ext {A : Type} (f g : A -> bool) (l : list A) :
  (forall x, f x = g x) -> count_if f l = count_if g l.
Proof.
  intros H. unfold count_if. induction l as [|x l IH]; [reflexivity |].
  cbn [List.filter]. rewrite H. destruct (g x); cbn [length]; lia.
Qed.

(** X1.  The tally accounts for every timed, titled event.  Without
    [force_reprocess] each such event is counted exactly once, as to
    update, as skipped for lack of a client match, or as already processed.
    With [force_reprocess] each is counted as to update or as skipped for
    lack of a match, and the already-processed counter, which counts the
    same events in both modes, overlaps with these two. *)
Theorem tally_accounts_for_every_event :
  forall fromisoformat strptime_date strftime_date now update_event
         dry_run clients helper_schedule reference_date events,
    let plain :=
      process_events fromisoformat strptime_date strftime_date now update_event
        dry_run false clients helper_schedule reference_date initial_state events in
    let forced :=
      process_events fromisoformat strptime_date strftime_date now update_event
        dry_run true clients helper_schedule reference_date initial_state events in
    events_to_update plain + events_skipped_no_match plain
      + events_already_processed plain
    = count_if titled_timed events
    /\ events_to_update forced + events_skipped_no_match forced
       = count_if titled_timed events
    /\ events_already_processed forced = events_already_processed plain
    /\ events_already_processed plain
       = count_if (fun e => titled_timed e && is_already_processed (get_summary e)) events.
Proof.
  intros fi sp sf now ue dry clients hs ref events.
  destruct (steps_counters fi sp sf now ue dry clients hs ref false events initial_state)
    as (_ & Hp & Hu & _).
  destruct (steps_counters fi sp sf now ue dry clients hs ref true events initial_state)
    as (_ & Hp' & Hu' & _).
  cbv zeta in *. cbn [initial_state events_to_update events_skipped_no_match
                      events_already_processed] in *.
  rewrite (count_if_split titled_timed (fun e => is_already_processed (get_summary e))).
  rewrite (count_if_ext
             (fun e => titled_timed e
                       && negb (is_already_processed (get_summary e) && negb false))
             (fun e => titled_timed e && negb (is_already_processed (get_summary e))))
    in Hu by (intros e; now rewrite andb_true_r).
  rewrite (count_if_ext
             (fun e => titled_timed e
                       && negb (is_already_processed (get_summary e) && negb true))
             titled_timed)
    in Hu' by (intros e; now rewrite andb_false_r, andb_true_r).
  rewrite (count_if_split titled_timed (fun e => is_already_processed (get_summary e)))
    in Hu'.
  repeat split; lia.
Qed.

(** X2.  The counter of filtered events never moves: [should_skip_event]
    only rejects an empty title, and the loop has already passed over
    title-less events when it calls it.  Every run reports 0 filtered
    events. *)
Theorem filtered_counter_never_moves :
  forall fromisoformat strptime_date strftime_date now update_event
         dry_run force_reprocess clients helper_schedule reference_date st events,
    events_skipped_filtered
      (process_events fromisoformat strptime_date strftime_date now update_event
         dry_run force_reprocess clients helper_schedule reference_date st events)
    = events_skipped_filtered st
    /\ match
         enhance_calendar_events fromisoformat strptime_date strftime_date now
           update_event dry_run force_reprocess clients events reference_date
       with
       | Some final => events_skipped_filtered final = 0
       | None => events = []
       end.
Proof.
  intros fi sp sf now ue dry force clients hs ref st events. split.
  - apply (steps_counters fi sp sf now ue dry clients hs ref force events st).
  - unfold enhance_calendar_events. destruct events as [|event events]; [reflexivity |].
    apply (steps_counters fi sp sf now ue dry clients
             (extract_helper_info_from_events (event :: events)) ref force
             (event :: events) initial_state).
Qed.

Lemma map_fst_flat_map {A B : Type} (test : A -> bool) (g : A -> B) (l : list A) :
  map fst (flat_map (fun x => if test x then [(x, g x)] else []) l) = List.filter test l.
Proof.
  induction l as [|x l IH]; [reflexivity |].
  cbn [flat_map List.filter]. rewrite map_app, IH. now destruct (test x).
Qed.

(** X3.  The updates are reported in calendar order, one for each event
    that reaches the report and for no other: the reported events are the
    input events filtered by [reaches_update], the counter of events to
    update is their number, and a live run calls [update_event] that many
    times, a dry run never. *)
Theorem updates_follow_calendar_order :
  forall fromisoformat strptime_date strftime_date now update_event
         dry_run force_reprocess clients helper_schedule reference_date events,
    let final :=
      process_events fromisoformat strptime_date strftime_date now update_event
        dry_run force_reprocess clients helper_schedule reference_date
        initial_state events in
    map fst (emitted final) = List.filter (reaches_update force_reprocess clients) events
    /\ events_to_update final = length (emitted final)
    /\ length (calls final) = (if dry_run then 0 else length (emitted final)).
Proof.
  intros fi sp sf now ue dry force clients hs ref events. cbv zeta.
  assert (He : map fst (emitted (process_events fi sp sf now ue dry force clients hs ref
                                   initial_state events))
               = List.filter (reaches_update force clients) events).
  { rewrite run_emitted. cbn [initial_state emitted app]. apply map_fst_flat_map. }
  destruct (steps_counters fi sp sf now ue dry clients hs ref force events initial_state)
    as (_ & _ & _ & Ht & _ & Hc).
  cbv zeta in *. cbn [initial_state events_to_update calls length] in *.
  assert (Hlen : length (emitted (process_events fi sp sf now ue dry force clients hs ref
                                    initial_state events))
                 = count_if (reaches_update force clients) events).
  { unfold count_if. rewrite <- He. now rewrite length_map. }
  split; [exact He |]. split; [lia |]. destruct dry; lia.
Qed.

Section TransportFacts.

Variable fromisoformat : string -> option datetime.
Variable strptime_date : string -> option datetime.
Variable strftime_date : datetime -> string.
Variable now : datetime.
Variable update_event : list (string * Updates) -> string -> Updates -> bool.
Variable force_reprocess : bool.
Variable clients : dict ClientRecord.
Variable helper_schedule : gmap string string.
Variable reference_date : datetime.

Abbreviation live :=
  (process_events fromisoformat strptime_date strftime_date now update_event
     false force_reprocess clients helper_schedule reference_date).

(** In a live run on a transport with a constant answer, the successful
    updates are all the attempted ones, or none of them. *)
Lemma live_constant_transport (answer : bool) (events : list Event) (st : RunState) :
  (forall history event_id updates, update_event history event_id updates = answer) ->
  events_updated (live st events) - events_updated st
  = (if answer then events_to_update (live st events) - events_to_update st else 0)
  /\ events_updated st <= events_updated (live st events)
  /\ events_to_update st <= events_to_update (live st events).
Proof.
  intros Hconst. revert st. induction events as [|event events IH]; intros st.
  - cbn. destruct answer; lia.
  - change (live st (event :: events))
      with (live (process_event fromisoformat strptime_date strftime_date now
                    update_event false force_reprocess clients helper_schedule
                    reference_date st event) events).
    destruct (IH (process_event fromisoformat strptime_date strftime_date now
                    update_event false force_reprocess clients helper_schedule
                    reference_date st event)) as (Hd & Hm & Ht).
    assert (Hstep :
      let st' := process_event fromisoformat strptime_date strftime_date now
                   update_event false force_reprocess clients helper_schedule
                   reference_date st event in
      events_updated st' - events_updated st
      = (if answer then events_to_update st' - events_to_update st else 0)
      /\ events_updated st <= events_updated st'
      /\ events_to_update st <= events_to_update st').
    { unfold process_event, should_skip_event.
      set (summary := get_summary event).
      set (no_match := existsb _ _ && negb _).
      destruct (is_all_day event); [cbn; destruct answer; lia |].
      destruct (Str.is_empty summary); [cbn; destruct answer; lia |].
      destruct (is_already_processed summary), force_reprocess, no_match;
        cbn; rewrite ?Hconst; destruct answer; cbn; lia. }
    cbv zeta in Hstep. destruct Hstep as (Hd1 & Hm1 & Ht1).
    destruct answer; lia.
Qed.

End TransportFacts.

(** X4.  The successful updates never outnumber the attempted ones, so the
    count of failed events printed by the summary is never negative; a dry
    run records no successful update; and in a live run on a transport that
    always succeeds every attempted update is counted as successful, while
    on a transport that always fails none is. *)
Theorem successful_updates_are_bounded :
  forall fromisoformat strptime_date strftime_date now update_event
         dry_run force_reprocess clients helper_schedule reference_date events,
    let final :=
      process_events fromisoformat strptime_date strftime_date now update_event
        dry_run force_reprocess clients helper_schedule reference_date
        initial_state events in
    events_updated final <= events_to_update final
    /\ (dry_run = true -> events_updated final = 0)
    /\ (dry_run = false ->
        (forall history event_id updates, update_event history event_id updates = true) ->
        events_updated final = events_to_update final)
    /\ (dry_run = false ->
        (forall history event_id updates, update_event history event_id updates = false) ->
        events_updated final = 0).
Proof.
  intros fi sp sf now ue dry force clients hs ref events. cbv zeta.
  destruct (steps_counters fi sp sf now ue dry clients hs ref force events initial_state)
    as (_ & _ & _ & _ & Hb & _).
  cbv zeta in Hb. cbn [initial_state events_updated events_to_update] in Hb.
  split; [lia |]. split; [| split].
  - intros ->.
    destruct (run_same_decisions fi sp sf now ue force clients hs ref events
                initial_state initial_state) as (_ & _ & Hu & _);
      [repeat split | reflexivity |]. exact Hu.
  - intros -> Hok.
    destruct (live_constant_transport fi sp sf now ue force clients hs ref true events
                initial_state Hok) as (Hd & _ & _).
    cbn [initial_state events_updated events_to_update] in Hd. lia.
  - intros -> Hfail.
    destruct (live_constant_transport fi sp sf now ue force clients hs ref false events
                initial_state Hfail) as (Hd & _ & _).
    cbn [initial_state events_updated events_to_update] in Hd. lia.
Qed.

(** The sample calendar on a transport that always succeeds. *)
Lemma successful_updates_are_bounded_witness :
  exists final,
    Sample.enhance false false Sample.calendar = Some final
    /\ events_updated final = events_to_update final
    /\ events_to_update final = 3.
Proof.
  eexists. split; [reflexivity |]. split.
  - apply (successful_updates_are_bounded IsoDate.fromisoformat IsoDate.strptime_date
             IsoDate.strftime_date Sample.clock Sample.always_ok false false
             Sample.roster (extract_helper_info_from_events Sample.calendar)
             Sample.clock Sample.calendar).
    + reflexivity.
    + reflexivity.
  - vm_compute. reflexivity.
Defined.

(** ** The content of a reported update *)

Lemma in_flat_map_if {A B : Type} (test : A -> bool) (g : A -> B) (l : list A)
    (x : A) (y : B) :
  In (x, y) (flat_map (fun a => if test a then [(a, g a)] else []) l)
  -> In x l /\ test x = true /\ y = g x.
Proof.
  induction l as [|a l IH]; [intros [] |].
  cbn [flat_map]. intros H. apply in_app_or in H as [H | H].
  - destruct (test a) eqn:Ha; [| destruct H].
    destruct H as [[= <- <-] | []]. repeat split; [now left | exact Ha].
  - destruct (IH H) as (Hin & Ht & Hy). repeat split; [now right | exact Ht | exact Hy].
Qed.

Lemma work_type_is_listed (summary : string) :
  In (determine_work_type summary)
    ["Design"; "Office Work"; "Errands"; "Ad-hoc"; "Maintenance"].
Proof. destruct (determine_work_type_classified summary); simpl; auto 10. Qed.

Lemma color_is_listed (summary : string) :
  In (get_color_for_work_type (determine_work_type summary)) ["10"; "4"; "3"; "8"; "6"].
Proof.
  destruct (work_type_is_listed summary) as [<- | [<- | [<- | [<- | [<- | []]]]]];
    simpl; auto 10.
Qed.

(** X5.  Every update that a run reports belongs to a timed, titled event
    of the calendar; its colour is the colour of the work type that the
    classifier gives the title, one of the five listed colours; its location
    is the matched client's address, and is absent when no client is
    matched; and when the work type is Maintenance, Ad-hoc or Design a client
    was matched, so the location is always set for client work. *)
Theorem reported_update_content :
  forall fromisoformat strptime_date strftime_date now update_event
         dry_run force_reprocess clients helper_schedule reference_date events
         event updates,
    In (event, updates)
       (emitted
          (process_events fromisoformat strptime_date strftime_date now update_event
             dry_run force_reprocess clients helper_schedule reference_date
             initial_state events)) ->
    In event events
    /\ is_all_day event = false
    /\ get_summary event <> EmptyString
    /\ upd_colorId updates
       = get_color_for_work_type (determine_work_type (get_summary event))
    /\ In (upd_colorId updates) ["10"; "4"; "3"; "8"; "6"]
    /\ upd_location updates
       = match find_matching_client (get_summary event) clients with
         | Some client => Some (address client)
         | None => None
         end
    /\ (In (determine_work_type (get_summary event)) ["Maintenance"; "Ad-hoc"; "Design"] ->
        exists client,
          find_matching_client (get_summary event) clients = Some client
          /\ upd_location updates = Some (address client)).
Proof.
  intros fi sp sf now ue dry force clients hs ref events event updates Hin.
  rewrite run_emitted in Hin. cbn [initial_state emitted app] in Hin.
  apply in_flat_map_if in Hin as (Hev & Hr & ->).
  assert (Hcolor : upd_colorId
                     (build_updates fi sp sf now hs ref event (get_summary event)
                        (determine_work_type (get_summary event))
                        (find_matching_client (get_summary event) clients))
                   = get_color_for_work_type (determine_work_type (get_summary event))).
  { unfold build_updates. destruct (determine_status _ _ _).
    now destruct (find_matching_client _ _). }
  assert (Hloc : upd_location
                   (build_updates fi sp sf now hs ref event (get_summary event)
                      (determine_work_type (get_summary event))
                      (find_matching_client (get_summary event) clients))
                 = match find_matching_client (get_summary event) clients with
                   | Some client => Some (address client)
                   | None => None
                   end).
  { unfold build_updates. destruct (determine_status _ _ _).
    now destruct (find_matching_client _ _). }
  unfold reaches_update in Hr.
  apply andb_true_iff in Hr as [Hr Hmatch]. apply andb_true_iff in Hr as [Hr _].
  apply andb_true_iff in Hr as [Hday Hempty].
  apply negb_true_iff in Hday, Hempty, Hmatch.
  split; [exact Hev |]. split; [exact Hday |].
  split; [intros He; rewrite He in Hempty; discriminate |].
  split; [exact Hcolor |]. split; [rewrite Hcolor; apply color_is_listed |].
  split; [exact Hloc |].
  intros Hclient. rewrite Hloc.
  assert (Hex : existsb (String.eqb (determine_work_type (get_summary event)))
                  ["Maintenance"; "Ad-hoc"; "Design"] = true).
  { apply existsb_exists. eexists. split; [exact Hclient |]. apply String.eqb_refl. }
  rewrite Hex in Hmatch. cbn [andb] in Hmatch. apply negb_false_iff in Hmatch.
  destruct (find_matching_client (get_summary event) clients) as [client|];
    [| discriminate].
  exists client. auto.
Qed.

(** The update of the event [e1] of the sample calendar. *)
Lemma reported_update_content_witness :
  exists final updates,
    Sample.enhance false false Sample.calendar = Some final
    /\ hd_error (emitted final)
       = Some (Sample.timed_event "e1" "**Thomas BOXWOODS + prune"
                 "2025-06-10T09:00:00-07:00", updates)
    /\ upd_colorId updates = "10"
    /\ upd_location updates = Some "12 Elm St".
Proof.
  eexists. eexists. split; [reflexivity |]. split; [vm_compute; reflexivity |].
  match goal with
  | |- upd_colorId ?u = _ /\ _ =>
      destruct (reported_update_content IsoDate.fromisoformat IsoDate.strptime_date
                  IsoDate.strftime_date Sample.clock Sample.always_ok false false
                  Sample.roster (extract_helper_info_from_events Sample.calendar)
                  Sample.clock Sample.calendar
                  (Sample.timed_event "e1" "**Thomas BOXWOODS + prune"
                     "2025-06-10T09:00:00-07:00") u)
        as (_ & _ & _ & Hc & _ & Hl & _)
  end.
  - vm_compute. left. reflexivity.
  - rewrite Hc, Hl. split; reflexivity.
Defined.

(** ** What [force_reprocess] changes *)

Lemma filter_flat_map_if {A B : Type} (test : A -> bool) (g : A -> B)
    (keep : A * B -> bool) (l : list A) :
  List.filter keep (flat_map (fun a => if test a then [(a, g a)] else []) l)
  = flat_map (fun a => if test a && keep (a, g a) then [(a, g a)] else []) l.
Proof.
  induction l as [|a l IH]; [reflexivity |].
  cbn [flat_map]. rewrite List.filter_app, IH.
  destruct (test a); cbn [List.filter andb app]; [| reflexivity].
  destruct (keep (a, g a)); reflexivity.
Qed.

Lemma flat_map_if_ext {A B : Type} (f f' : A -> bool) (g : A -> B) (l : list A) :
  (forall a, f a = f' a) ->
  flat_map (fun a => if f a then [(a, g a)] else []) l
  = flat_map (fun a => if f' a then [(a, g a)] else []) l.
Proof.
  intros H. induction l as [|a l IH]; [reflexivity |].
  cbn [flat_map]. now rewrite H, IH.
Qed.

Lemma count_if_le {A : Type} (f g : A -> bool) (l : list A) :
  (forall x, f x = true -> g x = true) -> count_if f l <= count_if g l.
Proof.
  intros H. unfold count_if. induction l as [|x l IH]; [reflexivity |].
  cbn [List.filter]. specialize (H x).
  destruct (f x); [rewrite H by reflexivity |]; [| destruct (g x)]; cbn [length]; lia.
Qed.

Lemma reaches_update_plain (clients : dict ClientRecord) (event : Event) :
  reaches_update false clients event
  = reaches_update true clients event && negb (is_already_processed (get_summary event)).
Proof.
  unfold reaches_update.
  destruct (negb (is_all_day event)); [| reflexivity].
  destruct (negb (Str.is_empty (get_summary event))); [| reflexivity].
  destruct (is_already_processed (get_summary event)); cbn [negb andb].
  - now rewrite andb_false_r.
  - now rewrite andb_true_r.
Qed.

(** X6.  [force_reprocess] only adds work: the updates of a run without it
    are those of the forced run on the same inputs, in the same order and
    with the same content, minus the updates of the events whose title is
    already processed; so the forced run reports at least as many updates
    and skips at least as many events for lack of a client match. *)
Theorem force_reprocess_only_adds :
  forall fromisoformat strptime_date strftime_date now update_event
         dry_run clients helper_schedule reference_date events,
    let plain :=
      process_events fromisoformat strptime_date strftime_date now update_event
        dry_run false clients helper_schedule reference_date initial_state events in
    let forced :=
      process_events fromisoformat strptime_date strftime_date now update_event
        dry_run true clients helper_schedule reference_date initial_state events in
    emitted plain
    = List.filter (fun eu => negb (is_already_processed (get_summary (fst eu))))
        (emitted forced)
    /\ events_to_update plain <= events_to_update forced
    /\ events_skipped_no_match plain <= events_skipped_no_match forced.
Proof.
  intros fi sp sf now ue dry clients hs ref events. cbv zeta.
  split.
  - rewrite !run_emitted. cbn [initial_state emitted app].
    rewrite filter_flat_map_if. apply flat_map_if_ext.
    intros event. cbn [fst]. apply reaches_update_plain.
  - destruct (steps_counters fi sp sf now ue dry clients hs ref false events initial_state)
      as (_ & _ & Hu & Ht & _).
    destruct (steps_counters fi sp sf now ue dry clients hs ref true events initial_state)
      as (_ & _ & Hu' & Ht' & _).
    cbv zeta in *.
    cbn [initial_state events_to_update events_skipped_no_match] in *.
    set (processed := fun e : Event => is_already_processed (get_summary e)).
    pose proof (count_if_split (reaches_update true clients) processed events) as Hsplit.
    pose proof (count_if_ext (reaches_update false clients)
                  (fun e => reaches_update true clients e && negb (processed e)) events
                  (reaches_update_plain clients)) as Hplain.
    pose proof (count_if_split titled_timed processed events) as Htt.
    pose proof (count_if_ext
                  (fun e => titled_timed e
                            && negb (is_already_processed (get_summary e) && negb false))
                  (fun e => titled_timed e && negb (processed e)) events) as Hp.
    rewrite Hp in Hu by (intros e; unfold processed; now rewrite andb_true_r).
    pose proof (count_if_ext
                  (fun e => titled_timed e
                            && negb (is_already_processed (get_summary e) && negb true))
                  titled_timed events) as Hf.
    rewrite Hf in Hu' by (intros e; now rewrite andb_false_r, andb_true_r).
    assert (Hle : count_if (fun e => reaches_update true clients e && processed e) events
                  <= count_if (fun e => titled_timed e && processed e) events).
    { apply count_if_le. intros e He. apply andb_true_iff in He as [Hr Hpr].
      rewrite Hpr, andb_true_r. unfold reaches_update in Hr. unfold titled_timed.
      destruct (negb (is_all_day e)); [| discriminate].
      destruct (negb (Str.is_empty (get_summary e))); [reflexivity | discriminate]. }
    split; lia.
Qed.

(** ** Titles that carry a bracketed tag *)

Lemma bracket_closes_spec (r : string) :
  bracket_closes r = true
  <-> exists tag rest,
        r = tag +:+ String "]" rest /\ Str.has_char Char.newline tag = false.
Proof.
  split.
  - induction r as [|c r IH]; cbn [bracket_closes]; [discriminate |].
    destruct (Ascii.eqb_spec c "]") as [-> | Hc].
    + intros _. exists EmptyString, r. split; reflexivity.
    + destruct (Ascii.eqb c Char.newline) eqn:Hn; [discriminate |].
      intros H. destruct (IH H) as (tag & rest & -> & Htag).
      exists (String c tag), rest. split; [reflexivity |].
      cbn [Str.has_char]. now rewrite Hn, Htag.
  - intros (tag & rest & -> & Htag). revert Htag.
    induction tag as [|c tag IH]; cbn [String.append bracket_closes Str.has_char].
    + now rewrite Ascii.eqb_refl.
    + intros H. apply orb_false_iff in H as [Hn Htag].
      destruct (Ascii.eqb c "]"); [reflexivity |]. rewrite Hn. now apply IH.
Qed.

Lemma is_already_processed_spec (summary : string) :
  is_already_processed summary = true
  <-> exists tag rest,
        summary = String "[" (tag +:+ String "]" rest)
        /\ Str.has_char Char.newline tag = false.
Proof.
  split.
  - intros H. pose proof (is_already_processed_bracket summary H) as Hb.
    apply startswith_spec in Hb as [r ->]. cbn [String.append] in H |- *.
    cbn [is_already_processed] in H. apply bracket_closes_spec in H.
    destruct H as (tag & rest & -> & Htag). now exists tag, rest.
  - intros (tag & rest & -> & Htag). cbn [is_already_processed].
    apply bracket_closes_spec. now exists tag, rest.
Qed.

(** X7.  A title counts as already processed exactly when it opens with a
    bracketed tag closed on its first line, whatever the tag: a status label
    or any other text.  A run without [force_reprocess] therefore never
    rewrites an event whose title begins with a tag of the user's own, such
    as ["[URGENT] fix fence"]. *)
Theorem bracketed_tag_is_left_alone :
  forall summary : string,
    (is_already_processed summary = true
     <-> exists tag rest,
           summary = String "[" (tag +:+ String "]" rest)
           /\ Str.has_char Char.newline tag = false)
    /\ forall fromisoformat strptime_date strftime_date now update_event
              dry_run clients helper_schedule reference_date events event updates,
         is_already_processed summary = true ->
         get_summary event = summary ->
         ~ In (event, updates)
             (emitted
                (process_events fromisoformat strptime_date strftime_date now
                   update_event dry_run false clients helper_schedule reference_date
                   initial_state events)).
Proof.
  intros summary. split; [apply is_already_processed_spec |].
  intros fi sp sf now ue dry clients hs ref events event updates Hp Hs Hin.
  rewrite run_emitted in Hin. cbn [initial_state emitted app] in Hin.
  apply in_flat_map_if in Hin as (_ & Hr & _).
  rewrite reaches_update_plain, Hs, Hp in Hr. cbn [negb] in Hr.
  now rewrite andb_false_r in Hr.
Qed.

(** A calendar with one event tagged by hand: nothing is reported. *)
Lemma bracketed_tag_is_left_alone_witness :
  is_already_processed "[URGENT] fix fence" = true
  /\ forall updates,
       ~ In (Sample.timed_event "e9" "[URGENT] fix fence" "2025-06-10T09:00:00Z", updates)
           (emitted
              (process_events IsoDate.fromisoformat IsoDate.strptime_date
                 IsoDate.strftime_date Sample.clock Sample.always_ok false false
                 Sample.roster ∅ Sample.clock initial_state
                 [Sample.timed_event "e9" "[URGENT] fix fence" "2025-06-10T09:00:00Z"])).
Proof.
  split; [reflexivity |].
  intros updates.
  apply (proj2 (bracketed_tag_is_left_alone "[URGENT] fix fence")
           IsoDate.fromisoformat IsoDate.strptime_date IsoDate.strftime_date
           Sample.clock Sample.always_ok false Sample.roster ∅ Sample.clock
           [Sample.timed_event "e9" "[URGENT] fix fence" "2025-06-10T09:00:00Z"]
           (Sample.timed_event "e9" "[URGENT] fix fence" "2025-06-10T09:00:00Z")
           updates); reflexivity.
Defined.

(** ** Where the entries of the helper schedule come from *)

Lemma schedule_entry_origin (events : list Event) (helper_schedule : gmap string string)
    (date title : string) :
  fold_left record_helper events helper_schedule !! date = Some title ->
  helper_schedule !! date = Some title
  \/ exists event, In event events /\ helper_entry event = Some (date, title).
Proof.
  revert helper_schedule.
  induction events as [|event events IH]; intros m; cbn [fold_left]; [now left |].
  intros H. destruct (IH _ H) as [Hm | (e & Hin & He)].
  - rewrite record_helper_entry in Hm.
    destruct (helper_entry event) as [[d t]|] eqn:He; [| now left].
    destruct (decide (d = date)) as [-> | Hne].
    + rewrite lookup_insert_eq in Hm. injection Hm as ->.
      right. exists event. split; [now left | exact He].
    + rewrite lookup_insert_ne in Hm by exact Hne. now left.
  - right. exists e. split; [now right | exact He].
Qed.

Lemma helper_entry_inv (event : Event) (date title : string) :
  helper_entry event = Some (date, title) ->
  all_day_date event = Some date
  /\ title = Str.strip (get_summary event)
  /\ title <> EmptyString
  /\ Str.contains_any skip_keywords (Str.lower title) = false
  /\ length (Str.split title) <= 3.
Proof.
  unfold helper_entry. destruct (all_day_date event) as [d|]; [| discriminate].
  destruct (Str.is_empty (Str.strip (get_summary event))) eqn:He; [discriminate |].
  destruct (Str.contains_any _ _) eqn:Hk; [discriminate |].
  destruct (Nat.leb _ 3) eqn:Hw; [| discriminate].
  cbn [negb andb]. intros [= <- <-]. apply Nat.leb_le in Hw.
  repeat split; auto. intros Hempty. rewrite Hempty in He. discriminate.
Qed.

Lemma record_helper_timed (helper_schedule : gmap string string) (event : Event) :
  is_all_day event = false -> record_helper helper_schedule event = helper_schedule.
Proof.
  unfold is_all_day, record_helper. now destruct (all_day_date event).
Qed.

(** X8.  Every entry of the helper schedule comes from an event of the
    calendar: an all-day event on that date whose stripped title is the
    recorded helper, is not empty, holds no skip keyword and has at most
    three words.  A date without all-day event has no entry, and the timed
    events play no part: the schedule of a calendar is the schedule of its
    all-day events.  The stripping is that of [str.strip]: of an all-day
    event titled Anne between two no-break spaces the entry is Anne, and of
    one titled Anne after a next-line character likewise. *)
Theorem helper_schedule_sound :
  (forall (events : list Event) (date : string),
      (forall title,
          extract_helper_info_from_events events !! date = Some title ->
          exists event,
            In event events
            /\ all_day_date event = Some date
            /\ title = Str.strip (get_summary event)
            /\ title <> EmptyString
            /\ Str.contains_any skip_keywords (Str.lower title) = false
            /\ length (Str.split title) <= 3)
      /\ ((forall event, In event events -> all_day_date event <> Some date) ->
          extract_helper_info_from_events events !! date = None)
      /\ extract_helper_info_from_events (List.filter is_all_day events)
         = extract_helper_info_from_events events)
  /\ extract_helper_info_from_events
       [Sample.all_day_event "h6"
          (Latin1.text Latin1.no_break_space +:+ "Anne"
           +:+ Latin1.text Latin1.no_break_space) "2025-06-10"]
       !! "2025-06-10" = Some "Anne"
  /\ extract_helper_info_from_events
       [Sample.all_day_event "h7"
          (Latin1.text Latin1.next_line +:+ "Anne") "2025-06-10"]
       !! "2025-06-10" = Some "Anne".
Proof.
  split; [| split].
  - intros events date.
    assert (Hsound : forall title,
               extract_helper_info_from_events events !! date = Some title ->
               exists event,
                 In event events
                 /\ all_day_date event = Some date
                 /\ title = Str.strip (get_summary event)
                 /\ title <> EmptyString
                 /\ Str.contains_any skip_keywords (Str.lower title) = false
                 /\ length (Str.split title) <= 3).
    { intros title H. apply schedule_entry_origin in H as [H | (event & Hin & He)].
      - rewrite lookup_empty in H. discriminate.
      - exists event. split; [exact Hin |]. now apply helper_entry_inv. }
    split; [exact Hsound |]. split.
    + intros Hnone.
      destruct (extract_helper_info_from_events events !! date) as [title|] eqn:H;
        [| reflexivity].
      destruct (Hsound title eq_refl) as (event & Hin & Hd & _).
      now destruct (Hnone event Hin).
    + clear Hsound. unfold extract_helper_info_from_events.
      generalize (∅ : gmap string string).
      induction events as [|event events IH]; intros m; [reflexivity |].
      cbn [List.filter fold_left]. destruct (is_all_day event) eqn:Hday.
      * cbn [fold_left]. apply IH.
      * rewrite record_helper_timed by exact Hday. apply IH.
  - apply (last_entry_recorded [] []
             (Sample.all_day_event "h6"
                (Latin1.text Latin1.no_break_space +:+ "Anne"
                 +:+ Latin1.text Latin1.no_break_space) "2025-06-10") "2025-06-10").
    + reflexivity.
    + vm_compute. discriminate.
    + reflexivity.
    + vm_compute. lia.
    + intros e [].
  - apply (last_entry_recorded [] []
             (Sample.all_day_event "h7"
                (Latin1.text Latin1.next_line +:+ "Anne") "2025-06-10") "2025-06-10").
    + reflexivity.
    + vm_compute. discriminate.
    + reflexivity.
    + vm_compute. lia.
    + intros e [].
Qed.

(** In the sample calendar the entry of 10 June is the all-day event of
    that day, and 11 June, without all-day event, has no entry. *)
Lemma helper_schedule_sound_witness :
  (exists event,
      In event Sample.calendar
      /\ all_day_date event = Some "2025-06-10"
      /\ "Rorick SOLO" = Str.strip (get_summary event)
      /\ "Rorick SOLO" <> EmptyString
      /\ Str.contains_any skip_keywords (Str.lower "Rorick SOLO") = false
      /\ length (Str.split "Rorick SOLO") <= 3)
  /\ extract_helper_info_from_events Sample.calendar !! "2025-06-11" = None.
Proof.
  split.
  - apply (proj1 (proj1 helper_schedule_sound Sample.calendar "2025-06-10")
             "Rorick SOLO").
    apply (last_entry_recorded []
             (tl Sample.calendar)
             (Sample.all_day_event "h1" "Rorick SOLO" "2025-06-10") "2025-06-10").
    + reflexivity.
    + vm_compute. discriminate.
    + reflexivity.
    + vm_compute. lia.
    + intros e Hin Hday. vm_compute in Hin.
      repeat (destruct Hin as [<- | Hin]; [discriminate |]). destruct Hin.
  - apply (proj1 (proj2 (proj1 helper_schedule_sound Sample.calendar "2025-06-11"))).
    intros event Hin. vm_compute in Hin.
    repeat (destruct Hin as [<- | Hin]; [discriminate |]). destruct Hin.
Defined.

(** ** What the star markers change *)

Lemma count_stars_cons (c : ascii) (r : string) :
  count_stars_in_summary (String c r)
  = if is_star c then S (count_stars_in_summary r) else 0.
Proof. destruct c as [[] [] [] [] [] [] [] []]; reflexivity. Qed.

Lemma drop_stars_cons (c : ascii) (r : string) :
  drop_stars (String c r) = if is_star c then drop_stars r else String c r.
Proof. destruct c as [[] [] [] [] [] [] [] []]; reflexivity. Qed.

Lemma strip_stars_cons (c : ascii) (r : string) :
  strip_stars (String c r)
  = if is_star c then Str.lstrip (drop_stars r) else String c r.
Proof. destruct c as [[] [] [] [] [] [] [] []]; reflexivity. Qed.

Lemma status_pattern_cons (c : ascii) (r : string) :
  status_pattern (String c r) = if Ascii.eqb c "[" then status_match r else None.
Proof. destruct c as [[] [] [] [] [] [] [] []]; reflexivity. Qed.

Lemma is_already_processed_cons (c : ascii) (r : string) :
  is_already_processed (String c r) = if Ascii.eqb c "[" then bracket_closes r else false.
Proof. destruct c as [[] [] [] [] [] [] [] []]; reflexivity. Qed.

Lemma space_is_no_star (c : ascii) : Char.is_space c = true -> is_star c = false.
Proof. destruct c as [[] [] [] [] [] [] [] []]; intros H; try reflexivity; discriminate. Qed.

Lemma star_is_no_bracket (c : ascii) : is_star c = true -> Ascii.eqb c "[" = false.
Proof. destruct c as [[] [] [] [] [] [] [] []]; intros H; try reflexivity; discriminate. Qed.

Lemma count_stars_run (stars rest : string) :
  all_chars is_star stars = true ->
  count_stars_in_summary (stars +:+ rest)
  = String.length stars + count_stars_in_summary rest.
Proof.
  induction stars as [|c stars IH]; cbn [all_chars String.append String.length];
    [reflexivity |].
  intros H. apply andb_true_iff in H as [Hc Hs].
  rewrite count_stars_cons, Hc, IH by exact Hs. reflexivity.
Qed.

Lemma drop_stars_run (stars rest : string) :
  all_chars is_star stars = true -> drop_stars (stars +:+ rest) = drop_stars rest.
Proof.
  induction stars as [|c stars IH]; cbn [all_chars String.append]; [reflexivity |].
  intros H. apply andb_true_iff in H as [Hc Hs].
  rewrite drop_stars_cons, Hc. now apply IH.
Qed.

Lemma lstrip_run (spaces rest : string) :
  all_chars Char.is_space spaces = true ->
  Str.lstrip (spaces +:+ rest) = Str.lstrip rest.
Proof.
  induction spaces as [|c spaces IH]; cbn [all_chars String.append]; [reflexivity |].
  intros H. apply andb_true_iff in H as [Hc Hs].
  cbn [Str.lstrip]. rewrite Hc. now apply IH.
Qed.

(** The text left of a marked title is the unmarked title. *)
Lemma strip_stars_marked (stars spaces : string) (c : ascii) (r : string) :
  stars <> EmptyString -> all_chars is_star stars = true ->
  all_chars Char.is_space spaces = true ->
  is_star c = false -> Char.is_space c = false ->
  strip_stars (stars +:+ spaces +:+ String c r) = String c r.
Proof.
  intros Hne Hstars Hspaces Hc Hsp.
  destruct stars as [|x stars]; [contradiction |].
  cbn [all_chars] in Hstars. apply andb_true_iff in Hstars as [Hx Hstars].
  cbn [String.append]. rewrite strip_stars_cons, Hx.
  rewrite drop_stars_run by exact Hstars.
  assert (Hd : drop_stars (spaces +:+ String c r) = spaces +:+ String c r).
  { destruct spaces as [|y spaces]; cbn [String.append].
    - now rewrite drop_stars_cons, Hc.
    - cbn [all_chars] in Hspaces. apply andb_true_iff in Hspaces as [Hy _].
      now rewrite drop_stars_cons, (space_is_no_star y Hy). }
  rewrite Hd, lstrip_run by exact Hspaces.
  cbn [Str.lstrip]. now rewrite Hsp.
Qed.

(** X9.  The star markers only change the status.  Put a run of asterisks,
    with or without whitespace after it, in front of a title that begins
    with a character other than an asterisk, whitespace or an opening
    bracket: the work type, the candidate client names, the matched client
    and the notes are those of the unmarked title, the star count is the
    number of asterisks, and the colour, location and description of the
    update are unchanged. *)
Theorem stars_only_change_the_status :
  forall (stars spaces : string) (c : ascii) (r : string),
    stars <> EmptyString -> all_chars is_star stars = true ->
    all_chars Char.is_space spaces = true ->
    is_star c = false -> Char.is_space c = false -> Ascii.eqb c "[" = false ->
    let plain := String c r in
    let marked := stars +:+ spaces +:+ plain in
    count_stars_in_summary marked = String.length stars
    /\ count_stars_in_summary plain = 0
    /\ is_already_processed marked = false
    /\ determine_work_type marked = determine_work_type plain
    /\ extract_client_name marked = extract_client_name plain
    /\ (forall clients,
           find_matching_client marked clients = find_matching_client plain clients)
    /\ (forall client_name,
           extract_notes_from_summary marked client_name
           = extract_notes_from_summary plain client_name)
    /\ (forall fromisoformat strptime_date strftime_date now helper_schedule
               reference_date event clients,
           let updates summary :=
             build_updates fromisoformat strptime_date strftime_date now
               helper_schedule reference_date event summary
               (determine_work_type summary) (find_matching_client summary clients) in
           upd_colorId (updates marked) = upd_colorId (updates plain)
           /\ upd_location (updates marked) = upd_location (updates plain)
           /\ upd_description (updates marked) = upd_description (updates plain)).
Proof.
  intros stars spaces c r Hne Hstars Hspaces Hc Hsp Hbr plain marked.
  assert (Hclean : strip_stars marked = plain)
    by (now apply strip_stars_marked).
  assert (Hplain : strip_stars plain = plain)
    by (unfold plain; now rewrite strip_stars_cons, Hc).
  assert (Hm : exists stars', marked = String "*" stars').
  { unfold marked. destruct stars as [|x stars]; [contradiction |].
    cbn [all_chars] in Hstars. apply andb_true_iff in Hstars as [Hx _].
    apply Ascii.eqb_eq in Hx as ->. cbn [String.append]. eauto. }
  destruct Hm as [tail Hm].
  assert (Hcount : count_stars_in_summary marked = String.length stars).
  { unfold marked. rewrite count_stars_run by exact Hstars.
    destruct spaces as [|y spaces]; cbn [String.append].
    - unfold plain. rewrite count_stars_cons, Hc. lia.
    - cbn [all_chars] in Hspaces. apply andb_true_iff in Hspaces as [Hy _].
      rewrite count_stars_cons, (space_is_no_star y Hy). lia. }
  assert (Hem : Str.is_empty marked = false) by (now rewrite Hm).
  assert (Hep : Str.is_empty plain = false) by reflexivity.
  assert (Hsm : status_pattern marked = None) by (now rewrite Hm).
  assert (Hsp' : status_pattern plain = None)
    by (unfold plain; now rewrite status_pattern_cons, Hbr).
  assert (Hpm : is_already_processed marked = false) by (now rewrite Hm).
  assert (Hcp : count_stars_in_summary plain = 0)
    by (unfold plain; now rewrite count_stars_cons, Hc).
  clearbody plain marked.
  assert (Hwork : determine_work_type marked = determine_work_type plain).
  { unfold determine_work_type. now rewrite Hclean, Hplain, Hem, Hep. }
  assert (Hnames : extract_client_name marked = extract_client_name plain).
  { unfold extract_client_name. now rewrite Hclean, Hplain, Hem, Hep, Hsm, Hsp'. }
  assert (Hclient : forall clients,
             find_matching_client marked clients = find_matching_client plain clients).
  { intros clients. unfold find_matching_client. now rewrite Hnames, Hem, Hep. }
  assert (Hnotes : forall client_name,
             extract_notes_from_summary marked client_name
             = extract_notes_from_summary plain client_name).
  { intros client_name. unfold extract_notes_from_summary.
    now rewrite Hclean, Hplain, Hem, Hep. }
  split; [exact Hcount |]. split; [exact Hcp |]. split; [exact Hpm |].
  split; [exact Hwork |]. split; [exact Hnames |]. split; [exact Hclient |].
  split; [exact Hnotes |].
  intros fi sp sf now hs ref event clients updates. unfold updates, build_updates.
  rewrite Hwork, Hclient, !Hnotes.
  destruct (determine_status marked _ _), (determine_status plain _ _).
  destruct (find_matching_client plain clients); cbn; auto.
Qed.

(** Two asterisks and a blank before ["Thomas prune"]. *)
Lemma stars_only_change_the_status_witness :
  count_stars_in_summary "** Thomas prune" = 2
  /\ determine_work_type "** Thomas prune" = determine_work_type "Thomas prune"
  /\ find_matching_client "** Thomas prune" Sample.roster
     = find_matching_client "Thomas prune" Sample.roster.
Proof.
  destruct (stars_only_change_the_status "**" " " "T" "homas prune")
    as (Hcount & _ & _ & Hwork & _ & Hclient & _);
    try reflexivity; try discriminate.
  split; [exact Hcount |]. split; [exact Hwork |]. exact (Hclient Sample.roster).
Defined.

(** ** ClientMatcher *)

Lemma dict_get_in {V : Type} (d : dict V) (k : string) (v : V) :
  dict_get d k = Some v -> In (k, v) d.
Proof.
  unfold dict_get. destruct (find _ d) as [[k' v']|] eqn:Hf; [| discriminate].
  intros [= <-]. apply find_some in Hf as [Hin Hk].
  cbn [fst] in Hk. apply String.eqb_eq in Hk as ->. exact Hin.
Qed.

Lemma dict_get_key {V : Type} (d : dict V) (k : string) (v : V) :
  In (k, v) d -> exists v', dict_get d k = Some v'.
Proof.
  intros Hin. unfold dict_get.
  destruct (find (fun kv => String.eqb (fst kv) k) d) as [kv|] eqn:Hf; [eauto |].
  pose proof (find_none _ _ Hf (k, v) Hin) as Hk. cbn [fst] in Hk.
  rewrite String.eqb_refl in Hk. discriminate.
Qed.

Lemma caseless_key_sound (name_option : string) (clients : dict ClientRecord)
    (client_key : string) :
  caseless_key name_option clients = Some client_key ->
  eq_nocase name_option client_key = true
  /\ exists c, dict_get clients client_key = Some c.
Proof.
  unfold caseless_key.
  destruct (find _ clients) as [[k c]|] eqn:Hf; [| discriminate].
  intros [= <-]. apply find_some in Hf as [Hin Hk]. cbn [fst] in *.
  split; [exact Hk |]. exact (dict_get_key clients k c Hin).
Qed.

Lemma caseless_key_complete (name_option : string) (clients : dict ClientRecord)
    (k : string) (c : ClientRecord) :
  In (k, c) clients -> eq_nocase name_option k = true ->
  caseless_key name_option clients <> None.
Proof.
  intros Hin Hk. unfold caseless_key.
  destruct (find _ clients) as [kv|] eqn:Hf; [discriminate |].
  pose proof (find_none _ _ Hf (k, c) Hin) as H. cbn [fst] in H.
  unfold eq_nocase in Hk. congruence.
Qed.

Lemma exact_match_sound (names : list string) (clients : dict ClientRecord)
    (c : ClientRecord) :
  exact_match names clients = Some c ->
  exists name, In name names /\ name <> EmptyString /\ dict_get clients name = Some c.
Proof.
  induction names as [|name names IH]; cbn [exact_match]; [discriminate |].
  destruct (Str.is_empty name) eqn:He.
  - intros H. destruct (IH H) as (n & Hin & Hn). exists n. split; [now right | exact Hn].
  - destruct (dict_get clients name) as [c'|] eqn:Hg.
    + intros [= <-]. exists name. split; [now left |]. split; [| exact Hg].
      intros ->. discriminate.
    + intros H. destruct (IH H) as (n & Hin & Hn). exists n. split; [now right | exact Hn].
Qed.

Lemma caseless_match_sound (names : list string) (clients : dict ClientRecord)
    (c : ClientRecord) :
  caseless_match names clients = Some c ->
  exists name client_key,
    In name names /\ name <> EmptyString /\ eq_nocase name client_key = true
    /\ dict_get clients client_key = Some c.
Proof.
  induction names as [|name names IH]; cbn [caseless_match]; [discriminate |].
  destruct (Str.is_empty name) eqn:He.
  - intros H. destruct (IH H) as (n & k & Hin & Hn). exists n, k.
    split; [now right | exact Hn].
  - destruct (caseless_key name clients) as [k|] eqn:Hk.
    + intros Hg. apply caseless_key_sound in Hk as [Heq _].
      exists name, k. split; [now left |]. split; [intros ->; discriminate |]. auto.
    + intros H. destruct (IH H) as (n & k & Hin & Hn). exists n, k.
      split; [now right | exact Hn].
Qed.

Lemma caseless_match_complete (names : list string) (clients : dict ClientRecord)
    (name k : string) (c : ClientRecord) :
  In name names -> name <> EmptyString -> In (k, c) clients ->
  eq_nocase name k = true ->
  caseless_match names clients <> None.
Proof.
  intros Hin Hne Hk Heq.
  induction names as [|n names IH]; [destruct Hin |]. cbn [caseless_match].
  destruct (Str.is_empty n) eqn:He.
  - destruct Hin as [-> | Hin]; [| now apply IH].
    destruct name; [contradiction | discriminate].
  - destruct (caseless_key n clients) as [key|] eqn:Hkey.
    + apply caseless_key_sound in Hkey as [_ [c' ->]]. discriminate.
    + destruct Hin as [-> | Hin]; [| now apply IH].
      now destruct (caseless_key_complete name clients k c Hk Heq).
Qed.

(** ** Titles of non-client work *)

Lemma contains_any_in (kws : list string) (kw s : string) :
  In kw kws -> Str.contains kw s = true -> Str.contains_any kws s = true.
Proof.
  intros Hin Hc. unfold Str.contains_any. apply existsb_exists. now exists kw.
Qed.

Lemma non_client_keyword_work_type (keyword clean : string) :
  In keyword non_client_keywords -> Str.contains keyword clean = true ->
  Str.contains_any office_keywords clean = true
  \/ Str.contains_any errands_keywords clean = true.
Proof.
  intros Hin Hc. cbn [non_client_keywords In] in Hin.
  destruct Hin as [<- | [<- | [<- | [<- | [<- | []]]]]].
  - left. apply (contains_any_in office_keywords "office"); [cbn; auto 10 | exact Hc].
  - right. apply (contains_any_in errands_keywords "errands"); [cbn; auto 10 | exact Hc].
  - right. apply (contains_any_in errands_keywords "equipment maintenance");
      [cbn; auto 10 | exact Hc].
  - right. apply (contains_any_in errands_keywords "truck service");
      [cbn; auto 10 | exact Hc].
  - right. apply (contains_any_in errands_keywords "tool"); [cbn; auto 10 | exact Hc].
Qed.

Lemma build_updates_no_client
    (fromisoformat strptime_date : string -> option datetime)
    (strftime_date : datetime -> string) (now : datetime)
    (helper_schedule : gmap string string) (reference_date : datetime)
    (event : Event) (summary work_type : string) :
  upd_location
    (build_updates fromisoformat strptime_date strftime_date now helper_schedule
       reference_date event summary work_type None)
  = None.
Proof. unfold build_updates. now destruct (determine_status _ _ _). Qed.

(** X11.  A title that does not open with a bracket and holds one of the
    non-client keywords (office, errands, equipment maintenance, truck
    service, tool), whatever its case and after the star markers, names no
    client: no roster gives it a match.  Its work type is Design, Office
    Work or Errands, never Maintenance or Ad-hoc.  When a run rewrites such
    an event, the work type is Office Work or Errands and the update sets no
    location: with a design keyword in the title as well, the event is
    always passed over for lack of a client match. *)
Theorem non_client_titles_need_no_client :
  forall summary keyword : string,
    In keyword non_client_keywords ->
    Str.startswith "[" summary = false ->
    Str.contains keyword (Str.lower (strip_stars summary)) = true ->
    extract_client_name summary = NonClient
    /\ (forall clients, find_matching_client summary clients = None)
    /\ In (determine_work_type summary) ["Design"; "Office Work"; "Errands"]
    /\ forall fromisoformat strptime_date strftime_date now update_event
              dry_run force_reprocess clients helper_schedule reference_date
              events event updates,
         get_summary event = summary ->
         In (event, updates)
            (emitted
               (process_events fromisoformat strptime_date strftime_date now
                  update_event dry_run force_reprocess clients helper_schedule
                  reference_date initial_state events)) ->
         In (determine_work_type summary) ["Office Work"; "Errands"]
         /\ upd_location updates = None.
Proof.
  intros summary keyword Hkw Hbr Hc.
  assert (Hne : Str.is_empty summary = false).
  { destruct summary; [| reflexivity]. exfalso. revert Hc.
    cbn [non_client_keywords In] in Hkw.
    destruct Hkw as [<- | [<- | [<- | [<- | [<- | []]]]]]; discriminate. }
  assert (Hsp : status_pattern summary = None).
  { destruct summary as [|c r]; [reflexivity |].
    rewrite status_pattern_cons. cbn [Str.startswith] in Hbr.
    rewrite andb_true_r in Hbr. rewrite Ascii.eqb_sym. now rewrite Hbr. }
  assert (Hnames : extract_client_name summary = NonClient).
  { unfold extract_client_name. rewrite Hne, Hsp.
    now rewrite (contains_any_in non_client_keywords keyword _ Hkw Hc). }
  assert (Hclient : forall clients, find_matching_client summary clients = None).
  { intros clients. unfold find_matching_client. now rewrite Hne, Hnames. }
  assert (Hwork : In (determine_work_type summary) ["Design"; "Office Work"; "Errands"]).
  { unfold determine_work_type. rewrite Hne. cbv zeta.
    destruct (design_match _); [cbn; auto |].
    destruct (Str.contains_any office_keywords _) eqn:Ho; [cbn; auto |].
    destruct (non_client_keyword_work_type keyword _ Hkw Hc) as [H | H];
      [congruence |].
    rewrite H. cbn; auto. }
  split; [exact Hnames |]. split; [exact Hclient |]. split; [exact Hwork |].
  intros fi sp sf now ue dry force clients hs ref events event updates Hs Hin.
  rewrite run_emitted in Hin. cbn [initial_state emitted app] in Hin.
  apply in_flat_map_if in Hin as (_ & Hr & ->).
  rewrite Hs, Hclient. split; [| apply build_updates_no_client].
  unfold reaches_update in Hr. rewrite Hs, Hclient in Hr.
  apply andb_true_iff in Hr as [_ Hr]. cbn [is_Some_bool negb] in Hr.
  rewrite andb_true_r in Hr. apply negb_true_iff in Hr.
  destruct Hwork as [Hw | [Hw | [Hw | []]]]; rewrite <- Hw in *;
    [discriminate | cbn; auto | cbn; auto].
Qed.

(** A supply run for the tool shed, marked with a star. *)
Lemma non_client_titles_need_no_client_witness :
  extract_client_name "*Pick up TOOL order" = NonClient
  /\ find_matching_client "*Pick up TOOL order" Sample.roster = None
  /\ In (determine_work_type "*Pick up TOOL order") ["Design"; "Office Work"; "Errands"].
Proof.
  destruct (non_client_titles_need_no_client "*Pick up TOOL order" "tool")
    as (Hn & Hc & Hw & _).
  - cbn. auto 10.
  - reflexivity.
  - reflexivity.
  - split; [exact Hn |]. split; [exact (Hc Sample.roster) | exact Hw].
Defined.

(** ** The shape of the notes *)

Lemma lstrip_idempotent (s : string) : Str.lstrip (Str.lstrip s) = Str.lstrip s.
Proof.
  induction s as [|c s IH]; [reflexivity |]. cbn [Str.lstrip].
  destruct (Char.is_space c) eqn:Hc; [exact IH |]. cbn [Str.lstrip]. now rewrite Hc.
Qed.

Lemma rstrip_cons (c : ascii) (r : string) :
  Str.rstrip (String c r)
  = match Str.rstrip r with
    | EmptyString => if Char.is_space c then EmptyString else String c EmptyString
    | r' => String c r'
    end.
Proof. reflexivity. Qed.

Lemma rstrip_idempotent (s : string) : Str.rstrip (Str.rstrip s) = Str.rstrip s.
Proof.
  induction s as [|c s IH]; [reflexivity |]. rewrite rstrip_cons.
  destruct (Str.rstrip s) as [|x r'] eqn:Hr.
  - destruct (Char.is_space c) eqn:Hc; [reflexivity |].
    rewrite rstrip_cons. cbn [Str.rstrip]. now rewrite Hc.
  - rewrite rstrip_cons, IH. reflexivity.
Qed.

Lemma rstrip_lstrip (s : string) : Str.rstrip (Str.lstrip s) = Str.lstrip (Str.rstrip s).
Proof.
  induction s as [|c s IH]; [reflexivity |].
  cbn [Str.lstrip]. rewrite rstrip_cons.
  destruct (Char.is_space c) eqn:Hc.
  - rewrite IH. destruct (Str.rstrip s) as [|x r'] eqn:Hr; [reflexivity |].
    cbn [Str.lstrip]. now rewrite Hc.
  - rewrite rstrip_cons.
    destruct (Str.rstrip s); cbn [Str.lstrip]; now rewrite Hc.
Qed.

Lemma strip_idempotent (s : string) : Str.strip (Str.strip s) = Str.strip s.
Proof.
  unfold Str.strip. now rewrite rstrip_lstrip, lstrip_idempotent, rstrip_idempotent.
Qed.

Lemma lower_no_upper (s : string) : no_upper (Str.lower s) = true.
Proof.
  unfold no_upper.
  induction s as [|c s IH]; [reflexivity |].
  change (Str.lower (String c s)) with (String (Char.lower c) (Str.lower s)).
  cbn [all_chars]. rewrite IH, andb_true_r.
  destruct c as [[] [] [] [] [] [] [] []]; reflexivity.
Qed.

Lemma drop_no_upper (n : nat) (s : string) :
  no_upper s = true -> no_upper (Str.drop n s) = true.
Proof.
  unfold no_upper.
  revert s. induction n as [|n IH]; intros s; destruct s as [|c s];
    cbn [Str.drop all_chars]; auto.
  intros H. apply andb_true_iff in H as [_ H]. now apply IH.
Qed.

Lemma after_no_upper (kw s part : string) :
  no_upper s = true -> Str.after kw s = Some part -> no_upper part = true.
Proof.
  unfold no_upper.
  induction s as [|c s IH]; cbn [Str.after].
  - destruct (Str.startswith kw EmptyString); [| discriminate].
    intros H [= <-]. now apply drop_no_upper.
  - destruct (Str.startswith kw (String c s)).
    + intros H [= <-]. now apply drop_no_upper.
    + cbn [all_chars]. intros H. apply andb_true_iff in H as [_ H]. now apply IH.
Qed.

Lemma lstrip_no_upper (s : string) : no_upper s = true -> no_upper (Str.lstrip s) = true.
Proof.
  unfold no_upper.
  induction s as [|c s IH]; [reflexivity |]. cbn [Str.lstrip].
  destruct (Char.is_space c); [| auto].
  cbn [all_chars]. intros H. apply andb_true_iff in H as [_ H]. now apply IH.
Qed.

Lemma rstrip_no_upper (s : string) : no_upper s = true -> no_upper (Str.rstrip s) = true.
Proof.
  unfold no_upper.
  induction s as [|c s IH]; [reflexivity |]. rewrite rstrip_cons.
  cbn [all_chars]. intros H. apply andb_true_iff in H as [Hc H].
  specialize (IH H). destruct (Str.rstrip s) as [|x r'].
  - destruct (Char.is_space c); [reflexivity |]. cbn [all_chars]. now rewrite Hc.
  - cbn [all_chars] in *. now rewrite Hc, IH.
Qed.

Lemma strip_no_upper (s : string) : no_upper s = true -> no_upper (Str.strip s) = true.
Proof. intros H. unfold Str.strip. now apply lstrip_no_upper, rstrip_no_upper. Qed.

Lemma drop_leading_no_upper (in_class : ascii -> bool) (s : string) :
  no_upper s = true -> no_upper (drop_leading in_class s) = true.
Proof.
  unfold no_upper.
  induction s as [|c s IH]; [reflexivity |]. cbn [drop_leading].
  destruct (in_class c); [| auto].
  cbn [all_chars]. intros H. apply andb_true_iff in H as [_ H]. now apply IH.
Qed.

Lemma keyword_notes_shape (keywords : list string) (clean_summary notes : string) :
  keyword_notes keywords clean_summary = Some notes ->
  Str.strip notes = notes /\ no_upper notes = true.
Proof.
  induction keywords as [|keyword keywords IH]; cbn [keyword_notes]; [discriminate |].
  destruct (Str.contains keyword (Str.lower clean_summary)); [| exact IH].
  destruct (Str.after keyword (Str.lower clean_summary)) as [part|] eqn:Ha.
  - intros [= <-]. split; [apply strip_idempotent |].
    apply strip_no_upper, drop_leading_no_upper, strip_no_upper.
    apply (after_no_upper keyword (Str.lower clean_summary)); [| exact Ha].
    apply lower_no_upper.
  - intros [= <-]. split; reflexivity.
Qed.

(** X12.  The notes never carry surrounding whitespace.  When the title,
    after its star markers, holds "office work" or "errands" in any case, the
    notes are taken from the lower-cased title: they hold no upper-case
    letter, and they do not depend on the client name passed in. *)
Theorem notes_are_clean :
  forall (summary : string) (client_name : option string),
    Str.strip (extract_notes_from_summary summary client_name)
    = extract_notes_from_summary summary client_name
    /\ (Str.contains_any ["office work"; "errands"] (Str.lower (strip_stars summary)) = true ->
        no_upper (extract_notes_from_summary summary client_name) = true
        /\ forall other_name,
             extract_notes_from_summary summary other_name
             = extract_notes_from_summary summary client_name).
Proof.
  intros summary client_name. unfold extract_notes_from_summary.
  destruct (Str.is_empty summary); [split; [reflexivity | intros _; split; reflexivity] |].
  destruct (keyword_notes ["office work"; "errands"] (strip_stars summary))
    as [notes|] eqn:Hk.
  - destruct (keyword_notes_shape _ _ _ Hk) as [Hs Hu].
    split; [exact Hs |]. intros _. split; [exact Hu | reflexivity].
  - split.
    + destruct client_name as [name|]; [| reflexivity].
      destruct (Str.is_empty name); [reflexivity |].
      destruct (Nat.ltb _ _); [apply strip_idempotent | reflexivity].
    + intros Hc. exfalso. revert Hk Hc. cbn [keyword_notes Str.contains_any existsb].
      destruct (Str.contains "office work" _).
      * destruct (Str.after _ _); discriminate.
      * destruct (Str.contains "errands" _); [| discriminate].
        destruct (Str.after _ _); discriminate.
Qed.

(** An office entry with capitals in its details. *)
Lemma notes_are_clean_witness :
  extract_notes_from_summary "*Office Work: Call Bob" (Some "Thomas") = "call bob"
  /\ no_upper (extract_notes_from_summary "*Office Work: Call Bob" (Some "Thomas")) = true.
Proof.
  split; [reflexivity |].
  apply (proj2 (notes_are_clean "*Office Work: Call Bob" (Some "Thomas"))).
  reflexivity.
Defined.

(** ** The roster keys *)

Lemma remove_codes_cons (fuel : nat) (c : ascii) (r : string) :
  remove_codes (S fuel) (String c r)
  = match snd (Str.span Char.is_space (String c r)) with
    | String y inner =>
        if Ascii.eqb y "(" then
          match Str.after ")" inner with
          | Some rest => remove_codes fuel rest
          | None => String c (remove_codes fuel r)
          end
        else String c (remove_codes fuel r)
    | EmptyString => String c (remove_codes fuel r)
    end.
Proof.
  cbn [remove_codes]. destruct (snd (Str.span Char.is_space (String c r))) as [|y inner];
    [reflexivity |].
  destruct y as [[] [] [] [] [] [] [] []]; reflexivity.
Qed.

Lemma remove_codes_empty (fuel : nat) : remove_codes fuel EmptyString = EmptyString.
Proof. destruct fuel; reflexivity. Qed.

Lemma string_length_append (a b : string) :
  String.length (a +:+ b) = String.length a + String.length b.
Proof.
  induction a as [|c a IH]; cbn [String.append String.length]; [reflexivity |].
  now rewrite IH.
Qed.

Lemma after_first (c : ascii) (a rest : string) :
  Str.has_char c a = false ->
  Str.after (String c EmptyString) (a +:+ String c rest) = Some rest.
Proof.
  induction a as [|x a IH]; cbn [String.append Str.has_char Str.after Str.startswith].
  - intros _. now rewrite Ascii.eqb_refl.
  - intros H. apply orb_false_iff in H as [Hx Ha].
    rewrite Ascii.eqb_sym, Hx. cbn [andb]. now apply IH.
Qed.

(** What follows the leading whitespace of a text that is not all
    whitespace and holds no opening parenthesis. *)
Lemma span_space_no_paren (core tail : string) :
  all_chars Char.is_space core = false -> Str.has_char "(" core = false ->
  exists y rest,
    snd (Str.span Char.is_space (core +:+ tail)) = String y rest
    /\ Ascii.eqb y "(" = false.
Proof.
  induction core as [|x core IH]; cbn [all_chars String.append Str.has_char Str.span];
    [discriminate |].
  intros Hall Hp. apply orb_false_iff in Hp as [Hx Hp].
  destruct (Char.is_space x) eqn:Hs.
  - cbn [andb] in Hall. destruct (IH Hall Hp) as (y & rest & Hy & Hne).
    destruct (Str.span Char.is_space (core +:+ tail)) as [a b]. cbn [snd] in *.
    now exists y, rest.
  - exists x, (core +:+ tail). split; [reflexivity | exact Hx].
Qed.

Lemma rstrip_all_space (s : string) :
  all_chars Char.is_space s = true <-> Str.rstrip s = EmptyString.
Proof.
  induction s as [|c s IH]; [split; reflexivity |].
  rewrite rstrip_cons. cbn [all_chars]. split.
  - intros H. apply andb_true_iff in H as [Hc Hs].
    apply IH in Hs. now rewrite Hs, Hc.
  - destruct (Str.rstrip s) as [|x r'] eqn:Hr; [| discriminate].
    destruct (Char.is_space c); [| discriminate].
    intros _. now apply IH.
Qed.

Lemma rstrip_cons_keep (c : ascii) (s : string) :
  all_chars Char.is_space (String c s) = false ->
  Str.rstrip (String c s) = String c (Str.rstrip s).
Proof.
  intros Hall. rewrite rstrip_cons.
  destruct (Str.rstrip s) as [|x r'] eqn:Hr; [| reflexivity].
  apply rstrip_all_space in Hr. cbn [all_chars] in Hall. rewrite Hr, andb_true_r in Hall.
  now rewrite Hall.
Qed.

Lemma remove_codes_plain (fuel : nat) (name : string) :
  Str.has_char "(" name = false -> remove_codes fuel name = name.
Proof.
  revert name. induction fuel as [|fuel IH]; intros name Hp; [reflexivity |].
  destruct name as [|c r]; [reflexivity |].
  rewrite remove_codes_cons.
  assert (Hr : Str.has_char "(" r = false).
  { cbn [Str.has_char] in Hp. now apply orb_false_iff in Hp as [_ Hp]. }
  rewrite (IH r Hr).
  destruct (Str.span Char.is_space (String c r)) as [a b] eqn:Hspan. cbn [snd].
  destruct b as [|y inner]; [reflexivity |].
  apply span_spec in Hspan as (Heq & _ & _).
  destruct (Ascii.eqb y "(") eqn:Hy; [| reflexivity].
  rewrite Heq, has_char_append in Hp. cbn [Str.has_char] in Hp.
  rewrite Hy in Hp. cbn [orb] in Hp. now rewrite orb_true_r in Hp.
Qed.

Lemma remove_codes_coded (fuel : nat) (core spaces code : string) :
  String.length core < fuel ->
  Str.has_char "(" core = false ->
  all_chars Char.is_space spaces = true ->
  Str.has_char ")" code = false ->
  remove_codes fuel (core +:+ spaces +:+ String "(" (code +:+ ")"))
  = Str.rstrip core.
Proof.
  intros Hfuel Hcore Hspaces Hcode. revert fuel Hfuel Hcore.
  assert (Hall : forall fuel core',
             0 < fuel -> all_chars Char.is_space core' = true ->
             remove_codes fuel (core' +:+ spaces +:+ String "(" (code +:+ ")"))
             = EmptyString).
  { intros fuel core' Hfuel Hall.
    destruct fuel as [|fuel]; [lia |].
    assert (Hspan : Str.span Char.is_space
                      (core' +:+ spaces +:+ String "(" (code +:+ ")"))
                    = (core' +:+ spaces, String "(" (code +:+ ")"))).
    { rewrite <- append_assoc. apply span_append; [| reflexivity].
      clear - Hall Hspaces. induction core' as [|x core' IH]; [exact Hspaces |].
      cbn [all_chars String.append] in *. apply andb_true_iff in Hall as [Hx Hall].
      now rewrite Hx, IH. }
    destruct (core' +:+ spaces +:+ String "(" (code +:+ ")")) as [|c r] eqn:Hs.
    - destruct core', spaces; discriminate.
    - rewrite remove_codes_cons, Hspan. cbn [snd]. rewrite Ascii.eqb_refl.
      rewrite (after_first ")" code EmptyString Hcode). apply remove_codes_empty. }
  induction core as [|x core IH]; intros fuel Hfuel Hcore.
  - apply (Hall fuel EmptyString); [cbn in Hfuel; lia | reflexivity].
  - destruct (all_chars Char.is_space (String x core)) eqn:Hx.
    + rewrite (Hall fuel (String x core)) by (cbn in Hfuel; lia || exact Hx).
      symmetry. now apply rstrip_all_space.
    + destruct fuel as [|fuel]; [cbn in Hfuel; lia |].
      rewrite rstrip_cons_keep by exact Hx.
      destruct (span_space_no_paren (String x core)
                  (spaces +:+ String "(" (code +:+ ")")) Hx Hcore)
        as (y & rest & Hy & Hne).
      cbn [String.append] in Hy |- *. rewrite remove_codes_cons, Hy, Hne.
      f_equal. apply IH.
      * cbn [String.length] in Hfuel. lia.
      * cbn [Str.has_char] in Hcore. now apply orb_false_iff in Hcore as [_ Hcore].
Qed.

(** X13.  The roster key drops the client code.  A name without opening
    parenthesis is its own key, up to surrounding whitespace; a name made of
    a core, whitespace and a parenthesised code is keyed by the stripped
    core, so that two rows whose names differ in the code only share one
    key. *)
Theorem base_name_removes_code :
  forall core spaces code : string,
    Str.has_char "(" core = false ->
    all_chars Char.is_space spaces = true ->
    Str.has_char ")" code = false ->
    base_name core = Str.strip core
    /\ base_name (core +:+ spaces +:+ String "(" (code +:+ ")")) = Str.strip core
    /\ forall other_code,
         Str.has_char ")" other_code = false ->
         base_name (core +:+ spaces +:+ String "(" (other_code +:+ ")"))
         = base_name (core +:+ spaces +:+ String "(" (code +:+ ")")).
Proof.
  intros core spaces code Hcore Hspaces Hcode.
  assert (Hcoded : forall code',
             Str.has_char ")" code' = false ->
             base_name (core +:+ spaces +:+ String "(" (code' +:+ ")")) = Str.strip core).
  { intros code' Hcode'. unfold base_name.
    rewrite remove_codes_coded; auto.
    - unfold Str.strip. now rewrite rstrip_idempotent.
    - rewrite !string_length_append. cbn [String.length]. lia. }
  split; [| split].
  - unfold base_name. now rewrite remove_codes_plain.
  - now apply Hcoded.
  - intros other Hother. now rewrite !Hcoded.
Qed.

(** The two spellings of the sample roster. *)
Lemma base_name_removes_code_witness :
  base_name "Silver (C013)" = "Silver" /\ base_name "Silver" = "Silver".
Proof.
  destruct (base_name_removes_code "Silver" " " "C013") as (Hplain & Hcoded & _);
    try reflexivity.
  split; [exact Hcoded | exact Hplain].
Defined.

(** ** The roster read from the sheet *)

Lemma dict_get_set_eq {V : Type} (d : dict V) (k : string) (v : V) :
  dict_get (dict_set d k v) k = Some v.
Proof.
  unfold dict_get. induction d as [|[k' v'] d IH]; cbn [dict_set find fst snd].
  - now rewrite String.eqb_refl.
  - destruct (String.eqb k' k) eqn:Hk; cbn [find fst snd].
    + now rewrite String.eqb_refl.
    + rewrite Hk. exact IH.
Qed.

Lemma dict_get_set_ne {V : Type} (d : dict V) (k k' : string) (v : V) :
  k <> k' -> dict_get (dict_set d k v) k' = dict_get d k'.
Proof.
  intros Hne. unfold dict_get.
  induction d as [|[k0 v0] d IH]; cbn [dict_set find fst snd].
  - destruct (String.eqb_spec k k'); [contradiction | reflexivity].
  - destruct (String.eqb_spec k0 k) as [-> | Hk0]; cbn [find fst snd].
    + destruct (String.eqb_spec k k'); [contradiction | reflexivity].
    + destruct (String.eqb k0 k'); [reflexivity | exact IH].
Qed.

Lemma dict_set_keys {V : Type} (d : dict V) (k : string) (v : V) :
  map fst (dict_set d k v)
  = if existsb (String.eqb k) (map fst d) then map fst d else map fst d ++ [k].
Proof.
  induction d as [|[k' v'] d IH]; cbn [dict_set map fst existsb app]; [reflexivity |].
  rewrite (String.eqb_sym k k').
  destruct (String.eqb_spec k' k) as [-> | Hne]; cbn [map fst orb]; [reflexivity |].
  rewrite IH. now destruct (existsb (String.eqb k) (map fst d)).
Qed.

Lemma dict_set_NoDup {V : Type} (d : dict V) (k : string) (v : V) :
  NoDup (map fst d) -> NoDup (map fst (dict_set d k v)).
Proof.
  intros Hd. rewrite dict_set_keys.
  destruct (existsb (String.eqb k) (map fst d)) eqn:He; [exact Hd |].
  apply NoDup_app; split; [exact Hd |]. split; [| apply NoDup_singleton].
  intros x Hx Hk. apply list_elem_of_singleton in Hk as ->.
  assert (Ht : existsb (String.eqb k) (map fst d) = true); [| congruence].
  apply existsb_exists. exists k. split; [| apply String.eqb_refl].
  now apply list_elem_of_In.
Qed.

Lemma dict_set_length {V : Type} (d : dict V) (k : string) (v : V) :
  length (dict_set d k v) <= S (length d).
Proof.
  induction d as [|[k' v'] d IH]; cbn [dict_set length]; [lia |].
  destruct (String.eqb k' k); cbn [length]; lia.
Qed.

Lemma add_row_spec (clients : dict ClientRecord) (row : list string) :
  add_row clients row
  = if row_is_client row
    then dict_set clients (base_name (cell row 1)) (client_of_row row)
    else clients.
Proof.
  unfold add_row, row_is_client. destruct row as [|id_cell row]; [reflexivity |].
  change (cell (id_cell :: row) 0) with id_cell.
  destruct (Str.is_empty id_cell); [reflexivity |].
  now destruct (Str.is_empty (cell (id_cell :: row) 1)).
Qed.

(** Where an entry of the roster comes from. *)
Lemma roster_entry_origin (rows : list (list string)) (clients : dict ClientRecord)
    (k : string) (c : ClientRecord) :
  dict_get (fold_left add_row rows clients) k = Some c ->
  dict_get clients k = Some c
  \/ exists row,
       In row rows /\ row_is_client row = true
       /\ k = base_name (cell row 1) /\ c = client_of_row row.
Proof.
  revert clients. induction rows as [|row rows IH]; intros clients; cbn [fold_left];
    [now left |].
  intros H. destruct (IH _ H) as [Hc | (r & Hin & Hr)].
  - rewrite add_row_spec in Hc. destruct (row_is_client row) eqn:Hrow; [| now left].
    destruct (String.eqb_spec (base_name (cell row 1)) k) as [<- | Hne].
    + rewrite dict_get_set_eq in Hc. injection Hc as <-.
      right. exists row. split; [now left |]. auto.
    + rewrite dict_get_set_ne in Hc by exact Hne. now left.
  - right. exists r. split; [now right | exact Hr].
Qed.

Lemma later_rows_keep (rows : list (list string)) (clients : dict ClientRecord)
    (k : string) (c : ClientRecord) :
  dict_get clients k = Some c ->
  (forall row, In row rows -> row_is_client row = true -> base_name (cell row 1) <> k) ->
  dict_get (fold_left add_row rows clients) k = Some c.
Proof.
  revert clients. induction rows as [|row rows IH]; intros clients Hc Hrows;
    cbn [fold_left]; [exact Hc |].
  apply IH; [| intros r Hin; apply Hrows; now right].
  rewrite add_row_spec. destruct (row_is_client row) eqn:Hrow; [| exact Hc].
  rewrite dict_get_set_ne; [exact Hc |]. apply Hrows; [now left | exact Hrow].
Qed.

Lemma roster_invariant (rows : list (list string)) (clients : dict ClientRecord) :
  NoDup (map fst clients) ->
  NoDup (map fst (fold_left add_row rows clients))
  /\ length (fold_left add_row rows clients)
     <= length clients + count_if row_is_client rows.
Proof.
  revert clients. induction rows as [|row rows IH]; intros clients Hd; cbn [fold_left].
  - split; [exact Hd |]. unfold count_if. cbn. lia.
  - rewrite add_row_spec. unfold count_if. cbn [List.filter].
    destruct (row_is_client row).
    + destruct (IH (dict_set clients (base_name (cell row 1)) (client_of_row row)))
        as [Hn Hl]; [now apply dict_set_NoDup |].
      split; [exact Hn |].
      pose proof (dict_set_length clients (base_name (cell row 1)) (client_of_row row)).
      unfold count_if in Hl. cbn [length]. lia.
    + destruct (IH clients Hd) as [Hn Hl]. split; [exact Hn |].
      unfold count_if in Hl. lia.
Qed.

(** X14.  The roster built from the rows of the sheet.  Its keys are
    pairwise distinct and at most as many as the rows that carry an id and a
    name.  Every entry comes from such a row: the key is the base name of
    the row's name and the record is the row's record.  When several rows
    share a base name the last one wins; and a title whose primary candidate
    is that base name is matched to that row's record. *)
Theorem roster_last_row_wins :
  forall rows : list (list string),
    let roster := parse_sheets_rows rows in
    NoDup (map fst roster)
    /\ length roster <= count_if row_is_client rows
    /\ (forall k c,
           dict_get roster k = Some c ->
           exists row,
             In row rows /\ row_is_client row = true
             /\ k = base_name (cell row 1) /\ c = client_of_row row
             /\ full_name c <> EmptyString)
    /\ (forall earlier row later,
           rows = earlier ++ row :: later ->
           row_is_client row = true ->
           (forall r, In r later -> row_is_client r = true ->
                      base_name (cell r 1) <> base_name (cell row 1)) ->
           dict_get roster (base_name (cell row 1)) = Some (client_of_row row)
           /\ forall summary fallback_name,
                extract_client_name summary
                = Names (base_name (cell row 1)) fallback_name ->
                base_name (cell row 1) <> EmptyString ->
                find_matching_client summary roster = Some (client_of_row row)).
Proof.
  intros rows roster. unfold roster, parse_sheets_rows.
  destruct (roster_invariant rows []) as [Hn Hl]; [constructor |].
  split; [exact Hn |]. split; [exact Hl |]. split.
  - intros k c H. apply roster_entry_origin in H as [H | (row & Hin & Hrow & -> & ->)];
      [discriminate |].
    exists row. repeat split; auto.
    unfold row_is_client in Hrow. apply andb_true_iff in Hrow as [_ Hname].
    cbn [client_of_row full_name]. intros He. rewrite He in Hname. discriminate.
  - intros earlier row later -> Hrow Hlater.
    assert (Hget : dict_get (fold_left add_row (earlier ++ row :: later) [])
                     (base_name (cell row 1)) = Some (client_of_row row)).
    { rewrite fold_left_app. cbn [fold_left]. apply later_rows_keep; [| exact Hlater].
      rewrite add_row_spec, Hrow. apply dict_get_set_eq. }
    split; [exact Hget |].
    intros summary fallback Hnames Hne.
    unfold find_matching_client. rewrite Hnames.
    destruct summary; [discriminate |]. cbn [Str.is_empty].
    now rewrite (exact_match_first _ [fallback] _ _ Hne Hget).
Qed.

(** Two rows for one client, the second with a new address. *)
Lemma roster_last_row_wins_witness :
  dict_get
    (parse_sheets_rows
       [["C013"; "Silver (C013)"; "4 Oak Ave"];
        ["C014"; "Silver (C014)"; "9 Pine Rd"];
        [""; "Nobody"]])
    "Silver"
  = Some (client_of_row ["C014"; "Silver (C014)"; "9 Pine Rd"]).
Proof.
  apply (proj1 (proj2 (proj2 (proj2 (roster_last_row_wins
           [["C013"; "Silver (C013)"; "4 Oak Ave"];
            ["C014"; "Silver (C014)"; "9 Pine Rd"];
            [""; "Nobody"]])))
           [["C013"; "Silver (C013)"; "4 Oak Ave"]]
           ["C014"; "Silver (C014)"; "9 Pine Rd"]
           [[""; "Nobody"]] eq_refl eq_refl
           ltac:(intros r [<- | []]; discriminate))).
Defined.

(** ** The copier: one event *)

Lemma get_truthy_Some (d : dict Value) (k : string) (v : Value) :
  get_truthy d k = Some v <-> dict_get d k = Some v /\ truthy v = true.
Proof.
  unfold get_truthy. destruct (dict_get d k) as [w|]; [| split; [| intros []]; discriminate].
  destruct (truthy w) eqn:Hw; split.
  - intros [= <-]. auto.
  - intros [[= <-] _]. reflexivity.
  - discriminate.
  - intros [[= <-] H]. congruence.
Qed.

Lemma dict_get_cons {V : Type} (k0 : string) (v0 : V) (d : dict V) (k : string) :
  dict_get ((k0, v0) :: d) k = if String.eqb k0 k then Some v0 else dict_get d k.
Proof. unfold dict_get. cbn [find fst snd]. now destruct (String.eqb k0 k). Qed.

Lemma dict_get_copy_optional (source_event : dict Value) (key : string)
    (event_copy : dict Value) (k : string) :
  dict_get (copy_optional source_event key event_copy) k
  = if String.eqb key k then
      match get_truthy source_event key with
      | Some v => Some v
      | None => dict_get event_copy k
      end
    else dict_get event_copy k.
Proof.
  unfold copy_optional. destruct (String.eqb_spec key k) as [<- | Hne].
  - destruct (get_truthy source_event key); [apply dict_get_set_eq | reflexivity].
  - destruct (get_truthy source_event key); [now apply dict_get_set_ne | reflexivity].
Qed.

Lemma copy_optional_NoDup (source_event : dict Value) (key : string)
    (event_copy : dict Value) :
  NoDup (map fst event_copy) -> NoDup (map fst (copy_optional source_event key event_copy)).
Proof.
  intros H. unfold copy_optional.
  destruct (get_truthy source_event key); [now apply dict_set_NoDup | exact H].
Qed.

Lemma copied_value_source (source_event : dict Value) (k : string) (v : Value) :
  copied_value source_event k = Some v -> dict_get source_event k = Some v.
Proof.
  unfold copied_value. destruct (existsb _ required_keys); [auto |].
  destruct (existsb _ optional_keys); [| discriminate].
  intros H. now apply get_truthy_Some in H.
Qed.

(** The copy that [prepare_event_for_copy] returns, key by key. *)
Lemma prepared_copy (source_event event_copy : dict Value) :
  prepare_event_for_copy source_event = Returned (Some event_copy) ->
  (forall k, dict_get event_copy k = copied_value source_event k)
  /\ NoDup (map fst event_copy).
Proof.
  unfold prepare_event_for_copy.
  destruct (get_truthy source_event "summary") as [summary|] eqn:Hsummary;
    [| discriminate].
  destruct (get_truthy source_event "start") as [start|] eqn:Hstart; [| discriminate].
  destruct (dict_get source_event "end") as [end_|] eqn:Hend; [| discriminate].
  cbv zeta. intros [= <-]. split.
  - intros k. rewrite !dict_get_copy_optional. unfold copied_value.
    cbn [required_keys optional_keys existsb].
    rewrite !dict_get_cons. change (dict_get (V := Value) [] k) with (@None Value).
    apply get_truthy_Some in Hsummary as [Hsummary _].
    apply get_truthy_Some in Hstart as [Hstart _].
    destruct (String.eqb_spec "summary" k) as [<- | ?]; [now rewrite Hsummary |].
    destruct (String.eqb_spec "start" k) as [<- | ?]; [now rewrite Hstart |].
    destruct (String.eqb_spec "end" k) as [<- | ?]; [now rewrite Hend |].
    destruct (String.eqb_spec "description" k) as [<- | ?];
      [cbn; now destruct (get_truthy source_event "description") |].
    destruct (String.eqb_spec "location" k) as [<- | ?];
      [cbn; now destruct (get_truthy source_event "location") |].
    destruct (String.eqb_spec "colorId" k) as [<- | ?];
      [cbn; now destruct (get_truthy source_event "colorId") |].
    destruct (String.eqb_spec "recurrence" k) as [<- | ?];
      [cbn; now destruct (get_truthy source_event "recurrence") |].
    destruct (String.eqb_spec "attendees" k) as [<- | ?];
      [cbn; now destruct (get_truthy source_event "attendees") |].
    destruct (String.eqb_spec "reminders" k) as [<- | ?];
      [cbn; now destruct (get_truthy source_event "reminders") |].
    reflexivity.
  - repeat apply copy_optional_NoDup. cbn [map fst].
    repeat (apply NoDup_cons_2;
            [rewrite ?not_elem_of_cons; repeat split;
             discriminate || apply not_elem_of_nil |]).
    apply NoDup_nil_2.
Qed.

Lemma copyable_spec (source_event : dict Value) :
  copyable source_event = true
  <-> exists summary start,
        get_truthy source_event "summary" = Some summary
        /\ get_truthy source_event "start" = Some start.
Proof.
  unfold copyable.
  destruct (get_truthy source_event "summary") as [summary|];
    destruct (get_truthy source_event "start") as [start|]; cbn; split;
    try discriminate; try (intros (? & ? & ? & ?); discriminate); eauto.
Qed.

(** X15.  The contract of [prepare_event_for_copy].  An event without a
    true title or a true start is not copied ([None]); with both but
    without an end the function raises [KeyError] on ['end']; otherwise it
    returns a copy that holds the title, the start and the end of the
    source, each optional field (description, location, colorId,
    recurrence, attendees, reminders) whose source value is true, and
    nothing else: no id, no creator, no link. *)
Theorem prepare_event_for_copy_contract :
  forall source_event : dict Value,
    (prepare_event_for_copy source_event = Returned None
     <-> copyable source_event = false)
    /\ (forall error,
           prepare_event_for_copy source_event = Raised error
           <-> error = KeyError "end" /\ copyable source_event = true
               /\ dict_get source_event "end" = None)
    /\ (forall event_copy,
           prepare_event_for_copy source_event = Returned (Some event_copy) ->
           copyable source_event = true
           /\ (forall k, dict_get event_copy k = copied_value source_event k)
           /\ (forall k v, dict_get event_copy k = Some v ->
                           In k (required_keys ++ optional_keys)
                           /\ dict_get source_event k = Some v)
           /\ NoDup (map fst event_copy)).
Proof.
  intros source_event. split; [| split].
  - unfold prepare_event_for_copy, copyable.
    destruct (get_truthy source_event "summary");
      destruct (get_truthy source_event "start"); cbn; try tauto.
    destruct (dict_get source_event "end"); split; discriminate.
  - intros error. unfold prepare_event_for_copy, copyable.
    destruct (get_truthy source_event "summary");
      destruct (get_truthy source_event "start"); cbn;
      try (split; [discriminate | intros (_ & ? & _); discriminate]).
    destruct (dict_get source_event "end"); split; try discriminate.
    + intros (_ & _ & ?). discriminate.
    + intros [= <-]. auto.
    + intros (-> & _). reflexivity.
  - intros event_copy H. destruct (prepared_copy _ _ H) as [Hk Hn].
    split; [| split; [exact Hk | split; [| exact Hn]]].
    + revert H. unfold prepare_event_for_copy, copyable.
      destruct (get_truthy source_event "summary");
        destruct (get_truthy source_event "start"); cbn; congruence.
    + intros k v Hv. rewrite Hk in Hv. split; [| now apply copied_value_source].
      revert Hv. unfold copied_value. rewrite in_app_iff.
      destruct (existsb _ required_keys) eqn:Hr.
      * intros _. left. apply existsb_exists in Hr as (key & Hin & Heq).
        apply String.eqb_eq in Heq as <-. exact Hin.
      * destruct (existsb _ optional_keys) eqn:Ho; [| discriminate].
        intros _. right. apply existsb_exists in Ho as (key & Hin & Heq).
        apply String.eqb_eq in Heq as <-. exact Hin.
Qed.

Lemma prepare_event_for_copy_ext (a b : dict Value) :
  (forall k, In k ("summary" :: "start" :: optional_keys) ->
             get_truthy a k = get_truthy b k) ->
  dict_get a "end" = dict_get b "end" ->
  prepare_event_for_copy a = prepare_event_for_copy b.
Proof.
  intros Hk Hend. unfold prepare_event_for_copy, copy_optional.
  rewrite Hend. rewrite !Hk by (cbn; auto 10). reflexivity.
Qed.

(** X16.  Copying is idempotent: the copy of an event is itself an event
    that [prepare_event_for_copy] accepts, and preparing it again gives the
    same copy, field for field and in the same order. *)
Theorem copy_of_a_copy :
  forall source_event event_copy : dict Value,
    prepare_event_for_copy source_event = Returned (Some event_copy) ->
    prepare_event_for_copy event_copy = Returned (Some event_copy).
Proof.
  intros source_event event_copy H. rewrite <- H.
  destruct (prepared_copy _ _ H) as [Hk _].
  assert (Hs : exists summary start end_,
             get_truthy source_event "summary" = Some summary
             /\ get_truthy source_event "start" = Some start
             /\ dict_get source_event "end" = Some end_).
  { revert H. unfold prepare_event_for_copy.
    destruct (get_truthy source_event "summary"); [| discriminate].
    destruct (get_truthy source_event "start"); [| discriminate].
    destruct (dict_get source_event "end"); [| discriminate].
    intros _. do 3 eexists. repeat split; reflexivity. }
  destruct Hs as (summary & start & end_ & Hsummary & Hstart & Hend).
  apply prepare_event_for_copy_ext.
  - intros k Hin. unfold get_truthy at 1. rewrite Hk.
    cbn [In optional_keys] in Hin.
    destruct Hin as [<- | [<- | Hin]].
    + cbn. reflexivity.
    + cbn. reflexivity.
    + assert (Hc : copied_value source_event k = get_truthy source_event k).
      { destruct Hin as [<- | [<- | [<- | [<- | [<- | [<- | []]]]]]]; reflexivity. }
      rewrite Hc. destruct (get_truthy source_event k) as [v|] eqn:Hv; [| reflexivity].
      apply get_truthy_Some in Hv as [_ ->]. reflexivity.
  - rewrite Hk. reflexivity.
Qed.

(** A visit with an empty location and fields the copier leaves out. *)
Lemma copy_of_a_copy_witness :
  prepare_event_for_copy CopySample.visit = Returned (Some CopySample.visit_copy)
  /\ prepare_event_for_copy CopySample.visit_copy = Returned (Some CopySample.visit_copy).
Proof.
  split; [reflexivity |].
  apply (copy_of_a_copy CopySample.visit). reflexivity.
Defined.

(** ** The copier: the loop *)

Section CopyFacts.

Variable create_event : list (dict Value) -> dict Value -> bool.
Variable dry_run : bool.

Abbreviation copy_one := (copy_event create_event dry_run).
Abbreviation copy_all := (copy_events create_event dry_run).

Lemma printed_date_raises (start : Value) :
  (exists error, printed_date start = Raised error)
  <-> match start with
      | VObj members =>
          match get_truthy members "dateTime" with
          | Some (VStr _) => true
          | Some (VList _) => true
          | Some _ => false
          | None => true
          end
      | _ => false
      end = false.
Proof.
  unfold printed_date.
  destruct start as [| | | |items|members];
    try (split; [reflexivity | eauto]).
  destruct (get_truthy members "dateTime") as [[| | | | |]|];
    try (split; [reflexivity | eauto]);
    try (split; [intros [? ?]; discriminate | discriminate]).
  destruct (get_truthy members "date");
    split; try discriminate; intros [? ?]; discriminate.
Qed.

Lemma copy_event_raises (st : CopyState) (event : dict Value) :
  (exists error, copy_one st event = Raised error) <-> well_formed event = false.
Proof.
  unfold copy_event, prepare_event_for_copy, well_formed.
  destruct (get_truthy event "summary") as [summary|] eqn:Hs.
  2:{ split; [intros [? ?]; discriminate | discriminate]. }
  destruct (get_truthy event "start") as [start|] eqn:Hst.
  2:{ split; [intros [? ?]; discriminate | discriminate]. }
  apply get_truthy_Some in Hst as [Hst _]. rewrite Hst.
  destruct (dict_get event "end") as [end_|]; cbn [is_Some_bool andb].
  2:{ split; [reflexivity | eauto]. }
  cbv zeta. rewrite <- printed_date_raises.
  destruct (printed_date start) as [d|error].
  - destruct dry_run; [| destruct (create_event _ _)];
      split; intros [? ?]; discriminate.
  - split; eauto.
Qed.

Lemma copy_event_returns (st st' : CopyState) (event : dict Value) :
  copy_one st event = Returned st' ->
  copied_count st' + failed_count st' + skipped_count st'
  = S (copied_count st + failed_count st + skipped_count st)
  /\ skipped_count st' = (if copyable event then 0 else 1) + skipped_count st
  /\ created st' = created st ++ (if dry_run then [] else copies [event])
  /\ (dry_run = true -> failed_count st' = failed_count st)
  /\ (dry_run = false ->
      copied_count st' + failed_count st' + length (created st)
      = copied_count st + failed_count st + length (created st'))
  /\ ((forall sent body, create_event sent body = true) ->
      failed_count st' = failed_count st).
Proof.
  unfold copy_event, copies, copyable. cbn [flat_map]. rewrite app_nil_r.
  unfold prepare_event_for_copy at 1 2.
  destruct (get_truthy event "summary") as [summary|]; cbn [is_Some_bool andb].
  2:{ intros [= <-]. cbn. destruct dry_run; rewrite ?app_nil_r; repeat split; lia. }
  destruct (get_truthy event "start") as [start|]; cbn [is_Some_bool andb].
  2:{ intros [= <-]. cbn. destruct dry_run; rewrite ?app_nil_r; repeat split; lia. }
  destruct (dict_get event "end") as [end_|]; [| discriminate]. cbv zeta.
  set (event_copy := copy_optional event "reminders" _).
  destruct (printed_date _); [| discriminate].
  destruct dry_run.
  - intros [= <-]. cbn. rewrite app_nil_r.
    repeat split; intros; try lia; try discriminate.
  - destruct (create_event (created st) event_copy) eqn:Hc; intros [= <-]; cbn;
      rewrite ?length_app; cbn; repeat split; intros; try lia; try discriminate.
    match goal with Hok : forall _ _, _ = true |- _ => rewrite Hok in Hc end.
    discriminate.
Qed.

Lemma copies_app (a b : list (dict Value)) : copies (a ++ b) = copies a ++ copies b.
Proof. unfold copies. apply flat_map_app. Qed.

(** The loop, from any state: the events done before it stops. *)
Lemma copy_events_done (events : list (dict Value)) (st st' : CopyState)
    (stopped : option Error) :
  copy_all st events = (st', stopped) ->
  exists done,
    match stopped with
    | None => done = events
    | Some error =>
        exists bad rest, events = done ++ bad :: rest /\ well_formed bad = false
    end
    /\ Forall (fun event => well_formed event = true) done
    /\ copied_count st' + failed_count st' + skipped_count st'
       = copied_count st + failed_count st + skipped_count st + length done
    /\ skipped_count st'
       = skipped_count st + count_if (fun event => negb (copyable event)) done
    /\ created st' = created st ++ (if dry_run then [] else copies done)
    /\ (dry_run = true -> failed_count st' = failed_count st)
    /\ (dry_run = false ->
        copied_count st' + failed_count st' + length (created st)
        = copied_count st + failed_count st + length (created st'))
    /\ ((forall sent body, create_event sent body = true) ->
        failed_count st' = failed_count st).
Proof.
  revert st. induction events as [|event events IH]; intros st; cbn [copy_events].
  - intros [= <- <-]. exists []. unfold count_if. cbn.
    destruct dry_run; rewrite ?app_nil_r; repeat split; auto; lia.
  - destruct (copy_one st event) as [st1|error] eqn:Hstep.
    + intros H. destruct (IH st1 H) as (done & Hstop & Hwf & Hsum & Hskip & Hcr & Hd & Hl & Ht).
      destruct (copy_event_returns st st1 event Hstep)
        as (Hsum1 & Hskip1 & Hcr1 & Hd1 & Hl1 & Ht1).
      assert (Hw : well_formed event = true).
      { destruct (well_formed event) eqn:Hw; [reflexivity |].
        apply (copy_event_raises st) in Hw as [e He]. congruence. }
      exists (event :: done). split; [| split; [| split; [| split; [| split]]]].
      * destruct stopped as [error|]; [| now subst].
        destruct Hstop as (bad & rest & -> & Hbad). now exists bad, rest.
      * now constructor.
      * cbn [length]. lia.
      * unfold count_if in *. cbn [List.filter].
        destruct (copyable event); cbn [negb length] in *; lia.
      * rewrite Hcr, Hcr1, <- app_assoc. destruct dry_run; [reflexivity |].
        now rewrite <- copies_app.
      * split; [| split].
        -- intros Hdry. rewrite (Hd Hdry). now apply Hd1.
        -- intros Hdry. specialize (Hl Hdry). specialize (Hl1 Hdry). lia.
        -- intros Hok. rewrite (Ht Hok). now apply Ht1.
    + intros [= <- <-]. exists []. unfold count_if. cbn.
      split; [| destruct dry_run; rewrite ?app_nil_r; repeat split; auto; lia].
      exists event, events. split; [reflexivity |].
      apply (copy_event_raises st). eauto.
Qed.

End CopyFacts.

(** X17.  The tally of the copy loop.  The loop stops at the first event
    that is not well formed, with an exception, and runs to the end of a
    calendar of well-formed events.  Of the events done, each is counted
    once, as copied, failed or skipped; the skipped ones are those without
    title or start.  A live run sends [create_event] the copies of the
    other events, in order, one call for each event counted as copied or
    failed; a dry run sends nothing and counts no failure. *)
Theorem copy_loop_tally :
  forall (create_event : list (dict Value) -> dict Value -> bool) (dry_run : bool)
         (source_events : list (dict Value)),
    let st := fst (copy_events create_event dry_run copy_start source_events) in
    let stopped := snd (copy_events create_event dry_run copy_start source_events) in
    exists done,
      match stopped with
      | None => done = source_events
      | Some error =>
          exists bad rest,
            source_events = done ++ bad :: rest /\ well_formed bad = false
      end
      /\ Forall (fun event => well_formed event = true) done
      /\ copied_count st + failed_count st + skipped_count st = length done
      /\ skipped_count st = count_if (fun event => negb (copyable event)) done
      /\ created st = (if dry_run then [] else copies done)
      /\ length (created st) = (if dry_run then 0 else copied_count st + failed_count st)
      /\ (dry_run = true -> failed_count st = 0)
      /\ (stopped = None <-> Forall (fun event => well_formed event = true) source_events).
Proof.
  intros create dry events st stopped.
  destruct (copy_events create dry copy_start events) as [st' stopped'] eqn:Hrun.
  cbn [fst snd] in st, stopped. subst st stopped.
  destruct (copy_events_done create dry events copy_start st' stopped' Hrun)
    as (done & Hstop & Hwf & Hsum & Hskip & Hcr & Hd & Hl & _).
  cbn [copy_start copied_count failed_count skipped_count created app length] in *.
  exists done. split; [exact Hstop |]. split; [exact Hwf |].
  split; [lia |]. split; [lia |]. split; [exact Hcr |].
  split; [| split].
  - destruct dry; [now rewrite Hcr | specialize (Hl eq_refl); lia].
  - intros Hdry. now apply Hd.
  - destruct stopped' as [error|].
    + split; [discriminate |]. intros Hall.
      destruct Hstop as (bad & rest & -> & Hbad).
      apply Forall_app in Hall as [_ Hall]. apply Forall_cons in Hall as [Hb _].
      congruence.
    + subst done. split; auto.
Qed.

(** ** The copier: a whole run *)

(** X18.  What a call of [copy_calendar_events] guarantees.  A dry run
    never calls [delete_all_events], never calls [create_event] and never
    reports failure.  The destination is cleared only when asked; a live run
    whose clearing fails returns [False] before any event is read or
    created.  [True] is returned only when the loop reached its end with no
    failed event.  A live run over well-formed events on a transport that
    always succeeds returns [True], having sent the copy of every event that
    has a title and a start, in order. *)
Theorem copy_run_guarantees :
  forall (delete_all_events : bool)
         (create_event : list (dict Value) -> dict Value -> bool)
         (source_events : list (dict Value))
         (dry_run clear_destination reset_mode : bool),
    let run :=
      copy_calendar_events delete_all_events create_event source_events
        dry_run clear_destination reset_mode in
    (dry_run = true ->
     delete_called run = false /\ created (copy_state run) = []
     /\ returned run <> Some false)
    /\ (clear_destination = false -> delete_called run = false)
    /\ (clear_destination = true -> dry_run = false -> delete_all_events = false ->
        delete_called run = true /\ returned run = Some false
        /\ escaped run = None /\ copy_state run = copy_start)
    /\ (returned run = Some true ->
        escaped run = None /\ failed_count (copy_state run) = 0)
    /\ (returned run = None <-> escaped run <> None)
    /\ (dry_run = false -> (clear_destination = true -> delete_all_events = true) ->
        Forall (fun event => well_formed event = true) source_events ->
        (forall sent body, create_event sent body = true) ->
        returned run = Some true
        /\ created (copy_state run) = copies source_events
        /\ copied_count (copy_state run) = length (copies source_events)).
Proof.
  intros delete create events dry clear reset run.
  destruct (copy_events create dry copy_start events) as [st stopped] eqn:Hrun.
  destruct (copy_events_done create dry events copy_start st stopped Hrun)
    as (done & Hstop & Hwf & Hsum & Hskip & Hcr & Hd & Hl & Ht).
  cbn [copy_start copied_count failed_count skipped_count created app length] in *.
  assert (Hshape :
            run = (if clear && negb dry && negb delete then
                     {| delete_called := true; copy_state := copy_start;
                        returned := Some false; escaped := None |}
                   else
                     match events with
                     | [] =>
                         {| delete_called := clear && negb dry; copy_state := copy_start;
                            returned := Some true; escaped := None |}
                     | _ =>
                         match stopped with
                         | None =>
                             {| delete_called := clear && negb dry; copy_state := st;
                                returned := Some (Nat.eqb (failed_count st) 0);
                                escaped := None |}
                         | Some error =>
                             {| delete_called := clear && negb dry; copy_state := st;
                                returned := None; escaped := Some error |}
                         end
                     end)).
  { unfold run, copy_calendar_events. rewrite Hrun. reflexivity. }
  clearbody run. subst run.
  split; [| split; [| split; [| split; [| split]]]].
  - intros ->. rewrite andb_false_r. cbn [negb andb].
    destruct events as [|event events]; [cbn; repeat split; discriminate |].
    specialize (Hd eq_refl).
    destruct stopped; cbn; rewrite ?Hcr, ?Hd; repeat split; discriminate.
  - intros ->. cbn [andb]. destruct events; [reflexivity |]. now destruct stopped.
  - intros -> -> ->. cbn. auto.
  - destruct (clear && negb dry && negb delete); [discriminate |].
    destruct events; [cbn; intros _; split; reflexivity |].
    destruct stopped; [discriminate |]. cbn.
    intros [= H]. apply Nat.eqb_eq in H. auto.
  - destruct (clear && negb dry && negb delete);
      [cbn; split; [discriminate | intros H; now destruct H] |].
    destruct events; [cbn; split; [discriminate | intros H; now destruct H] |].
    destruct stopped; cbn; split; try discriminate; auto.
    intros H. now destruct H.
  - intros -> Hclear Hall Hok. specialize (Hl eq_refl). specialize (Ht Hok).
    assert (Habort : clear && negb false && negb delete = false).
    { destruct clear; [| reflexivity]. now rewrite Hclear. }
    rewrite Habort.
    destruct stopped as [error|].
    + destruct Hstop as (bad & rest & -> & Hbad).
      apply Forall_app in Hall as [_ Hall]. apply Forall_cons in Hall as [Hb _].
      congruence.
    + subst done. destruct events as [|event events]; [cbn; auto |].
      cbn [copy_state returned]. rewrite Ht. cbn [Nat.eqb].
      split; [reflexivity |]. split; [exact Hcr |]. rewrite <- Hcr. lia.
Qed.

(** A reset of a destination from a source of three events, one without
    title: two copies are sent. *)
Lemma copy_run_guarantees_witness :
  returned
    (copy_calendar_events true CopySample.always_created
       [CopySample.visit; CopySample.untitled; CopySample.visit] false true true)
  = Some true
  /\ created
       (copy_state
          (copy_calendar_events true CopySample.always_created
             [CopySample.visit; CopySample.untitled; CopySample.visit] false true true))
     = [CopySample.visit_copy; CopySample.visit_copy].
Proof.
  destruct (copy_run_guarantees true CopySample.always_created
              [CopySample.visit; CopySample.untitled; CopySample.visit] false true true)
    as (_ & _ & _ & _ & _ & H).
  destruct H as (Hr & Hc & _); try reflexivity.
  - repeat constructor.
  - split; [exact Hr | exact Hc].
Defined.

(** ** Reprocessing a standardized title *)

Lemma word_single (c : ascii) : Char.is_space c = false -> word (String c EmptyString).
Proof. intros Hc. split; [discriminate |]. cbn [all_chars]. now rewrite Hc. Qed.

Lemma word_snoc (w : string) (c : ascii) :
  word w -> Char.is_space c = false -> word (w +:+ String c EmptyString).
Proof.
  intros [Hne Hw] Hc. split; [destruct w; [contradiction | discriminate] |].
  clear Hne. induction w as [|x w IH]; cbn [String.append all_chars] in *.
  - now rewrite Hc.
  - apply andb_true_iff in Hw as [Hx Hw]. now rewrite Hx, IH.
Qed.

Lemma split_go_words (s : string) (cur : option string) :
  match cur with Some w => word w | None => True end ->
  Forall word (Str.split_go cur s).
Proof.
  revert cur. induction s as [|c s IH]; intros cur Hcur; cbn [Str.split_go].
  - destruct cur as [w|]; [| constructor]. constructor; [exact Hcur | constructor].
  - destruct (Char.is_space c) eqn:Hc.
    + destruct cur; [constructor; [exact Hcur |] |]; now apply IH.
    + apply IH. destruct cur; [now apply word_snoc | now apply word_single].
Qed.

Lemma split_go_open (s w : string) :
  exists w' ws, Str.split_go (Some w) s = (w +:+ w') :: ws.
Proof.
  revert w. induction s as [|c s IH]; intros w; cbn [Str.split_go].
  - exists EmptyString, []. now rewrite append_empty_r.
  - destruct (Char.is_space c).
    + exists EmptyString. eexists. now rewrite append_empty_r.
    + destruct (IH (w +:+ String c EmptyString)) as (w' & ws & ->).
      exists (String c w'), ws. now rewrite append_assoc.
Qed.

(** The first word begins with the first character that is no
    whitespace. *)
Lemma split_first (s w : string) (ws : list string) :
  Str.split s = w :: ws ->
  exists x w', w = String x w' /\ Str.has_char x s = true.
Proof.
  unfold Str.split. induction s as [|c s IH]; cbn [Str.split_go]; [discriminate |].
  destruct (Char.is_space c).
  - intros H. destruct (IH H) as (x & w' & -> & Hx). exists x, w'.
    split; [reflexivity |]. cbn [Str.has_char]. now rewrite Hx, orb_true_r.
  - destruct (split_go_open s (String c EmptyString)) as (w' & ws' & ->).
    intros [= <- <-]. exists c, w'. split; [reflexivity |].
    cbn [Str.has_char]. now rewrite Ascii.eqb_refl.
Qed.

Lemma split_cons (c : ascii) (r : string) :
  Char.is_space c = false ->
  exists w' ws, Str.split (String c r) = String c w' :: ws.
Proof.
  intros Hc. unfold Str.split. cbn [Str.split_go]. rewrite Hc.
  destruct (split_go_open r (String c EmptyString)) as (w' & ws & ->).
  now exists w', ws.
Qed.

Lemma rstrip_word (w : string) : word w -> Str.rstrip w = w.
Proof.
  intros [Hne Hw]. induction w as [|c w IH]; [contradiction |].
  cbn [all_chars] in Hw. apply andb_true_iff in Hw as [Hc Hw].
  apply negb_true_iff in Hc. rewrite rstrip_cons.
  destruct w as [|x w]; [cbn [Str.rstrip]; now rewrite Hc |].
  rewrite IH by (discriminate || exact Hw). reflexivity.
Qed.

Lemma rstrip_ends_with_word (a w : string) : word w -> Str.rstrip (a +:+ w) = a +:+ w.
Proof.
  intros Hw. induction a as [|x a IH]; cbn [String.append]; [now apply rstrip_word |].
  rewrite rstrip_cons, IH.
  destruct (a +:+ w) eqn:E; [| reflexivity].
  destruct Hw as [Hne _]. destruct a, w; try discriminate; contradiction.
Qed.

Lemma join_words_end (ws : list string) :
  Forall word ws -> ws <> [] ->
  exists a w, Str.join " " ws = a +:+ w /\ word w.
Proof.
  induction 1 as [|x ws Hx Hws IH]; [contradiction |]. intros _.
  destruct ws as [|y ws].
  - exists EmptyString, x. split; [reflexivity | exact Hx].
  - destruct IH as (a & w & Ha & Hw); [discriminate |].
    exists (x +:+ " " +:+ a), w. split; [| exact Hw].
    rewrite join_cons_cons, Ha. now rewrite !append_assoc.
Qed.

Lemma join_snoc (sep x : string) (l : list string) :
  l <> [] -> Str.join sep (l ++ [x]) = Str.join sep l +:+ sep +:+ x.
Proof.
  induction l as [|y l IH]; [contradiction |]. intros _.
  destruct l as [|z l]; [reflexivity |].
  specialize (IH ltac:(discriminate)). cbn [app] in IH |- *.
  rewrite join_cons_cons, IH, (join_cons_cons sep y z l).
  now rewrite !append_assoc.
Qed.

Lemma lower_keeps_bracket (c : ascii) :
  Ascii.eqb (Char.lower c) "[" = Ascii.eqb c "[".
Proof. destruct c as [[] [] [] [] [] [] [] []]; reflexivity. Qed.

Lemma start_index_no_match (w0 : string) (words client_words : list string) :
  (forall c0 rest, client_words = c0 :: rest -> eq_nocase w0 c0 = false) ->
  start_index (w0 :: words) client_words = 0.
Proof.
  intros H. unfold start_index.
  destruct client_words as [|c0 [|c1 [|c2 rest]]]; try reflexivity.
  - now rewrite (H c0 [] eq_refl).
  - rewrite (H c0 [c1] eq_refl). now destruct words.
Qed.

(** X19.  Reprocessing nests the old title.  For a title that opens with
    a bracket, as every standardized title does, and holds neither "office
    work" nor "errands", the notes extracted for a client whose name has no
    opening bracket are the whole title, its whitespace runs reduced to one
    blank: the bracketed label is never recognised as the client name.  The
    title written by a forced run therefore ends with a bar followed by the
    old title. *)
Theorem reprocessing_nests_the_old_title :
  forall (r name : string),
    let summary := String "[" r in
    name <> EmptyString ->
    Str.has_char "[" name = false ->
    Str.contains_any ["office work"; "errands"] (Str.lower summary) = false ->
    extract_notes_from_summary summary (Some name) = Str.join " " (Str.split summary)
    /\ Str.startswith "[" (Str.join " " (Str.split summary)) = true
    /\ forall status_label work_type helper_info,
         exists head,
           create_standardized_title status_label (Some name) work_type helper_info
             (extract_notes_from_summary summary (Some name))
           = head +:+ " | " +:+ Str.join " " (Str.split summary).
Proof.
  intros r name summary Hname Hbr Hkw.
  destruct (split_cons "[" r eq_refl) as (w' & ws & Hsplit).
  fold summary in Hsplit.
  assert (Hwords : Forall word (Str.split summary)) by (now apply split_go_words).
  destruct (join_cons_tail " " (String "[" w') ws) as [tail Hjoin].
  cbn [String.append] in Hjoin.
  assert (Hnotes : extract_notes_from_summary summary (Some name)
                   = Str.join " " (Str.split summary)).
  { unfold extract_notes_from_summary.
    change (Str.is_empty summary) with false. cbv iota.
    change (strip_stars summary) with summary.
    cbn [Str.contains_any existsb] in Hkw. rewrite orb_false_r in Hkw.
    apply orb_false_iff in Hkw as [Hoffice Herrands].
    cbn [keyword_notes]. rewrite Hoffice, Herrands. cbv zeta.
    destruct name as [|n name']; [contradiction |]. cbn [Str.is_empty].
    rewrite Hsplit.
    rewrite start_index_no_match.
    - cbn [length Nat.ltb Nat.leb skipn].
      assert (Hr : Str.rstrip (Str.join " " (String "[" w' :: ws))
                   = Str.join " " (String "[" w' :: ws)).
      { rewrite Hsplit in Hwords.
        destruct (join_words_end _ Hwords) as (a & w & -> & Hw); [discriminate |].
        now apply rstrip_ends_with_word. }
      rewrite Hjoin in *. set (text := w' +:+ tail) in *.
      unfold strip_maintenance.
      change (Str.lower (String "[" text)) with (String "[" (Str.lower text)).
      cbn [Str.startswith Ascii.eqb Bool.eqb andb].
      cbn [drop_leading client_separator Ascii.eqb Bool.eqb orb Char.is_space].
      change (Char.is_space "[") with false. cbv iota.
      unfold Str.strip. rewrite rstrip_idempotent, Hr. reflexivity.
    - intros c0 rest Hc0.
      destruct (split_first _ _ _ Hc0) as (x & c0' & -> & Hx).
      unfold eq_nocase.
      change (Str.lower (String "[" w')) with (String "[" (Str.lower w')).
      change (Str.lower (String x c0')) with (String (Char.lower x) (Str.lower c0')).
      cbn [String.eqb]. rewrite Ascii.eqb_sym, lower_keeps_bracket.
      destruct (Ascii.eqb_spec x "[") as [-> | Hne]; [| reflexivity].
      rewrite Hbr in Hx. discriminate. }
  split; [exact Hnotes |]. split; [now rewrite Hsplit, Hjoin |].
  intros label wt helper. rewrite Hnotes. unfold create_standardized_title.
  destruct name as [|n name']; [contradiction |]. cbn [Str.is_empty].
  unfold notes_part. rewrite Hsplit, Hjoin. cbn [Str.is_empty].
  rewrite app_assoc, join_snoc by discriminate.
  eexists. cbn [String.append]. reflexivity.
Qed.

(** A forced run on ["[T] Thomas - Maintenance"]. *)
Lemma reprocessing_nests_the_old_title_witness :
  extract_notes_from_summary "[T] Thomas - Maintenance" (Some "Thomas")
  = "[T] Thomas - Maintenance".
Proof.
  apply (proj1 (reprocessing_nests_the_old_title "T] Thomas - Maintenance" "Thomas"
                  ltac:(discriminate) eq_refl eq_refl)).
Defined.

(** ** The classifier and the case of letters *)

Lemma lower_cons (c : ascii) (s : string) :
  Str.lower (String c s) = String (Char.lower c) (Str.lower s).
Proof. reflexivity. Qed.

Lemma lower_keeps_star (c : ascii) : is_star (Char.lower c) = is_star c.
Proof. destruct c as [[] [] [] [] [] [] [] []]; reflexivity. Qed.

Lemma lower_keeps_space (c : ascii) : Char.is_space (Char.lower c) = Char.is_space c.
Proof. destruct c as [[] [] [] [] [] [] [] []]; reflexivity. Qed.

Lemma lower_of_upper (c : ascii) : Char.lower (Char.upper c) = Char.lower c.
Proof. destruct c as [[] [] [] [] [] [] [] []]; reflexivity. Qed.

Lemma lower_of_lower (c : ascii) : Char.lower (Char.lower c) = Char.lower c.
Proof. destruct c as [[] [] [] [] [] [] [] []]; reflexivity. Qed.

Lemma lower_upper (s : string) : Str.lower (Str.upper s) = Str.lower s.
Proof.
  induction s as [|c s IH]; [reflexivity |].
  change (Str.upper (String c s)) with (String (Char.upper c) (Str.upper s)).
  now rewrite !lower_cons, lower_of_upper, IH.
Qed.

Lemma lower_lower (s : string) : Str.lower (Str.lower s) = Str.lower s.
Proof.
  induction s as [|c s IH]; [reflexivity |].
  now rewrite !lower_cons, lower_of_lower, IH.
Qed.

Lemma drop_stars_lower (s : string) : drop_stars (Str.lower s) = Str.lower (drop_stars s).
Proof.
  induction s as [|c s IH]; [reflexivity |].
  rewrite lower_cons, !drop_stars_cons, lower_keeps_star.
  destruct (is_star c); [exact IH | now rewrite lower_cons].
Qed.

Lemma lstrip_lower (s : string) : Str.lstrip (Str.lower s) = Str.lower (Str.lstrip s).
Proof.
  induction s as [|c s IH]; [reflexivity |].
  rewrite lower_cons. cbn [Str.lstrip]. rewrite lower_keeps_space.
  destruct (Char.is_space c); [exact IH | now rewrite lower_cons].
Qed.

Lemma strip_stars_lower (s : string) : strip_stars (Str.lower s) = Str.lower (strip_stars s).
Proof.
  destruct s as [|c s]; [reflexivity |].
  rewrite lower_cons, !strip_stars_cons, lower_keeps_star.
  destruct (is_star c); [| now rewrite lower_cons].
  now rewrite drop_stars_lower, lstrip_lower.
Qed.

Lemma determine_work_type_lower (s : string) :
  determine_work_type (Str.lower s) = determine_work_type s.
Proof.
  unfold determine_work_type. rewrite strip_stars_lower, lower_lower.
  now destruct s.
Qed.

Lemma capital_spec (c : ascii) :
  capital c
  <-> Char.is_upper c || Char.between 192 214 c || Char.between 216 222 c = true.
Proof.
  unfold capital, Char.is_upper, Char.between.
  rewrite !orb_true_iff, !andb_true_iff, !N.leb_le. tauto.
Qed.

Lemma lower_cased_lower (s : string) : lower_cased s (Str.lower s).
Proof.
  induction s as [|c s IH]; [constructor |].
  rewrite lower_cons. unfold Char.lower.
  destruct (Char.is_upper c || Char.between 192 214 c || Char.between 216 222 c) eqn:Hc.
  - apply lower_cased_capital; [now apply capital_spec | exact IH].
  - apply lower_cased_other; [| exact IH].
    intros H. apply capital_spec in H. congruence.
Qed.

Lemma lower_cased_unique (s t : string) : lower_cased s t -> t = Str.lower s.
Proof.
  induction 1 as [|c s t Hc _ IH|c s t Hc _ IH]; [reflexivity | |];
    rewrite lower_cons, IH; unfold Char.lower.
  - apply capital_spec in Hc. now rewrite Hc.
  - destruct (Char.is_upper c || Char.between 192 214 c || Char.between 216 222 c) eqn:E;
      [| reflexivity].
    now apply capital_spec in E.
Qed.

(** C4.  [determine_work_type] returns, for every title, the category that
    the ordered rules assign to the title with its leading asterisks
    stripped and lower-cased: Design when a Design keyword occurs ("plan"
    and "planning" only between word boundaries), otherwise Office Work,
    otherwise Errands, otherwise Ad-hoc, each when one of its keywords
    occurs, and Maintenance when none does.  The lower-cased title is the
    title with each upper-case letter replaced by its lower-case letter and
    nothing else changed, so that two titles differing in case only get the
    same category, and keywords written in capitals count.  The result is
    always one of the five categories; a title containing both "design" and
    "office" is classified Design; "planting" does not trigger Design, nor
    does "plan" with an accented letter next to it, an accented letter being
    a word character, while "plan" after a no-break space does. *)
Theorem classifier_precedence :
  (forall summary,
      classified (Str.lower (strip_stars summary)) (determine_work_type summary))
  /\ (forall summary clean,
         lower_cased (strip_stars summary) clean ->
         classified clean (determine_work_type summary))
  /\ (forall a b,
         same_up_to_case a b -> determine_work_type a = determine_work_type b)
  /\ (forall summary,
         In (determine_work_type summary)
           ["Design"; "Office Work"; "Errands"; "Ad-hoc"; "Maintenance"])
  /\ (forall summary,
         occurs "design" summary -> occurs "office" summary ->
         determine_work_type summary = "Design")
  /\ determine_work_type "planting" = "Maintenance"
  /\ ~ occurs_as_word "plan" "planting"
  /\ determine_work_type "Thomas DESIGN consult" = "Design"
  /\ determine_work_type "**Follow-Up with OFFICE" = "Office Work"
  /\ determine_work_type "Pickup MULCH" = "Errands"
  /\ determine_work_type "Storm CLEANUP" = "Ad-hoc"
  /\ determine_work_type (Latin1.text Latin1.e_acute +:+ "plan") = "Maintenance"
  /\ determine_work_type ("plan" +:+ Latin1.text Latin1.e_acute) = "Maintenance"
  /\ determine_work_type ("garden" +:+ Latin1.text Latin1.no_break_space +:+ "plan")
     = "Design".
Proof.
  split; [exact determine_work_type_classified |].
  split; [| split; [| split]].
  - intros summary clean H. apply lower_cased_unique in H. subst clean.
    apply determine_work_type_classified.
  - intros a b (t & Ha & Hb).
    apply lower_cased_unique in Ha, Hb.
    rewrite <- (determine_work_type_lower a), <- (determine_work_type_lower b).
    congruence.
  - intros summary.
    destruct (determine_work_type_classified summary); simpl; auto 10.
  - split; [intros summary Hd _; now apply design_in_title |].
    split; [reflexivity |].
    split; [apply (not_true_iff _ _ (word_search_spec "plan" "planting")); reflexivity |].
    repeat split; reflexivity.
Qed.

(** A title holding both "design" and "office", and two spellings of one
    title. *)
Lemma classifier_precedence_witness :
  determine_work_type "**garden design for the office" = "Design"
  /\ determine_work_type "Thomas DESIGN Consult" = determine_work_type "thomas design consult".
Proof.
  split.
  - apply (proj1 (proj2 (proj2 (proj2 (proj2 classifier_precedence))))).
    + exists "**garden ", " for the office". reflexivity.
    + exists "**garden design for the ", EmptyString. reflexivity.
  - apply (proj1 (proj2 (proj2 classifier_precedence))).
    exists "thomas design consult". split; [| apply lower_cased_lower].
    apply (lower_cased_lower "Thomas DESIGN Consult").
Defined.

(** ** NameMapper: the modifiers are whole matches *)

Lemma append_inv_tail (a b t : string) : a +:+ t = b +:+ t -> a = b.
Proof.
  revert b. induction a as [|c a IH]; intros [|d b] H; cbn [String.append] in H.
  - reflexivity.
  - apply (f_equal String.length) in H. cbn [String.length] in H.
    rewrite string_length_append in H. lia.
  - apply (f_equal String.length) in H. cbn [String.length] in H.
    rewrite string_length_append in H. lia.
  - injection H as -> H. f_equal. now apply IH.
Qed.

Lemma append_inv_length (a b v w : string) :
  a +:+ v = b +:+ w -> String.length v = String.length w -> a = b /\ v = w.
Proof.
  revert b. induction a as [|c a IH]; intros [|d b] H Hlen; cbn [String.append] in H.
  - auto.
  - subst v. cbn [String.length] in Hlen. rewrite string_length_append in Hlen. lia.
  - subst w. cbn [String.length] in Hlen. rewrite string_length_append in Hlen. lia.
  - injection H as -> H. destruct (IH b H Hlen) as [-> ->]. auto.
Qed.

Lemma last_char_append (a b : string) :
  last_char (a +:+ b)
  = match last_char b with Some c => Some c | None => last_char a end.
Proof.
  induction a as [|c a IH]; cbn [String.append].
  - now destruct (last_char b).
  - rewrite !last_char_cons, IH. now destruct (last_char b).
Qed.

Lemma last_char_none (s : string) : last_char s = None -> s = EmptyString.
Proof.
  destruct s as [|c s]; [reflexivity |]. rewrite last_char_cons.
  now destruct (last_char s).
Qed.

Lemma last_char_snoc (s : string) (c : ascii) :
  last_char s = Some c -> exists b, s = b +:+ String c EmptyString.
Proof.
  induction s as [|d s IH]; [discriminate |]. rewrite last_char_cons.
  destruct (last_char s) as [e|] eqn:E.
  - intros [= ->]. destruct (IH eq_refl) as [b ->]. now exists (String d b).
  - intros [= ->]. apply last_char_none in E. subst s. now exists EmptyString.
Qed.

Lemma all_chars_append (p : ascii -> bool) (a b : string) :
  all_chars p (a +:+ b) = all_chars p a && all_chars p b.
Proof.
  induction a as [|c a IH]; cbn [String.append all_chars]; [reflexivity |].
  now rewrite IH, andb_assoc.
Qed.

Lemma all_chars_last (p : ascii -> bool) (s : string) (c : ascii) :
  all_chars p s = true -> last_char s = Some c -> p c = true.
Proof.
  intros Hall Hlast. apply last_char_snoc in Hlast as [b ->].
  rewrite all_chars_append in Hall. apply andb_true_iff in Hall as [_ Hc].
  cbn [all_chars] in Hc. now rewrite andb_true_r in Hc.
Qed.

Lemma ends_in_append (p : ascii -> bool) (a b : string) :
  b <> EmptyString -> all_chars p b = true -> ends_in p (a +:+ b) = true.
Proof.
  intros Hne Hall. unfold ends_in. rewrite last_char_append.
  destruct (last_char b) as [c|] eqn:E.
  - exact (all_chars_last p b c Hall E).
  - apply last_char_none in E. contradiction.
Qed.

Lemma kind_of_solo (spaces word : string) :
  word = "SOLO" \/ word = "solo" -> kind_of (spaces +:+ word) = Some kind_solo.
Proof.
  intros [-> | ->]; unfold kind_of; rewrite last_char_append; reflexivity.
Qed.

Lemma kind_of_stars (m : string) :
  m <> EmptyString -> all_chars is_star m = true -> kind_of m = Some kind_stars.
Proof.
  intros Hne Hall. unfold kind_of.
  destruct (last_char m) as [c|] eqn:E.
  - pose proof (all_chars_last _ _ _ Hall E) as Hc.
    apply Ascii.eqb_eq in Hc. subst c. reflexivity.
  - apply last_char_none in E. contradiction.
Qed.

Lemma kind_of_append (a m : string) (k : modifier_kind) :
  kind_of m = Some k -> kind_of (a +:+ m) = Some k.
Proof.
  unfold kind_of. rewrite last_char_append.
  destruct (last_char m); [auto | discriminate].
Qed.

Lemma kind_of_newline (m : string) :
  kind_of (m +:+ String Char.newline EmptyString) = None.
Proof. unfold kind_of. rewrite last_char_append. reflexivity. Qed.

Lemma trailing_modifier_kind (m : string) :
  trailing_modifier m -> exists k, kind_of m = Some k.
Proof.
  intros [(spaces & word & -> & _ & _ & Hword) | [-> | [Hne Hall]]].
  - exists kind_solo. now apply kind_of_solo.
  - now exists kind_question.
  - exists kind_stars. now apply kind_of_stars.
Qed.

Lemma whole_is_trailing (before suffix : string) :
  whole_modifier before suffix -> trailing_modifier suffix.
Proof.
  intros [(spaces & word & -> & Hne & Hall & Hword & _) | [-> | (Hne & Hall & _)]].
  - left. exists spaces, word. auto.
  - right. now left.
  - right. right. auto.
Qed.

(** A trailing modifier at the end of the text is what the pattern matches
    at its position, whole. *)
Lemma modifier_at_exact (m t : string) :
  trailing_modifier m -> at_end t = true -> modifier_at (m +:+ t) = Some m.
Proof.
  intros [(spaces & word & -> & Hne & Hall & Hword) | [-> | [Hne Hall]]] Hend.
  - destruct spaces as [|c spaces]; [contradiction |].
    pose proof (all_space_first _ _ Hall) as Hc.
    rewrite append_assoc.
    assert (Hspan : Str.span Char.is_space (String c spaces +:+ word +:+ t)
                    = (String c spaces, word +:+ t)).
    { apply span_append; [exact Hall |]. destruct Hword as [-> | ->]; reflexivity. }
    unfold modifier_at. cbn [String.append]. rewrite Hc.
    cbn [String.append] in Hspan. rewrite Hspan.
    destruct Hword as [-> | ->]; cbn; rewrite Hend; reflexivity.
  - cbn. now rewrite Hend.
  - destruct m as [|c m]; [contradiction |].
    assert (Hc : c = "*"%char).
    { cbn in Hall. apply andb_true_iff in Hall as [Hc _]. now apply Ascii.eqb_eq in Hc. }
    subst c.
    assert (Hspan : Str.span is_star (String "*" m +:+ t) = (String "*" m, t)).
    { apply span_append; [exact Hall |].
      destruct (at_end_cases t Hend) as [-> | ->]; [exact I | reflexivity]. }
    unfold modifier_at. cbn [String.append] in *.
    change (Char.is_space "*") with false. change (Ascii.eqb "*" "?") with false.
    change (is_star "*") with true. cbv iota. now rewrite Hspan, Hend.
Qed.

(** Two modifiers that end at the same place: the texts after them are the
    same. *)
Lemma same_end (x m tail t : string) :
  (exists k, kind_of x = Some k) -> trailing_modifier m ->
  at_end tail = true -> at_end t = true ->
  x +:+ tail = m +:+ t -> x = m.
Proof.
  intros [k Hk] Hm Htail Ht Heq. destruct (trailing_modifier_kind m Hm) as [k' Hk'].
  destruct (at_end_cases tail Htail) as [-> | ->],
           (at_end_cases t Ht) as [-> | ->].
  - now rewrite !append_empty_r in Heq.
  - rewrite append_empty_r in Heq. subst x.
    rewrite kind_of_newline in Hk. discriminate.
  - rewrite append_empty_r in Heq. subst m.
    rewrite kind_of_newline in Hk'. discriminate.
  - now apply append_inv_tail in Heq.
Qed.

Lemma trailing_modifier_kinds (m : string) :
  trailing_modifier m ->
  (kind_of m = Some kind_solo
   /\ exists spaces word, m = spaces +:+ word /\ String.length word = 4
                          /\ all_chars Char.is_space spaces = true)
  \/ (kind_of m = Some kind_question /\ m = "?")
  \/ (kind_of m = Some kind_stars /\ all_chars is_star m = true).
Proof.
  intros [(spaces & word & -> & _ & Hall & Hword) | [-> | [Hne Hall]]].
  - left. split; [now apply kind_of_solo |]. exists spaces, word.
    repeat split; auto. now destruct Hword as [-> | ->].
  - right. left. auto.
  - right. right. split; [now apply kind_of_stars | exact Hall].
Qed.

(** Before a whole modifier the pattern matches nowhere. *)
Lemma no_earlier_match (b1 b2 g tail : string) :
  whole_modifier (b1 +:+ b2) g -> at_end tail = true -> b2 <> EmptyString ->
  modifier_at (b2 +:+ g +:+ tail) = None.
Proof.
  intros Hwhole Htail Hb2.
  destruct (modifier_at (b2 +:+ g +:+ tail)) as [m|] eqn:E; [exfalso | reflexivity].
  apply modifier_at_sound in E as (t & Heq & Ht & Hm).
  pose proof (whole_is_trailing _ _ Hwhole) as Hg.
  destruct (trailing_modifier_kind g Hg) as [k Hk].
  rewrite <- append_assoc in Heq.
  assert (Hx : b2 +:+ g = m).
  { apply (same_end _ _ tail t); auto. exists k. now apply kind_of_append. }
  subst m. pose proof (kind_of_append b2 g k Hk) as Hk2.
  apply trailing_modifier_kinds in Hm.
  destruct Hwhole as [(spaces & word & -> & Hne & Hall & Hword & Hbefore)
                     | [-> | (Hne & Hall & Hbefore)]].
  - rewrite (kind_of_solo spaces word Hword) in Hk. injection Hk as <-.
    destruct Hm as [(_ & spaces' & word' & Heq' & Hlen & Hall') | [[Hk' _] | [Hk' _]]];
      [| congruence | congruence].
    rewrite <- append_assoc in Heq'.
    apply append_inv_length in Heq' as [Hs _];
      [| rewrite Hlen; now destruct Hword as [-> | ->]].
    rewrite <- Hs, all_chars_append in Hall'.
    apply andb_true_iff in Hall' as [Hall2 _].
    rewrite (ends_in_append Char.is_space b1 b2 Hb2 Hall2) in Hbefore. discriminate.
  - injection Hk as <-.
    destruct Hm as [[Hk' _] | [[_ Heq'] | [Hk' _]]]; [congruence | | congruence].
    apply (f_equal String.length) in Heq'. rewrite string_length_append in Heq'.
    destruct b2; [contradiction | cbn in Heq'; lia].
  - rewrite (kind_of_stars g Hne Hall) in Hk. injection Hk as <-.
    destruct Hm as [[Hk' _] | [[Hk' _] | [_ Hall']]]; [congruence | congruence |].
    rewrite all_chars_append in Hall'. apply andb_true_iff in Hall' as [Hall2 _].
    rewrite (ends_in_append is_star b1 b2 Hb2 Hall2) in Hbefore. discriminate.
Qed.

(** The search finds a whole modifier, and the text before it. *)
Lemma modifier_search_whole (before g tail : string) :
  whole_modifier before g -> at_end tail = true ->
  modifier_search (before +:+ g +:+ tail) = Some (before, g).
Proof.
  intros Hwhole Htail.
  assert (Hgen : forall b2 b1, before = b1 +:+ b2 ->
            modifier_search (b2 +:+ g +:+ tail) = Some (b2, g)).
  { induction b2 as [|c b2 IH]; intros b1 Hb; rewrite modifier_search_eq.
    - cbn [String.append].
      now rewrite (modifier_at_exact g tail (whole_is_trailing _ _ Hwhole) Htail).
    - rewrite (no_earlier_match b1 (String c b2) g tail); [| now rewrite <- Hb | auto
                                                           | discriminate].
      cbn [String.append].
      rewrite (IH (b1 +:+ String c EmptyString)); [reflexivity |].
      now rewrite Hb, append_assoc. }
  exact (Hgen before EmptyString eq_refl).
Qed.

(** Conversely, what the search finds is a whole modifier. *)
Lemma modifier_search_leftmost (s before g : string) :
  modifier_search s = Some (before, g) ->
  forall b1 b2 rest, before = b1 +:+ b2 -> b2 <> EmptyString ->
                     s = before +:+ rest -> modifier_at (b2 +:+ rest) = None.
Proof.
  revert before. induction s as [|c s IH]; intros before; rewrite modifier_search_eq.
  - destruct (modifier_at EmptyString); [| discriminate].
    intros [= <- _] b1 b2 rest Hb Hb2 _.
    destruct b1, b2; try discriminate. contradiction.
  - destruct (modifier_at (String c s)) eqn:E.
    + intros [= <- _] b1 b2 rest Hb Hb2 _. destruct b1, b2; try discriminate. contradiction.
    + destruct (modifier_search s) as [[b g']|] eqn:Hs; [| discriminate].
      intros [= <- <-] b1 b2 rest Hb Hb2 Heq.
      cbn [String.append] in Heq. injection Heq as Heq.
      destruct b1 as [|d b1]; cbn [String.append] in Hb.
      * subst b2. cbn [String.append]. now rewrite <- Heq.
      * injection Hb as <- Hb. exact (IH b eq_refl b1 b2 rest Hb Hb2 Heq).
Qed.

Lemma modifier_search_is_whole (s before g : string) :
  modifier_search s = Some (before, g) ->
  exists tail, s = before +:+ g +:+ tail /\ at_end tail = true
               /\ whole_modifier before g.
Proof.
  intros Hsearch.
  destruct (modifier_search_sound _ _ _ Hsearch) as (tail & Hs & Htail & Hg).
  exists tail. split; [exact Hs |]. split; [exact Htail |].
  assert (Hlast : forall c m, last_char before = Some c ->
            trailing_modifier (String c EmptyString +:+ m) -> g = m -> False).
  { intros c m Hc Hm ->. apply last_char_snoc in Hc as [b1 Hb].
    pose proof (modifier_search_leftmost _ _ _ Hsearch b1 (String c EmptyString)
                  (m +:+ tail) Hb ltac:(discriminate) Hs) as Hnone.
    rewrite <- append_assoc, (modifier_at_exact _ tail Hm Htail) in Hnone.
    discriminate. }
  destruct Hg as [(spaces & word & -> & Hne & Hall & Hword) | [-> | [Hne Hall]]].
  - left. exists spaces, word. repeat split; auto.
    unfold ends_in. destruct (last_char before) as [c|] eqn:Hc; [| reflexivity].
    destruct (Char.is_space c) eqn:Hsp; [exfalso | reflexivity].
    apply (Hlast c (spaces +:+ word) eq_refl); [| reflexivity].
    left. exists (String c spaces), word.
    split; [reflexivity |]. split; [discriminate |].
    split; [cbn [all_chars]; now rewrite Hsp, Hall | exact Hword].
  - right. now left.
  - right. right. repeat split; auto.
    unfold ends_in. destruct (last_char before) as [c|] eqn:Hc; [| reflexivity].
    destruct (is_star c) eqn:Hst; [exfalso | reflexivity].
    apply (Hlast c g eq_refl); [| reflexivity].
    right. right. split; [discriminate |]. cbn [String.append all_chars].
    now rewrite Hst, Hall.
Qed.

Lemma modifier_search_nowhere (s : string) :
  (forall a m t, trailing_modifier m -> at_end t = true -> s <> a +:+ m +:+ t) ->
  modifier_search s = None.
Proof.
  intros Hnone. destruct (modifier_search s) as [[before g]|] eqn:E; [| reflexivity].
  destruct (modifier_search_sound _ _ _ E) as (t & Hs & Ht & Hm).
  now destruct (Hnone before g t Hm Ht).
Qed.

(** The leading modifier. *)
Lemma prefix_match_begins (s : string) :
  begins_with is_star s = false -> prefix_match s = None.
Proof.
  destruct s as [|c s]; [reflexivity |]. cbn [begins_with].
  destruct c as [[] [] [] [] [] [] [] []]; intros H; try reflexivity; discriminate.
Qed.

Lemma begins_with_false (p : ascii -> bool) (s : string) :
  begins_with p s = false -> match s with String c _ => p c = false | EmptyString => True end.
Proof. destruct s; cbn; auto. Qed.

Lemma false_begins_with (p : ascii -> bool) (s : string) :
  match s with String c _ => p c = false | EmptyString => True end -> begins_with p s = false.
Proof. destruct s; cbn; auto. Qed.

Lemma prefix_match_whole (before prefix rest : string) :
  leading_split before prefix rest ->
  match prefix_match before with
  | Some (p, r) => (p, r)
  | None => (EmptyString, before)
  end = (prefix, rest).
Proof.
  intros [(-> & -> & Hb) | (stars & spaces & -> & -> & Hne & Hstars & Hspaces & Hrest & Hnext)].
  - now rewrite (prefix_match_begins _ Hb).
  - destruct stars as [|c stars]; [contradiction |].
    assert (Hc : c = "*"%char).
    { cbn in Hstars. apply andb_true_iff in Hstars as [Hc _]. now apply Ascii.eqb_eq in Hc. }
    subst c. rewrite append_assoc.
    assert (E1 : Str.span is_star (String "*" stars +:+ spaces +:+ rest)
                 = (String "*" stars, spaces +:+ rest)).
    { apply span_append; [exact Hstars |].
      destruct spaces as [|d spaces].
      - cbn [String.append]. apply begins_with_false. now apply Hnext.
      - cbn [String.append]. apply space_is_no_star.
        now apply (all_space_first d spaces). }
    assert (E2 : Str.span Char.is_space (spaces +:+ rest) = (spaces, rest)).
    { apply span_append; [exact Hspaces | now apply begins_with_false]. }
    cbn [String.append] in E1 |- *.
    change (prefix_match (String "*" (stars +:+ spaces +:+ rest)))
      with (let '(stars0, rest0) := Str.span is_star (String "*" (stars +:+ spaces +:+ rest)) in
            let '(spaces0, rest1) := Str.span Char.is_space rest0 in
            Some (stars0 +:+ spaces0, rest1)).
    rewrite E1, E2. cbn [String.append]. reflexivity.
Qed.

Lemma prefix_match_is_whole (before : string) :
  leading_split before
    (match prefix_match before with Some (p, _) => p | None => EmptyString end)
    (match prefix_match before with Some (_, r) => r | None => before end).
Proof.
  destruct (prefix_match before) as [[p rest]|] eqn:E.
  - right. unfold prefix_match in E. destruct before as [|c s]; [discriminate |].
    destruct (Ascii.eqb_spec c "*") as [-> | Hc].
    + change (match Str.span is_star (String "*" s) with
              | (stars, rest0) =>
                  let '(spaces, rest1) := Str.span Char.is_space rest0 in
                  Some (stars +:+ spaces, rest1)
              end = Some (p, rest)) in E.
      destruct (Str.span is_star (String "*" s)) as [stars r0] eqn:E1.
      destruct (Str.span Char.is_space r0) as [spaces r1] eqn:E2.
      injection E as <- <-.
      destruct (span_spec _ _ _ _ E1) as (Hs & Hstars & Hr0).
      destruct (span_spec _ _ _ _ E2) as (-> & Hspaces & Hr1).
      exists stars, spaces. split; [reflexivity |].
      split; [now rewrite Hs, append_assoc |].
      split.
      { intros ->. cbn [Str.span] in E1. change (is_star "*") with true in E1.
        destruct (Str.span is_star s). discriminate. }
      split; [exact Hstars |]. split; [exact Hspaces |].
      split; [now apply false_begins_with |].
      intros ->. now apply false_begins_with.
    + destruct c as [[] [] [] [] [] [] [] []]; try discriminate. now contradiction Hc.
  - left. split; [reflexivity |]. split; [reflexivity |].
    apply prefix_match_none in E. destruct before as [|c s]; [reflexivity |].
    cbn [Str.startswith] in E. cbn [begins_with]. unfold is_star.
    rewrite Ascii.eqb_sym. destruct (Ascii.eqb "*" c); [| reflexivity].
    destruct (Str.startswith EmptyString s) eqn:E'; [discriminate |].
    now destruct s.
Qed.

Lemma map_helper_name_split (helper_name before suffix prefix rest : string) :
  trailing_split helper_name before suffix -> leading_split before prefix rest ->
  map_helper_name helper_name = prefix +:+ formal_name (Str.strip rest) +:+ suffix.
Proof.
  intros Htrail Hlead.
  assert (Hsearch : match modifier_search helper_name with
                    | Some (b, g) => (b, g)
                    | None => (helper_name, EmptyString)
                    end = (before, suffix)).
  { destruct Htrail as [(-> & -> & Hnone) | (tail & -> & Htail & Hwhole)].
    - now rewrite (modifier_search_nowhere _ Hnone).
    - now rewrite (modifier_search_whole _ _ _ Hwhole Htail). }
  pose proof (prefix_match_whole _ _ _ Hlead) as Hprefix.
  unfold map_helper_name. destruct (Str.is_empty helper_name) eqn:Hempty.
  - apply is_empty_spec in Hempty. subst helper_name.
    injection Hsearch as <- <-.
    injection Hprefix as <- <-. reflexivity.
  - rewrite Hsearch, Hprefix, mapping_lookup. reflexivity.
Qed.

Lemma map_helper_name_has_split (helper_name : string) :
  exists before suffix prefix rest,
    trailing_split helper_name before suffix /\ leading_split before prefix rest.
Proof.
  assert (Htrail : exists before suffix, trailing_split helper_name before suffix).
  { destruct (modifier_search helper_name) as [[before g]|] eqn:E.
    - exists before, g. right. now apply modifier_search_is_whole.
    - exists helper_name, EmptyString. left. repeat split.
      intros a m t Hm Ht ->. now apply (modifier_search_complete a m t Hm Ht). }
  destruct Htrail as (before & suffix & Htrail).
  exists before, suffix. eexists. eexists. split; [exact Htrail |].
  apply prefix_match_is_whole.
Qed.

(** C6, amended.  [map_helper_name] takes a helper descriptor apart in two
    steps, and every descriptor has such a split.  The trailing modifier is
    the whole match of the modifier pattern: whitespace followed by SOLO or
    solo with no whitespace before it, a question mark, or a run of
    asterisks with no asterisk before it, standing at the end of the
    descriptor or before a final newline; without such a modifier anywhere
    it is empty.  The leading modifier of what stands before it is the
    whole run of asterisks at its start with the whole run of whitespace
    after them, or empty if there is no asterisk at the start.  For every
    such split the result is the leading modifier, the canonical name of
    the rest stripped of surrounding whitespace, and the trailing modifier.
    The canonical name is found by exact match: the three listed spellings
    Rorick, rorick and RORICK give Rebecca, any other core name is passed
    through unchanged.  In particular "Rorick SOLO" maps to "Rebecca SOLO",
    a run of two asterisks is kept whole on either side, and a no-break
    space before SOLO is whitespace. *)
Theorem map_helper_name_contract :
  (forall helper_name,
      exists before suffix prefix rest,
        trailing_split helper_name before suffix /\ leading_split before prefix rest)
  /\ (forall helper_name before suffix prefix rest,
         trailing_split helper_name before suffix ->
         leading_split before prefix rest ->
         map_helper_name helper_name
         = prefix +:+ formal_name (Str.strip rest) +:+ suffix)
  /\ (forall core_name,
         In core_name ["Rorick"; "rorick"; "RORICK"] -> formal_name core_name = "Rebecca")
  /\ (forall core_name,
         ~ In core_name ["Rorick"; "rorick"; "RORICK"] -> formal_name core_name = core_name)
  /\ map_helper_name "Rorick SOLO" = "Rebecca SOLO"
  /\ map_helper_name "** Rorick" = "** Rebecca"
  /\ map_helper_name "**Rorick?" = "**Rebecca?"
  /\ map_helper_name "Rorick **" = "Rebecca**"
  /\ map_helper_name ("Rorick" +:+ Latin1.text Latin1.no_break_space +:+ "SOLO")
     = "Rebecca" +:+ Latin1.text Latin1.no_break_space +:+ "SOLO".
Proof.
  split; [exact map_helper_name_has_split |].
  split; [exact map_helper_name_split |].
  split; [| split; [| repeat split; reflexivity]].
  - intros core_name [<- | [<- | [<- | []]]]; reflexivity.
  - intros core_name Hnot. unfold formal_name.
    destruct (String.eqb_spec "Rorick" core_name) as [<- | _];
      [exfalso; apply Hnot; simpl; auto |].
    destruct (String.eqb_spec "rorick" core_name) as [<- | _];
      [exfalso; apply Hnot; simpl; auto |].
    destruct (String.eqb_spec "RORICK" core_name) as [<- | _];
      [exfalso; apply Hnot; simpl; auto |].
    reflexivity.
Qed.

(** A descriptor with both modifiers, a listed spelling and an unlisted
    name. *)
Lemma map_helper_name_contract_witness :
  map_helper_name "** rorick  SOLO" = "** Rebecca  SOLO"
  /\ formal_name "rorick" = "Rebecca" /\ formal_name "Anne" = "Anne".
Proof.
  split; [| split].
  - apply (proj1 (proj2 map_helper_name_contract)
             "** rorick  SOLO" "** rorick" "  SOLO" "** " "rorick").
    + right. exists EmptyString. split; [reflexivity |]. split; [reflexivity |].
      left. exists "  ", "SOLO". repeat split; auto; discriminate.
    + right. exists "**", " ". repeat split; auto; discriminate.
  - apply (proj1 (proj2 (proj2 map_helper_name_contract))). simpl. auto.
  - apply (proj1 (proj2 (proj2 (proj2 map_helper_name_contract)))).
    simpl. intros [H | [H | [H | []]]]; discriminate H.
Defined.

(** C6 as stated fails on a spelling that the table does not list: "RoRick"
    equals the key "Rorick" up to case, and is passed through unchanged. *)
Lemma map_helper_name_counterexample :
  eq_nocase "RoRick" "Rorick" = true
  /\ dict_get HELPER_NAME_MAPPING "Rorick" = Some "Rebecca"
  /\ map_helper_name "RoRick" = "RoRick"
  /\ map_helper_name "RoRick" <> "Rebecca".
Proof. repeat split; try reflexivity. discriminate. Qed.

(** ** ClientMatcher: the contract *)

Lemma eq_nocase_spec (a b : string) : eq_nocase a b = true <-> same_up_to_case a b.
Proof.
  unfold eq_nocase, same_up_to_case. rewrite String.eqb_eq. split.
  - intros H. exists (Str.lower a).
    split; [apply lower_cased_lower | rewrite H; apply lower_cased_lower].
  - intros (t & Ha & Hb). apply lower_cased_unique in Ha, Hb. congruence.
Qed.

(** X10.  The contract of the client matcher.  A returned record is stored
    in the roster under a key equal, up to case, to one of the two candidate
    names extracted from the title.  A non-empty candidate equal up to case
    to some roster key always yields a record.  An exact match of the primary
    candidate wins; failing that, an exact match of the fallback candidate
    wins, even over a match of the primary candidate up to case.  Two names
    are equal up to case when replacing every upper-case letter, accented
    ones included, by its lower-case letter makes them equal: a title in
    capitals with an accented capital finds the client stored under the
    name with the accented small letter. *)
Theorem find_matching_client_contract :
  (forall (event_summary : string) (clients : dict ClientRecord),
    (forall c,
        find_matching_client event_summary clients = Some c ->
        exists primary_name fallback_name name client_key,
          extract_client_name event_summary = Names primary_name fallback_name
          /\ (name = primary_name \/ name = fallback_name)
          /\ name <> EmptyString
          /\ same_up_to_case name client_key
          /\ dict_get clients client_key = Some c)
    /\ (forall primary_name fallback_name name client_key c,
           extract_client_name event_summary = Names primary_name fallback_name ->
           name = primary_name \/ name = fallback_name ->
           name <> EmptyString ->
           In (client_key, c) clients ->
           same_up_to_case name client_key ->
           find_matching_client event_summary clients <> None)
    /\ (forall primary_name fallback_name c,
           extract_client_name event_summary = Names primary_name fallback_name ->
           primary_name <> EmptyString ->
           dict_get clients primary_name = Some c ->
           find_matching_client event_summary clients = Some c)
    /\ (forall primary_name fallback_name c,
           extract_client_name event_summary = Names primary_name fallback_name ->
           dict_get clients primary_name = None ->
           fallback_name <> EmptyString ->
           dict_get clients fallback_name = Some c ->
           find_matching_client event_summary clients = Some c))
  /\ find_matching_client ("JOS" +:+ Latin1.text Latin1.E_acute +:+ " prune")
       [("Jos" +:+ Latin1.text Latin1.e_acute, Sample.thomas); ("Silver", Sample.silver)]
     = Some Sample.thomas.
Proof.
  split; [| reflexivity].
  intros summary clients.
  assert (Hne : forall p f, extract_client_name summary = Names p f ->
                            Str.is_empty summary = false).
  { intros p f H. destruct summary; [discriminate | reflexivity]. }
  split; [| split; [| split]].
  - intros c. unfold find_matching_client.
    destruct (Str.is_empty summary); [discriminate |].
    destruct (extract_client_name summary) as [| |p f]; try discriminate.
    destruct (exact_match [p; f] clients) as [c'|] eqn:Hex.
    + intros [= ->]. apply exact_match_sound in Hex as (n & Hin & Hn & Hg).
      exists p, f, n, n. split; [reflexivity |].
      split; [destruct Hin as [<- | [<- | []]]; auto |].
      split; [exact Hn |].
      split; [apply eq_nocase_spec; apply String.eqb_refl | exact Hg].
    + intros H. apply caseless_match_sound in H as (n & k & Hin & Hn & Heq & Hg).
      exists p, f, n, k. split; [reflexivity |].
      split; [destruct Hin as [<- | [<- | []]]; auto |].
      split; [exact Hn |]. split; [now apply eq_nocase_spec | exact Hg].
  - intros p f name k c Hnames Hname Hnonempty Hin Heq.
    apply eq_nocase_spec in Heq.
    unfold find_matching_client. rewrite (Hne p f Hnames), Hnames.
    destruct (exact_match [p; f] clients); [discriminate |].
    apply (caseless_match_complete [p; f] clients name k c); auto.
    destruct Hname as [-> | ->]; [now left | right; now left].
  - intros p f c Hnames Hp Hg.
    unfold find_matching_client. rewrite (Hne p f Hnames), Hnames.
    now rewrite (exact_match_first p [f] clients c Hp Hg).
  - intros p f c Hnames Hp Hf Hg.
    unfold find_matching_client. rewrite (Hne p f Hnames), Hnames.
    cbn [exact_match]. rewrite Hp.
    destruct (Str.is_empty p); destruct f; try contradiction;
      cbn [Str.is_empty]; now rewrite Hg.
Qed.

(** The title ["silver debris"] against the sample roster: the key
    ["Silver"] equals the fallback candidate up to case. *)
Lemma find_matching_client_contract_witness :
  find_matching_client "silver debris" Sample.roster <> None.
Proof.
  apply (proj1 (proj2 (proj1 find_matching_client_contract "silver debris" Sample.roster))
           "silver debris" "silver" "silver" "Silver" Sample.silver).
  - reflexivity.
  - now right.
  - discriminate.
  - right. left. reflexivity.
  - apply eq_nocase_spec. reflexivity.
Defined.

(** X20.  The classifier ignores the case of ASCII letters: two titles
    equal up to case have the same work type, and so the same colour; in
    particular a title, its lower-case form and its upper-case form are
    classified alike. *)
Theorem work_type_ignores_case :
  forall a b : string,
    eq_nocase a b = true ->
    determine_work_type a = determine_work_type b
    /\ get_color_for_work_type (determine_work_type a)
       = get_color_for_work_type (determine_work_type b)
    /\ determine_work_type (Str.upper a) = determine_work_type a
    /\ determine_work_type (Str.lower a) = determine_work_type a.
Proof.
  intros a b H. unfold eq_nocase in H. apply String.eqb_eq in H.
  assert (Hab : determine_work_type a = determine_work_type b).
  { rewrite <- (determine_work_type_lower a), <- (determine_work_type_lower b).
    now rewrite H. }
  split; [exact Hab |]. split; [now rewrite Hab |]. split.
  - rewrite <- (determine_work_type_lower (Str.upper a)), lower_upper.
    apply determine_work_type_lower.
  - apply determine_work_type_lower.
Qed.

(** Two spellings of a storm call. *)
Lemma work_type_ignores_case_witness :
  determine_work_type "*thomas STORM cleanup" = determine_work_type "*Thomas storm CLEANUP".
Proof.
  apply (work_type_ignores_case "*thomas STORM cleanup" "*Thomas storm CLEANUP").
  reflexivity.
Defined.

(** ** What a live run leaves in place *)

Lemma schedule_ignores_timed (events : list Event) :
  extract_helper_info_from_events (List.filter is_all_day events)
  = extract_helper_info_from_events events.
Proof.
  unfold extract_helper_info_from_events. generalize (∅ : gmap string string).
  induction events as [|event events IH]; intros m; [reflexivity |].
  cbn [List.filter fold_left]. destruct (is_all_day event) eqn:Hday.
  - cbn [fold_left]. apply IH.
  - rewrite record_helper_timed by exact Hday. apply IH.
Qed.

Lemma reaches_update_timed (force_reprocess : bool) (clients : dict ClientRecord)
    (event : Event) :
  reaches_update force_reprocess clients event = true -> is_all_day event = false.
Proof.
  unfold reaches_update. destruct (is_all_day event); [discriminate | reflexivity].
Qed.

Lemma calendar_after_all_day
    (fromisoformat strptime_date : string -> option datetime)
    (strftime_date : datetime -> string) (now : datetime)
    (force_reprocess : bool) (clients : dict ClientRecord)
    (helper_schedule : gmap string string) (reference_date : datetime)
    (events : list Event) :
  List.filter is_all_day
    (calendar_after fromisoformat strptime_date strftime_date now force_reprocess
       clients helper_schedule reference_date events)
  = List.filter is_all_day events.
Proof.
  unfold calendar_after. induction events as [|event events IH]; [reflexivity |].
  cbn [map List.filter]. rewrite IH.
  destruct (reaches_update force_reprocess clients event) eqn:Hr; [| reflexivity].
  apply reaches_update_timed in Hr.
  change (is_all_day (apply_updates event ?u)) with (is_all_day event).
  now rewrite Hr.
Qed.

(** X21.  What a live run leaves in place.  In the calendar as a live run
    leaves it when its updates succeed, every event keeps its id and its
    start, in the same order; the all-day events are untouched, so the
    helper schedule read from the calendar is the same before and after;
    and an event that did not reach the report is unchanged. *)
Theorem live_run_keeps_the_calendar :
  forall fromisoformat strptime_date strftime_date now
         force_reprocess clients helper_schedule reference_date events,
    let after :=
      calendar_after fromisoformat strptime_date strftime_date now force_reprocess
        clients helper_schedule reference_date events in
    map ev_id after = map ev_id events
    /\ map ev_start after = map ev_start events
    /\ List.filter is_all_day after = List.filter is_all_day events
    /\ extract_helper_info_from_events after = extract_helper_info_from_events events
    /\ (forall event,
           In event events -> reaches_update force_reprocess clients event = false ->
           In event after).
Proof.
  intros fi sp sf now force clients hs ref events after.
  assert (Hid : map ev_id after = map ev_id events).
  { unfold after, calendar_after. rewrite List.map_map. apply List.map_ext.
    intros event. now destruct (reaches_update force clients event). }
  assert (Hstart : map ev_start after = map ev_start events).
  { unfold after, calendar_after. rewrite List.map_map. apply List.map_ext.
    intros event. now destruct (reaches_update force clients event). }
  assert (Hday : List.filter is_all_day after = List.filter is_all_day events)
    by apply calendar_after_all_day.
  split; [exact Hid |]. split; [exact Hstart |]. split; [exact Hday |]. split.
  - rewrite <- (schedule_ignores_timed after), Hday. apply schedule_ignores_timed.
  - intros event Hin Hr. unfold after, calendar_after.
    apply in_map_iff. exists event. split; [now rewrite Hr | exact Hin].
Qed.

(** ** The details line of a description *)

Lemma join_app (sep : string) (a b : list string) :
  a <> [] -> b <> [] ->
  Str.join sep (a ++ b) = Str.join sep a +:+ sep +:+ Str.join sep b.
Proof.
  intros Ha Hb. induction a as [|x a IH]; [contradiction |].
  destruct a as [|y a].
  - destruct b as [|z b]; [contradiction |]. reflexivity.
  - specialize (IH ltac:(discriminate)). cbn [app] in IH |- *.
    rewrite join_cons_cons, IH, (join_cons_cons sep x y a).
    now rewrite !append_assoc.
Qed.

Lemma map_length (f : ascii -> ascii) (s : string) :
  String.length (Str.map f s) = String.length s.
Proof. induction s as [|c s IH]; cbn [Str.map String.length]; congruence. Qed.

Lemma spelled_length (s : string) :
  s <> EmptyString ->
  String.length (Str.join " " (characters s)) = 2 * String.length s - 1.
Proof.
  induction s as [|c s IH]; [contradiction |]. intros _.
  destruct s as [|d s]; [reflexivity |].
  specialize (IH ltac:(discriminate)). cbn [characters] in IH |- *.
  rewrite join_cons_cons, !string_length_append, IH.
  cbn [String.length]. lia.
Qed.

(** X22.  The details line spells the notes out.  In the description of a
    client event the notes are not written as they are: the line reads
    [DETAILS:] followed by the characters of the notes in upper case, one
    blank between any two of them, twice as long as the notes less one.
    This is so for the notes whose letters have an upper-case form of one
    character below U+0100, that is without U+00B5, U+00DF and U+00FF; the
    accented letters among them are put in upper case as the others are.
    In the description of a non-client event the line holds the notes
    verbatim. *)
Theorem details_are_spelled_out :
  (forall (client_data : ClientRecord) (service_type details : string)
          (helper_info : option string),
      details <> EmptyString ->
      all_chars Char.upper_stays details = true ->
      let spelled := Str.upper (Str.join " " (characters details)) in
      String.length spelled = 2 * String.length details - 1
      /\ (exists before rest,
             create_enhanced_description client_data service_type details helper_info
             = before +:+ String Char.newline ("DETAILS: " +:+ spelled)
                 +:+ String Char.newline rest)
      /\ (exists before,
             create_non_client_description service_type details helper_info
             = before +:+ String Char.newline ("DETAILS: " +:+ details)))
  /\ Str.upper (Str.join " " (characters "prune")) = "P R U N E"
  /\ Str.upper (Str.join " " (characters ("caf" +:+ Latin1.text Latin1.e_acute)))
     = "C A F " +:+ Latin1.text Latin1.E_acute
  /\ all_chars Char.upper_stays ("caf" +:+ Latin1.text Latin1.e_acute) = true
  /\ all_chars Char.upper_stays ("stra" +:+ Latin1.text (ascii_of_N 223) +:+ "e") = false.
Proof.
  split; [| repeat split; reflexivity].
  intros client service details helper Hne _ spelled. split; [| split].
  - unfold spelled, Str.upper. rewrite map_length. now apply spelled_length.
  - unfold create_enhanced_description.
    assert (He : Str.is_empty details = false)
      by (destruct details; [contradiction | reflexivity]).
    rewrite He. fold spelled.
    set (head := ["CLIENT: " +:+ full_name client; "SERVICE: " +:+ service; EmptyString]
                 ++ match helper with
                    | Some h => if Str.is_empty h then [] else ["HELPER: " +:+ h; EmptyString]
                    | None => []
                    end).
    set (tail := line_if (maintenance_hours client) "ESTIMATED HOURS: " ++ _).
    rewrite app_assoc. fold head.
    change (["DETAILS: " +:+ spelled; EmptyString] ++ tail)
      with (["DETAILS: " +:+ spelled] ++ EmptyString :: tail).
    rewrite join_app, join_app;
      [| discriminate | discriminate | | discriminate].
    + set (rest := Str.join _ (EmptyString :: tail)).
      exists (Str.join (String Char.newline EmptyString) head), rest.
      cbn [Str.join String.append]. reflexivity.
    + unfold head. discriminate.
  - unfold create_non_client_description, line_if.
    assert (He : Str.is_empty details = false)
      by (destruct details; [contradiction | reflexivity]).
    rewrite He. rewrite app_assoc, join_snoc.
    + eexists. cbn [String.append]. reflexivity.
    + discriminate.
Qed.

(** The note ["prune"] in the description of a visit at Thomas's. *)
Lemma details_are_spelled_out_witness :
  exists before rest,
    create_enhanced_description Sample.thomas "Maintenance" "prune" None
    = before +:+ String Char.newline "DETAILS: P R U N E" +:+ String Char.newline rest.
Proof.
  apply (proj1 (proj2 (proj1 details_are_spelled_out
                         Sample.thomas "Maintenance" "prune" None
                         ltac:(discriminate) eq_refl))).
Defined.

(** ** Clearing a calendar *)

Lemma delete_loop (delete_call : list string -> string -> bool) (dry_run : bool)
    (events : list Event) (st : Deletion.DeleteState) :
  let st' := fold_left (Deletion.delete_step delete_call dry_run) events st in
  Deletion.deleted_count st' + Deletion.failed_count st'
  = Deletion.deleted_count st + Deletion.failed_count st + length events
  /\ Deletion.deletes st'
     = Deletion.deletes st ++ (if dry_run then [] else map ev_id events)
  /\ (dry_run = true -> Deletion.failed_count st' = Deletion.failed_count st)
  /\ ((forall sent event_id, delete_call sent event_id = false) -> dry_run = false ->
      Deletion.deleted_count st' = Deletion.deleted_count st).
Proof.
  revert st. induction events as [|event events IH]; intros st; cbv zeta.
  - cbn. destruct dry_run; rewrite app_nil_r; repeat split; auto; lia.
  - cbn [fold_left]. destruct (IH (Deletion.delete_step delete_call dry_run st event))
      as (Hsum & Hdel & Hdry & Hfail).
    cbv zeta in *. rewrite Hsum, Hdel. clear Hsum Hdel.
    unfold Deletion.delete_step in *. destruct dry_run.
    + cbn in *. rewrite app_nil_r.
      repeat split; intros; try lia; auto; try discriminate.
    + destruct (delete_call (Deletion.deletes st) (ev_id event)) eqn:Hc;
        cbn in *; rewrite <- app_assoc; cbn;
        repeat split; intros; try lia; try discriminate.
      * match goal with Hall : forall _ _, _ = false |- _ => rewrite Hall in Hc end.
        discriminate.
      * now apply Hfail.
Qed.

(** X23.  [delete_all_events] deletes nothing without both confirmations
    and nothing in a dry run: an id is passed to the API only in a live run,
    after the first answer read ["yes"] in any case and the second read
    exactly ["DELETE ALL EVENTS"].  It returns [True] exactly when the
    calendar was listed and is empty or both confirmations were given,
    whether or not the deletions succeeded: events whose deletion failed are
    counted and nothing else.  After the confirmations every event is counted
    once, as deleted or failed, and a live run tries each event once, in
    order. *)
Theorem delete_needs_both_confirmations :
  forall (listing : option (list Event)) (first_response second_response : string)
         (delete_call : list string -> string -> bool) (dry_run : bool),
    let run :=
      Deletion.delete_all_events listing first_response second_response
        delete_call dry_run in
    (Deletion.deletes (Deletion.state run) <> [] ->
     dry_run = false
     /\ Deletion.confirmed first_response second_response = true)
    /\ (Deletion.result run = true
        <-> listing = Some []
            \/ (listing <> None
                /\ Deletion.confirmed first_response second_response = true))
    /\ (forall events,
           listing = Some events ->
           Deletion.confirmed first_response second_response = true ->
           Deletion.deleted_count (Deletion.state run)
           + Deletion.failed_count (Deletion.state run) = length events
           /\ Deletion.deletes (Deletion.state run)
              = (if dry_run then [] else map ev_id events)
           /\ (dry_run = true -> Deletion.failed_count (Deletion.state run) = 0)
           /\ ((forall sent event_id, delete_call sent event_id = false) ->
               dry_run = false ->
               Deletion.deleted_count (Deletion.state run) = 0
               /\ Deletion.result run = true)).
Proof.
  intros listing r1 r2 del dry run. unfold run, Deletion.delete_all_events,
    Deletion.confirmed.
  destruct listing as [[|event events]|].
  - cbn. split; [intros H; now destruct H |]. split; [split; auto |].
    intros events [= <-] _. cbn. destruct dry; repeat split; auto.
  - destruct (String.eqb (Str.lower r1) "yes"); cbn [negb andb].
    2:{ cbn. split; [intros H; now destruct H |]. split.
        - split; [discriminate | intros [H | [_ H]]; discriminate].
        - intros ? _ H. discriminate. }
    destruct (String.eqb r2 "DELETE ALL EVENTS"); cbn [negb].
    2:{ cbn. split; [intros H; now destruct H |]. split.
        - split; [discriminate | intros [H | [_ H]]; discriminate].
        - intros ? _ H. discriminate. }
    destruct (delete_loop del dry (event :: events) Deletion.delete_start)
      as (Hsum & Hdel & Hdry & Hfail).
    cbv zeta in *. cbn [Deletion.state Deletion.result].
    cbn [Deletion.delete_start Deletion.deleted_count Deletion.failed_count
         Deletion.deletes app] in Hsum, Hdel, Hdry, Hfail.
    split; [| split].
    + intros Hne. split; [| reflexivity]. rewrite Hdel in Hne.
      destruct dry; [now destruct Hne | reflexivity].
    + split; [intros _; right; split; [discriminate | reflexivity] | reflexivity].
    + intros evs [= <-] _. split; [lia |]. split; [exact Hdel |].
      split; [exact Hdry |]. intros Hall Hlive. split; [now apply Hfail | reflexivity].
  - cbn. split; [intros H; now destruct H |]. split.
    + split; [discriminate | intros [H | [H _]]; [discriminate | now destruct H]].
    + intros events H. discriminate.
Qed.

(** The sample calendar, confirmed with ["YES"], on a transport that
    refuses every deletion: nothing is deleted and [True] is returned. *)
Lemma delete_needs_both_confirmations_witness :
  Deletion.deleted_count
    (Deletion.state
       (Deletion.delete_all_events (Some Sample.calendar) "YES" "DELETE ALL EVENTS"
          (fun _ _ => false) false)) = 0
  /\ Deletion.result
       (Deletion.delete_all_events (Some Sample.calendar) "YES" "DELETE ALL EVENTS"
          (fun _ _ => false) false) = true.
Proof.
  apply (proj2 (proj2 (delete_needs_both_confirmations (Some Sample.calendar) "YES"
                         "DELETE ALL EVENTS" (fun _ _ => false) false))
           Sample.calendar eq_refl eq_refl); reflexivity.
Defined.

(** ** Resetting a calendar *)

Lemma copy_run_live (create_event : list (dict Value) -> dict Value -> bool)
    (source_events : list (dict Value)) (reset_mode : bool) :
  Forall (fun event => well_formed event = true) source_events ->
  (forall sent body, create_event sent body = true) ->
  let run := copy_calendar_events true create_event source_events false true reset_mode in
  returned run = Some true /\ created (copy_state run) = copies source_events.
Proof.
  intros Hall Hok. cbv zeta. unfold copy_calendar_events. cbn [negb andb].
  destruct (copy_events create_event false copy_start source_events)
    as [st stopped] eqn:Hrun.
  destruct (copy_events_done create_event false source_events copy_start st stopped Hrun)
    as (done & Hstop & _ & _ & _ & Hcr & _ & _ & Ht).
  specialize (Ht Hok).
  cbn [copy_start failed_count created app] in Hcr, Ht.
  destruct stopped as [error|].
  - destruct Hstop as (bad & rest & -> & Hbad).
    apply Forall_app in Hall as [_ Hall]. apply Forall_cons in Hall as [Hb _].
    congruence.
  - subst done. destruct source_events as [|event events]; [cbn; auto |].
    cbn [returned copy_state]. rewrite Ht. auto.
Qed.

(** X24.  A reset does not notice failed deletions.  In a live copy with
    [clear_destination], the destination is cleared by [delete_all_events]
    and the copy is abandoned when that call returns [False]: so it is when
    the user declines a confirmation and the destination is not empty.  Once
    both confirmations are given the copy goes on whatever the deletions
    did: over well-formed source events and a [create_event] that succeeds,
    [True] is returned and every copy is created, even when no event of the
    destination could be deleted. *)
Theorem reset_ignores_failed_deletions :
  forall (destination : list Event) (first_response second_response : string)
         (delete_call : list string -> string -> bool)
         (create_event : list (dict Value) -> dict Value -> bool)
         (source_events : list (dict Value)) (reset_mode : bool),
    let cleared :=
      Deletion.delete_all_events (Some destination) first_response second_response
        delete_call false in
    let run :=
      copy_calendar_events (Deletion.result cleared) create_event source_events
        false true reset_mode in
    (Deletion.confirmed first_response second_response = false ->
     destination <> [] ->
     returned run = Some false /\ created (copy_state run) = []
     /\ Deletion.deletes (Deletion.state cleared) = [])
    /\ (Deletion.confirmed first_response second_response = true ->
        Forall (fun event => well_formed event = true) source_events ->
        (forall sent body, create_event sent body = true) ->
        returned run = Some true
        /\ created (copy_state run) = copies source_events
        /\ ((forall sent event_id, delete_call sent event_id = false) ->
            Deletion.deleted_count (Deletion.state cleared) = 0
            /\ Deletion.failed_count (Deletion.state cleared) = length destination)).
Proof.
  intros destination r1 r2 del create events reset cleared run. split.
  - intros Hno Hne. unfold run, cleared, Deletion.delete_all_events.
    destruct destination as [|d destination]; [contradiction |].
    unfold Deletion.confirmed in Hno.
    destruct (String.eqb (Str.lower r1) "yes"); cbn [negb andb] in *;
      [rewrite Hno |]; cbn; auto.
  - intros Hyes Hall Hok.
    assert (Hres : Deletion.result cleared = true).
    { unfold cleared, Deletion.delete_all_events.
      destruct destination as [|d destination]; [reflexivity |].
      unfold Deletion.confirmed in Hyes. apply andb_true_iff in Hyes as [-> ->].
      reflexivity. }
    unfold run. rewrite Hres.
    destruct (copy_run_live create events reset Hall Hok) as [Hr Hc].
    split; [exact Hr |]. split; [exact Hc |].
    intros Hfail. unfold cleared, Deletion.delete_all_events.
    destruct destination as [|d destination]; [cbn; auto |].
    unfold Deletion.confirmed in Hyes. apply andb_true_iff in Hyes as [-> ->].
    cbn [negb Deletion.state].
    destruct (delete_loop del false (d :: destination) Deletion.delete_start)
      as (Hsum & _ & _ & Hzero).
    cbv zeta in *. specialize (Hzero Hfail eq_refl).
    cbn [Deletion.delete_start Deletion.deleted_count Deletion.failed_count] in *.
    split; [exact Hzero | lia].
Qed.

(** The sample calendar as destination, every deletion refused, and a
    source of two events. *)
Lemma reset_ignores_failed_deletions_witness :
  returned
    (copy_calendar_events
       (Deletion.result
          (Deletion.delete_all_events (Some Sample.calendar) "yes" "DELETE ALL EVENTS"
             (fun _ _ => false) false))
       CopySample.always_created [CopySample.visit; CopySample.untitled]
       false true true)
  = Some true.
Proof.
  apply (proj2 (reset_ignores_failed_deletions Sample.calendar "yes" "DELETE ALL EVENTS"
                  (fun _ _ => false) CopySample.always_created
                  [CopySample.visit; CopySample.untitled] true)).
  - reflexivity.
  - repeat constructor.
  - reflexivity.
Defined.
